(** * Blackjack decision and simulation engine: a shallow embedding

    The development follows three Python modules of the repository:
    - [advanced-blackjack-ai.py]          (module [AI] below),
    - [advanced-blackjack-simulation.py]  (module [Sim] below),
    - [blackjack-player-simulation.py]    (module [PlayerSim] below).

    [Card], [Deck] and [Hand] are textually the same classes in the first
    two files and are embedded once.

    Conventions.
    - Python [int] is [Z]; lengths and loop counters are [nat].
    - Python lists are Rocq lists in the same order: [list.pop()] removes
      the LAST element, [list.append] adds at the end.
    - Python [float] quotients of two integers are idealised as exact
      rationals [Q]; every comparison the code makes on them is against a
      literal ([0.6], [0.5], [2]) far from any rounding boundary.
    - Exceptions are the [Raise] outcome of [Res]; [Timeout] is the
      embedding's own outcome for a loop that ran out of fuel.
    - The [random] module is an oracle (a script of answers), so the
      theorems hold for every run; nothing is said about distributions.
    - [simulate_game] runs in a state monad over the objects it reaches;
      the state carries a trace of draws, settlements and counter updates,
      which the code does not keep and which changes nothing it computes. *)

From Stdlib Require Import ZArith QArith Lia Lqa Permutation Bool.
From stdpp Require Import base tactics option list list_numbers gmap.

Set Warnings "-abstract-large-number".
Local Open Scope Z_scope.

(** ** Cards *)

Inductive Rank := RA | R2 | R3 | R4 | R5 | R6 | R7 | R8 | R9 | R10 | RJ | RQ | RK.
Inductive Suit := Spades | Hearts | Diamonds | Clubs.

Record Card := mkCard { rank : Rank; suit : Suit }.

#[global] Instance Rank_eq_dec : EqDecision Rank.
Proof. solve_decision. Defined.
#[global] Instance Suit_eq_dec : EqDecision Suit.
Proof. solve_decision. Defined.
#[global] Instance Card_eq_dec : EqDecision Card.
Proof. solve_decision. Defined.

(** [Card.RANKS] and [Card.SUITS], in the order of the source. *)
Definition RANKS : list Rank := [RA; R2; R3; R4; R5; R6; R7; R8; R9; R10; RJ; RQ; RK].
Definition SUITS : list Suit := [Spades; Hearts; Diamonds; Clubs].

(** [Card.value]: the court cards, the Ace, then [int(self.rank)]. *)
Definition card_value (c : Card) : Z :=
  match rank c with
  | RJ | RQ | RK => 10
  | RA => 11
  | R2 => 2 | R3 => 3 | R4 => 4 | R5 => 5 | R6 => 6 | R7 => 7
  | R8 => 8 | R9 => 9 | R10 => 10
  end.

(** ** Hands *)

Abbreviation Hand := (list Card) (only parsing).

(** [sum(card.value() for card in self.cards)] *)
Definition sum_values (h : Hand) : Z := fold_right (fun c acc => card_value c + acc) 0 h.

(** [sum(1 for card in self.cards if card.rank == 'A')] *)
Definition count_aces (h : Hand) : nat := length (filter (fun c => rank c = RA) h).

(** The loop [while total > 21 and aces > 0: total -= 10; aces -= 1]; the
    counter [aces] is the loop's own variant. *)
Fixpoint demote (aces : nat) (total : Z) : Z :=
  match aces with
  | O => total
  | S aces' => if 21 <? total then demote aces' (total - 10) else total
  end.

(** [Hand.value] *)
Definition hand_value (h : Hand) : Z := demote (count_aces h) (sum_values h).

(** [Hand.is_blackjack] *)
Definition is_blackjack (h : Hand) : bool :=
  (length h =? 2)%nat && (hand_value h =? 21).

(** [Hand.can_split] (simulation file only) *)
Definition can_split (h : Hand) : bool :=
  match h with
  | [c0; c1] => bool_decide (rank c0 = rank c1)
  | _ => false
  end.

(** ** Actions: the four strings the engines return *)

Inductive Action := Hit | Stand | Double | Split.

#[global] Instance Action_eq_dec : EqDecision Action.
Proof. solve_decision. Defined.

(** ** Outcomes of effectful code *)

Inductive Exn := ValueError | IndexError | ZeroDivisionError.

Inductive Res (A : Type) : Type :=
| Ok (a : A)
| Raise (e : Exn)
| Timeout.
Arguments Ok {A} a.
Arguments Raise {A} e.
Arguments Timeout {A}.

(** ** The shoe *)

(** [list.pop()]: split off the last element. *)
Fixpoint pop {A : Type} (l : list A) : option (list A * A) :=
  match l with
  | [] => None
  | x :: l' =>
      match pop l' with
      | None => Some ([], x)
      | Some (r, y) => Some (x :: r, y)
      end
  end.

(** [Deck.draw]: [ValueError("Deck is empty")] on an empty list, else pop. *)
Definition draw (d : list Card) : Res (Card * list Card) :=
  match pop d with
  | None => Raise ValueError
  | Some (d', c) => Ok (c, d')
  end.

(** The list comprehension of [Deck.__init__], before the shuffle. *)
Definition one_deck : list Card :=
  flat_map (fun r => map (fun s => mkCard r s) SUITS) RANKS.

Definition fresh_cards (num_decks : nat) : list Card :=
  concat (replicate num_decks one_deck).

(** ** Code shared by the two [BlackjackAI] classes:
       [calculate_bust_probability] and [simulate_dealer_hand] *)

(** [remaining_cards[card.value()] += 1] over a [defaultdict(int)]. *)
Definition remaining_cards (d : list Card) : gmap Z nat :=
  foldl (fun m c => <[card_value c := S (default O (m !! card_value c))]> m) ∅ d.

(** [range(a, b)] *)
Definition range (a b : Z) : list Z := seqZ a (b - a).

(** [sum(remaining_cards.values())]; Python's [sum] is [sum_list]. *)
Definition total_cards (d : list Card) : nat :=
  sum_list (snd <$> map_to_list (remaining_cards d)).

(** [sum(remaining_cards[i] for i in range(22 - player_hand.value(), 11))] *)
Definition bust_cards (d : list Card) (player_hand : Hand) : nat :=
  sum_list ((fun i => default O (remaining_cards d !! i))
              <$> range (22 - hand_value player_hand) 11).

(** [bust_cards / total_cards if total_cards > 0 else 0] *)
Definition calculate_bust_probability (d : list Card) (player_hand : Hand) : Q :=
  if (0 <? total_cards d)%nat
  then Z.of_nat (bust_cards d player_hand) # Pos.of_nat (total_cards d)
  else 0%Q.

(** The inner loop of [simulate_dealer_hand]:
<<
    while dealer_hand.value() < 17:
        dealer_hand.add_card(self.deck.draw())
        self.deck.cards.append(dealer_hand.cards[-1])
>>
    [dealer_hand.cards[-1]] is read back from the hand with [last]. *)
Fixpoint dealer_trial (fuel : nat) (dealer_hand : Hand) (d : list Card)
  : Res (Hand * list Card) :=
  match fuel with
  | O => Timeout
  | S fuel' =>
      if hand_value dealer_hand <? 17 then
        match draw d with
        | Ok (c, d1) =>
            let dealer_hand1 := dealer_hand ++ [c] in
            match last dealer_hand1 with
            | Some back => dealer_trial fuel' dealer_hand1 (d1 ++ [back])
            | None => Raise IndexError
            end
        | Raise e => Raise e
        | Timeout => Timeout
        end
      else Ok (dealer_hand, d)
  end.

(** [for _ in range(num_simulations)]: the tally [dealer_busts] and the
    deck are threaded through the trials. *)
Fixpoint dealer_trials (fuel : nat) (up_card : Card) (n : nat)
  (dealer_busts : nat) (d : list Card) : Res (nat * list Card) :=
  match n with
  | O => Ok (dealer_busts, d)
  | S n' =>
      match dealer_trial fuel [up_card] d with
      | Ok (dealer_hand, d1) =>
          dealer_trials fuel up_card n'
            (if 21 <? hand_value dealer_hand then S dealer_busts else dealer_busts) d1
      | Raise e => Raise e
      | Timeout => Timeout
      end
  end.

(** [simulate_dealer_hand]; [dealer_busts / num_simulations] divides by
    zero when no simulation is asked for. *)
Definition simulate_dealer_hand (fuel : nat) (up_card : Card) (num_simulations : nat)
  (d : list Card) : Res (Q * list Card) :=
  match dealer_trials fuel up_card num_simulations O d with
  | Ok (dealer_busts, d1) =>
      if (num_simulations =? 0)%nat then Raise ZeroDivisionError
      else Ok (Z.of_nat dealer_busts # Pos.of_nat num_simulations, d1)
  | Raise e => Raise e
  | Timeout => Timeout
  end.

(** Strict comparison of rationals, as a boolean. *)
Definition Qltb (x y : Q) : bool := negb (Qle_bool y x).

(** ** [advanced-blackjack-ai.py] *)

Module AI.

Record BlackjackAI := mkAI {
  deck : list Card;
  card_count : Z;
  true_count : Q;
  hands_played : Z
}.

(** [basic_strategy]: the totals table only. *)
Definition basic_strategy (player_hand : Hand) (dealer_up_card : Card) : Action :=
  let player_value := hand_value player_hand in
  let dealer_value := card_value dealer_up_card in
  if 17 <=? player_value then Stand
  else if player_value <=? 11 then Hit
  else if player_value =? 12 then
    (if (4 <=? dealer_value) && (dealer_value <=? 6) then Stand else Hit)
  else if (13 <=? player_value) && (player_value <=? 16) then
    (if (2 <=? dealer_value) && (dealer_value <=? 6) then Stand else Hit)
  else Stand.

(** The [if]/[elif] chain of [recommend_action], on the three values
    computed before it. *)
Definition overlay (tc : Q) (player_value dealer_value : Z)
  (bust_prob dealer_bust_prob : Q) (basic_recommendation : Action) : Action :=
  if Qltb 2 tc && (player_value =? 16) && (dealer_value =? 10) then Stand
  else if Qltb (6 # 10) bust_prob then Stand
  else if Qltb (5 # 10) dealer_bust_prob && (12 <=? player_value) then Stand
  else basic_recommendation.

(** [recommend_action]; the default [num_simulations] is 10000. The
    Monte Carlo call may raise, and hands the deck back. *)
Definition recommend_action (fuel : nat) (self : BlackjackAI)
  (player_hand : Hand) (dealer_up_card : Card) : Res (Action * BlackjackAI) :=
  let basic_recommendation := basic_strategy player_hand dealer_up_card in
  let bust_prob := calculate_bust_probability (deck self) player_hand in
  match simulate_dealer_hand fuel dealer_up_card 10000 (deck self) with
  | Ok (dealer_bust_prob, d1) =>
      Ok (overlay (true_count self) (hand_value player_hand) (card_value dealer_up_card)
            bust_prob dealer_bust_prob basic_recommendation,
          mkAI d1 (card_count self) (true_count self) (hands_played self))
  | Raise e => Raise e
  | Timeout => Timeout
  end.

(** [BlackjackAI.__init__]: a shuffled shoe and zeroed counters. The shuffle
    is [shuffle], a parameter here because the oracle type comes later. *)
Definition new_BlackjackAI (num_decks : nat) (shuffle : list Card -> list Card)
  : BlackjackAI :=
  mkAI (shuffle (fresh_cards num_decks)) 0 0%Q 0.

(** [reset_count] *)
Definition reset_count (self : BlackjackAI) : BlackjackAI :=
  mkAI (deck self) 0 0%Q 0.

(** [update_count]. [self.card_count] is assigned before the division
    [self.card_count / (len(self.deck.cards) // 52)] is tried, so the object
    is returned beside the outcome: on [ZeroDivisionError] it holds the new
    running count and the old true count. *)
Definition update_count (self : BlackjackAI) (card : Card) : Res unit * BlackjackAI :=
  let v := card_value card in
  let count1 :=
    if bool_decide (v ∈ [10; 11]) then card_count self - 1
    else if (2 <=? v) && (v <=? 6) then card_count self + 1
    else card_count self in
  let whole_decks := (length (deck self) `div` 52)%nat in
  if (whole_decks =? 0)%nat
  then (Raise ZeroDivisionError,
        mkAI (deck self) count1 (true_count self) (hands_played self))
  else (Ok tt,
        mkAI (deck self) count1 (count1 # Pos.of_nat whole_decks) (hands_played self)).

(** The dictionary [play_hand] returns, by its two keys. *)
Record Probabilities := mkProbabilities {
  bust_probability : Q;          (* "Bust Probability" *)
  dealer_bust_probability : Q    (* "Dealer Bust Probability" *)
}.

(** [play_hand]: the recommendation, then the two probabilities computed
    afresh, then [self.hands_played += 1]. *)
Definition play_hand (fuel : nat) (self : BlackjackAI) (player_hand : Hand)
  (dealer_up_card : Card) : Res (Action * Probabilities * BlackjackAI) :=
  match recommend_action fuel self player_hand dealer_up_card with
  | Ok (action, self1) =>
      let bp := calculate_bust_probability (deck self1) player_hand in
      match simulate_dealer_hand fuel dealer_up_card 10000 (deck self1) with
      | Ok (dbp, d2) =>
          Ok (action, mkProbabilities bp dbp,
              mkAI d2 (card_count self1) (true_count self1) (hands_played self1 + 1))
      | Raise e => Raise e
      | Timeout => Timeout
      end
  | Raise e => Raise e
  | Timeout => Timeout
  end.

End AI.

(** ** [advanced-blackjack-simulation.py] *)

Module Sim.

(** *** [CardCounter] *)

(** The [system] string; any other string leaves the count alone. *)
Inductive System := HiLo | KO | OmegaII | OtherSystem.

Record CardCounter := mkCounter {
  system : System;
  count : Z;
  true_count : Q;
  decks_remaining : Q
}.

Definition in_list (v : Z) (l : list Z) : bool := bool_decide (v ∈ l).

(** The branches of [CardCounter.update] that change [self.count]. *)
Definition count_delta (s : System) (v : Z) : Z :=
  match s with
  | HiLo =>
      if in_list v [10; 11] then -1
      else if (2 <=? v) && (v <=? 6) then 1 else 0
  | KO =>
      if in_list v [10; 11] then -1
      else if (2 <=? v) && (v <=? 7) then 1 else 0
  | OmegaII =>
      if in_list v [10; 11] then -2
      else if in_list v [2; 3; 7] then 1
      else if in_list v [4; 5; 6] then 2
      else if v =? 9 then -1 else 0
  | OtherSystem => 0
  end.

(** [max(1, x)] *)
Definition max1 (x : Q) : Q := if Qltb 1 x then x else 1%Q.

(** [CardCounter.update] *)
Definition update (self : CardCounter) (card : Card) : CardCounter :=
  let count1 := count self + count_delta (system self) (card_value card) in
  let decks1 := max1 (decks_remaining self - (1 # 52))%Q in
  mkCounter (system self) count1 (inject_Z count1 / decks1)%Q decks1.

(** *** [BlackjackAI] *)

Record BlackjackAI := mkAI {
  deck : list Card;
  card_counter : CardCounter
}.

(** [basic_strategy]: split table, then double-down table, then totals. *)
Definition basic_strategy (player_hand : Hand) (dealer_up_card : Card) : Action :=
  let player_value := hand_value player_hand in
  let dealer_value := card_value dealer_up_card in
  let doubles_and_totals :=
    let totals :=
      if 17 <=? player_value then Stand
      else if player_value <=? 11 then Hit
      else if player_value =? 12 then
        (if (4 <=? dealer_value) && (dealer_value <=? 6) then Stand else Hit)
      else if (13 <=? player_value) && (player_value <=? 16) then
        (if (2 <=? dealer_value) && (dealer_value <=? 6) then Stand else Hit)
      else Stand in
    if (length player_hand =? 2)%nat then
      if player_value =? 11 then (if negb (dealer_value =? 11) then Double else Hit)
      else if player_value =? 10 then (if dealer_value <? 10 then Double else Hit)
      else if player_value =? 9 then
        (if (3 <=? dealer_value) && (dealer_value <=? 6) then Double else Hit)
      else totals
    else totals in
  if can_split player_hand then
    if in_list player_value [16; 18] then Split
    else if player_value =? 20 then Stand
    else if in_list player_value [4; 6] then
      (if in_list dealer_value [2; 3; 4; 5; 6] then Split else Hit)
    else if player_value =? 12 then
      (if in_list dealer_value [2; 3; 4; 5; 6] then Split else Hit)
    else if player_value =? 14 then
      (if in_list dealer_value [2; 3; 4; 5; 6; 7] then Split else Hit)
    else doubles_and_totals
  else doubles_and_totals.

(** [recommend_action]: the count-based deviations only. *)
Definition recommend_action (self : BlackjackAI) (player_hand : Hand)
  (dealer_up_card : Card) : Action :=
  let basic_recommendation := basic_strategy player_hand dealer_up_card in
  if Qltb 2 (true_count (card_counter self)) then
    if (hand_value player_hand =? 16) && (card_value dealer_up_card =? 10) then Stand
    else if bool_decide (basic_recommendation = Hit) && (hand_value player_hand =? 12)
    then Stand
    else basic_recommendation
  else basic_recommendation.

(** *** Randomness

    The [random] module is an oracle: an infinite script of the values
    its calls return, read at a cursor that every call advances. *)
Record Rng := mkRng {
  uniform : nat -> Q;                       (* random.random()         *)
  pick : nat -> nat;                        (* index random.choice takes *)
  shuffled : nat -> list Card -> list Card; (* random.shuffle          *)
  pos : nat
}.

Definition advance (r : Rng) : Rng :=
  mkRng (uniform r) (pick r) (shuffled r) (S (pos r)).

Definition random_random (r : Rng) : Q * Rng := (uniform r (pos r), advance r).

Definition random_choice (l : list Action) (r : Rng) : option Action * Rng :=
  (l !! (pick r (pos r) `mod` length l)%nat, advance r).

(** [Deck(num_decks)]: build, then shuffle in place. *)
Definition new_Deck (num_decks : nat) (r : Rng) : list Card * Rng :=
  (shuffled r (pos r) (fresh_cards num_decks), advance r).

(** [CardCounter.__init__] *)
Definition new_CardCounter (s : System) : CardCounter := mkCounter s 0 0%Q 6%Q.

(** [BlackjackAI.__init__(num_decks, card_counting_system)] *)
Definition new_BlackjackAI (num_decks : nat) (s : System) (r : Rng) : BlackjackAI * Rng :=
  let (d, r1) := new_Deck num_decks r in (mkAI d (new_CardCounter s), r1).

(** *** [PlayerSimulator] *)

(** [ml_model.predict([features])[0]] on
    [features = [hand.value(), dealer_up_card.value(), true_count]]. *)
Definition Classifier := Z -> Z -> Q -> Action.

(** [ai] is a reference into the store of [BlackjackAI] objects, so that
    several players may share one. *)
Record PlayerSimulator := mkPlayer {
  ai : nat;
  skill_level : Q;
  bankroll : Q;
  bet_size : Q;
  ml_model : option Classifier
}.

Definition ALL_ACTIONS : list Action := [Hit; Stand; Double; Split].

(** The last four lines of [make_decision]. *)
Definition skill_or_random (self : PlayerSimulator) (optimal_decision : Action)
  (r : Rng) : option Action * Rng :=
  let (x, r1) := random_random r in
  if Qltb x (skill_level self) then (Some optimal_decision, r1)
  else random_choice ALL_ACTIONS r1.

(** [PlayerSimulator.make_decision]; [the_ai] is the object [self.ai]
    refers to. *)
Definition make_decision (self : PlayerSimulator) (the_ai : BlackjackAI)
  (hand : Hand) (dealer_up_card : Card) (r : Rng) : option Action * Rng :=
  let optimal_decision := recommend_action the_ai hand dealer_up_card in
  match ml_model self with
  | Some model =>
      let ml_decision :=
        model (hand_value hand) (card_value dealer_up_card)
              (true_count (card_counter the_ai)) in
      let (x, r1) := random_random r in
      if Qltb x (skill_level self) then
        let (y, r2) := random_random r1 in
        (Some (if Qltb y (5 # 10) then ml_decision else optimal_decision), r2)
      else skill_or_random self optimal_decision r1
  | None => skill_or_random self optimal_decision r
  end.

(** *** [simulate_game]

    The objects the function reaches: the store of [BlackjackAI]
    objects, the [players] list, the random oracle, the [results] list,
    and a trace of the calls the properties below speak about. *)

Inductive Event :=
| EDraw (a : nat) (c : Card)       (* [Deck.draw] on AI [a] returned [c] *)
| ESettle (seat : nat) (h : Hand)  (* outcome of hand [h] booked for [seat] *)
| EUpdate (a : nat) (c : Card).    (* [CardCounter.update(c)] on AI [a]   *)

Record World := mkWorld {
  ais : list BlackjackAI;
  players : list PlayerSimulator;
  rng : Rng;
  results : list (list Q);
  trace : list Event
}.

Definition M (A : Type) : Type := World -> Res (A * World).

#[global] Instance M_ret : MRet M := fun A a w => Ok (a, w).
#[global] Instance M_bind : MBind M := fun A B f m w =>
  match m w with
  | Ok (a, w1) => f a w1
  | Raise e => Raise e
  | Timeout => Timeout
  end.

Definition raise {A : Type} (e : Exn) : M A := fun _ => Raise e.
Definition timeout {A : Type} : M A := fun _ => Timeout.

Definition emit (e : Event) : M unit := fun w =>
  Ok (tt, mkWorld (ais w) (players w) (rng w) (results w) (trace w ++ [e])).

(** [players[i]]; [IndexError] out of range. *)
Definition get_player (i : nat) : M PlayerSimulator := fun w =>
  match players w !! i with
  | Some p => Ok (p, w)
  | None => Raise IndexError
  end.

Definition set_player (i : nat) (p : PlayerSimulator) : M unit := fun w =>
  Ok (tt, mkWorld (ais w) (<[i := p]> (players w)) (rng w) (results w) (trace w)).

(** Dereference [player.ai]. A reference outside the store does not
    exist in Python; the embedding answers [IndexError]. *)
Definition get_ai (a : nat) : M BlackjackAI := fun w =>
  match ais w !! a with
  | Some x => Ok (x, w)
  | None => Raise IndexError
  end.

Definition set_ai (a : nat) (x : BlackjackAI) : M unit := fun w =>
  Ok (tt, mkWorld (<[a := x]> (ais w)) (players w) (rng w) (results w) (trace w)).

(** [ai.deck.draw()] on the AI object [a]. *)
Definition draw_from (a : nat) : M Card :=
  x ← get_ai a;
  match draw (deck x) with
  | Ok (c, d1) =>
      set_ai a (mkAI d1 (card_counter x));;
      emit (EDraw a c);;
      mret c
  | Raise e => raise e
  | Timeout => timeout
  end.

(** [player.ai.deck.draw()] for the player at seat [i]. *)
Definition player_draw (i : nat) : M Card :=
  p ← get_player i;
  draw_from (ai p).

(** [player.make_decision(hand, dealer_hand.cards[0])] *)
Definition decide_m (i : nat) (hand dealer_hand : Hand) : M Action := fun w =>
  match players w !! i, dealer_hand !! 0%nat with
  | Some p, Some up =>
      match ais w !! ai p with
      | Some x =>
          match make_decision p x hand up (rng w) with
          | (Some act, r1) =>
              Ok (act, mkWorld (ais w) (players w) r1 (results w) (trace w))
          | (None, _) => Raise IndexError
          end
      | None => Raise IndexError
      end
  | _, _ => Raise IndexError
  end.

(** [player.bet_size *= 2] *)
Definition double_bet (i : nat) : M unit :=
  p ← get_player i;
  set_player i (mkPlayer (ai p) (skill_level p) (bankroll p) (bet_size p * 2)%Q (ml_model p)).

(** The [while True] loop on the hand at index [k] of [player_hands]. *)
Fixpoint turn_loop (fuel : nat) (i k : nat) (dealer_hand : Hand)
  (player_hands : list Hand) : M (list Hand) :=
  match fuel with
  | O => timeout
  | S fuel' =>
      match player_hands !! k with
      | None => raise IndexError
      | Some hand =>
          decision ← decide_m i hand dealer_hand;
          match decision with
          | Hit =>
              c ← player_draw i;
              let hand1 := hand ++ [c] in
              let hands1 := <[k := hand1]> player_hands in
              if 21 <? hand_value hand1 then mret hands1
              else turn_loop fuel' i k dealer_hand hands1
          | Stand => mret player_hands
          | Double =>
              if (length hand =? 2)%nat then
                double_bet i;;
                c ← player_draw i;
                mret (<[k := hand ++ [c]]> player_hands)
              else turn_loop fuel' i k dealer_hand player_hands
          | Split =>
              if can_split hand && (length player_hands <? 4)%nat then
                match pop hand with
                | Some (hand1, moved) =>
                    c1 ← player_draw i;
                    c2 ← player_draw i;
                    turn_loop fuel' i k dealer_hand
                      (<[k := hand1 ++ [c1]]> player_hands ++ [[moved] ++ [c2]])
                | None => raise IndexError
                end
              else turn_loop fuel' i k dealer_hand player_hands
          end
      end
  end.

(** [for hand in player_hands]: the list grows while it is iterated, so
    the iteration is by index until the index leaves the list. *)
Fixpoint hands_loop (fuel n : nat) (i k : nat) (dealer_hand : Hand)
  (player_hands : list Hand) : M (list Hand) :=
  match n with
  | O => timeout
  | S n' =>
      if (k <? length player_hands)%nat then
        hands1 ← turn_loop fuel i k dealer_hand player_hands;
        hands_loop fuel n' i (S k) dealer_hand hands1
      else mret player_hands
  end.

(** [while dealer_hand.value() < 17: dealer_hand.add_card(player.ai.deck.draw())] *)
Fixpoint dealer_loop (fuel : nat) (i : nat) (dealer_hand : Hand) : M Hand :=
  match fuel with
  | O => timeout
  | S fuel' =>
      if hand_value dealer_hand <? 17 then
        c ← player_draw i;
        dealer_loop fuel' i (dealer_hand ++ [c])
      else mret dealer_hand
  end.

(** The three-way comparison that books one hand. *)
Definition settle_bankroll (p : PlayerSimulator) (dealer_hand hand : Hand) : Q :=
  if 21 <? hand_value hand then (bankroll p - bet_size p)%Q
  else if (21 <? hand_value dealer_hand) || (hand_value dealer_hand <? hand_value hand)
  then (bankroll p + bet_size p)%Q
  else if hand_value hand <? hand_value dealer_hand then (bankroll p - bet_size p)%Q
  else bankroll p.

Definition settle_hand (i : nat) (dealer_hand hand : Hand) : M unit :=
  p ← get_player i;
  set_player i (mkPlayer (ai p) (skill_level p) (settle_bankroll p dealer_hand hand)
                  (bet_size p) (ml_model p));;
  emit (ESettle i hand).

Fixpoint settle_all (i : nat) (dealer_hand : Hand) (hands : list Hand) : M unit :=
  match hands with
  | [] => mret tt
  | hand :: rest => settle_hand i dealer_hand hand;; settle_all i dealer_hand rest
  end.

(** [player.bet_size = 10] *)
Definition reset_bet (i : nat) : M unit :=
  p ← get_player i;
  set_player i (mkPlayer (ai p) (skill_level p) (bankroll p) 10%Q (ml_model p)).

(** [player.ai.card_counter.update(card)] *)
Definition update_m (i : nat) (card : Card) : M unit :=
  p ← get_player i;
  x ← get_ai (ai p);
  set_ai (ai p) (mkAI (deck x) (update (card_counter x) card));;
  emit (EUpdate (ai p) card).

Fixpoint update_all (i : nat) (cards : list Card) : M unit :=
  match cards with
  | [] => mret tt
  | card :: rest => update_m i card;; update_all i rest
  end.

(** The body of [for player in players], for the player at seat [i];
    it returns the dealer's hand, which the next seat goes on with. *)
Definition play_seat (fuel : nat) (european_rules : bool) (i : nat)
  (dealer_hand : Hand) : M Hand :=
  c1 ← player_draw i;
  c2 ← player_draw i;
  player_hands ← hands_loop fuel fuel i 0 dealer_hand [[c1; c2]];
  dealer1 ← (if european_rules
             then c ← player_draw i; mret (dealer_hand ++ [c])
             else mret dealer_hand);
  dealer2 ← dealer_loop fuel i dealer1;
  settle_all i dealer2 player_hands;;
  reset_bet i;;
  update_all i (dealer2 ++ concat player_hands);;
  mret dealer2.

Fixpoint play_seats (fuel : nat) (european_rules : bool) (seats : list nat)
  (dealer_hand : Hand) : M Hand :=
  match seats with
  | [] => mret dealer_hand
  | i :: rest =>
      dealer1 ← play_seat fuel european_rules i dealer_hand;
      play_seats fuel european_rules rest dealer1
  end.

(** [Deck(num_decks)] with the world's oracle. *)
Definition new_Deck_m (num_decks : nat) : M (list Card) := fun w =>
  let (d, r1) := new_Deck num_decks (rng w) in
  Ok (d, mkWorld (ais w) (players w) r1 (results w) (trace w)).

(** The reshuffle at the head of a round:
<<
  if len(players[0].ai.deck.cards) < 52:
      players[0].ai.deck = Deck(6)
      players[0].ai.card_counter.decks_remaining = 6
>> *)
Definition reshuffle_check : M unit :=
  p0 ← get_player 0;
  x ← get_ai (ai p0);
  if (length (deck x) <? 52)%nat then
    d ← new_Deck_m 6;
    set_ai (ai p0) (mkAI d (card_counter x));;
    x1 ← get_ai (ai p0);
    let cc := card_counter x1 in
    set_ai (ai p0) (mkAI (deck x1) (mkCounter (system cc) (count cc) (true_count cc) 6%Q))
  else mret tt.

(** The opening deal of a round, from [players[0].ai.deck]. *)
Definition deal_dealer (european_rules : bool) : M Hand :=
  p0 ← get_player 0;
  c ← draw_from (ai p0);
  if european_rules then mret [c]
  else c2 ← draw_from (ai p0); mret ([c] ++ [c2]).

(** [results.append(tuple(player.bankroll for player in players))] *)
Definition record_results : M unit := fun w =>
  Ok (tt, mkWorld (ais w) (players w) (rng w)
            (results w ++ [bankroll <$> players w]) (trace w)).

Definition clear_results : M unit := fun w =>
  Ok (tt, mkWorld (ais w) (players w) (rng w) [] (trace w)).

Definition get_results : M (list (list Q)) := fun w => Ok (results w, w).

Definition num_players : M nat := fun w => Ok (length (players w), w).

(** One iteration of [for _ in range(num_rounds)]. *)
Definition play_round (fuel : nat) (european_rules : bool) : M unit :=
  reshuffle_check;;
  dealer_hand ← deal_dealer european_rules;
  n ← num_players;
  play_seats fuel european_rules (seq 0 n) dealer_hand;;
  record_results.

Fixpoint rounds (fuel : nat) (num_rounds : nat) (european_rules : bool) : M unit :=
  match num_rounds with
  | O => mret tt
  | S n => play_round fuel european_rules;; rounds fuel n european_rules
  end.

(** [simulate_game]; [results] starts empty and is what is returned. *)
Definition simulate_game (fuel : nat) (num_rounds : nat) (european_rules : bool)
  : M (list (list Q)) :=
  clear_results;;
  rounds fuel num_rounds european_rules;;
  get_results.

End Sim.

(** ** [blackjack-player-simulation.py] *)

Module PlayerSim.

(** This player owns its [BlackjackAI()] (the class of
    [advanced-blackjack-ai.py], six decks). *)
Record PlayerSimulator := mkPlayer {
  ai : AI.BlackjackAI;
  skill_level : Q;
  bankroll : Q;
  bet_size : Q
}.

Definition random_choice (l : list Action) (r : Sim.Rng) : option Action * Sim.Rng :=
  Sim.random_choice l r.

(** [make_decision]: the Monte Carlo inside [recommend_action] may raise. *)
Definition make_decision (fuel : nat) (self : PlayerSimulator) (hand : Hand)
  (dealer_up_card : Card) (r : Sim.Rng)
  : Res (option Action * PlayerSimulator * Sim.Rng) :=
  match AI.recommend_action fuel (ai self) hand dealer_up_card with
  | Ok (optimal_decision, ai1) =>
      let self1 := mkPlayer ai1 (skill_level self) (bankroll self) (bet_size self) in
      let (x, r1) := Sim.random_random r in
      if Qltb x (skill_level self) then Ok (Some optimal_decision, self1, r1)
      else let (a, r2) := random_choice [Hit; Stand] r1 in Ok (a, self1, r2)
  | Raise e => Raise e
  | Timeout => Timeout
  end.

End PlayerSim.

(** ** Sample cards and hands used by the examples *)

Definition AS := mkCard RA Spades.
Definition AH := mkCard RA Hearts.
Definition AD := mkCard RA Diamonds.
Definition KC := mkCard RK Clubs.
Definition c9S := mkCard R9 Spades.
Definition c8S := mkCard R8 Spades.
Definition c8H := mkCard R8 Hearts.
Definition c10S := mkCard R10 Spades.
Definition c10H := mkCard R10 Hearts.
Definition c10D := mkCard R10 Diamonds.
Definition c6H := mkCard R6 Hearts.
Definition c6D := mkCard R6 Diamonds.
Definition c5S := mkCard R5 Spades.
Definition c5D := mkCard R5 Diamonds.

(** What [Sim.basic_strategy] answers on every splittable hand, by rank of
    the pair and value [dv] of the dealer's up-card. *)
Definition pair_table (r : Rank) (dv : Z) : Action :=
  match r with
  | R8 | R9 => Split
  | R10 | RJ | RQ | RK => Stand
  | R2 | R3 | R6 | RA => if (2 <=? dv) && (dv <=? 6) then Split else Hit
  | R7 => if (2 <=? dv) && (dv <=? 7) then Split else Hit
  | R4 => Hit
  | R5 => if dv <? 10 then Double else Hit
  end.

(** The exact bust fraction, in the words of the docstring of
    [calculate_bust_probability] ("the probability of busting if hitting"):
    the share of the remaining cards whose addition to the hand gives a
    value above 21. *)
Definition busts_with (player_hand : Hand) (c : Card) : Prop :=
  21 < hand_value (player_hand ++ [c]).

#[global] Instance busts_with_dec (player_hand : Hand) (c : Card) :
  Decision (busts_with player_hand c).
Proof. unfold busts_with. apply _. Defined.

Definition exact_bust_fraction (d : list Card) (player_hand : Hand) : Q :=
  if (0 <? length d)%nat
  then Z.of_nat (length (filter (busts_with player_hand) d)) # Pos.of_nat (length d)
  else 0%Q.

(** Sample states. *)
Definition counter0 : Sim.CardCounter := Sim.mkCounter Sim.HiLo 0 0%Q 6%Q.
Definition hot_counter : Sim.CardCounter := Sim.mkCounter Sim.HiLo 18 3%Q 6%Q.
Definition tens_shoe : list Card := [c10S; c10H].
Definition sim_ai_tens : Sim.BlackjackAI := Sim.mkAI tens_shoe counter0.
Definition ai_tens : AI.BlackjackAI := AI.mkAI tens_shoe 0 0%Q 0.
Definition hard16 : Hand := [c10D; c6H].
Definition soft17 : Hand := [AS; c6H].
Definition hard21 : Hand := [c10D; c5S; c6H].

(** Sample oracles and players. [script u k] answers [u] to every
    [random.random()], index [k] to every [random.choice], and shuffles by
    reversal. *)
Definition script (u : Q) (k : nat) : Sim.Rng :=
  Sim.mkRng (fun _ => u) (fun _ => k) (fun _ l => rev l) 0.
Definition novice : Sim.PlayerSimulator := Sim.mkPlayer 0 0%Q 1000%Q 10%Q None.
Definition expert : Sim.PlayerSimulator := Sim.mkPlayer 0 1%Q 1000%Q 10%Q None.
Definition three_fives : Hand := [c5S; c5D; mkCard R5 Hearts].

(** A table configured with two decks, 53 cards into the shoe: 51 are left. *)
Definition two_deck_ai : Sim.BlackjackAI :=
  let x := fst (Sim.new_BlackjackAI 2 Sim.HiLo (script (1 # 2) 0)) in
  Sim.mkAI (take 51 (Sim.deck x)) (Sim.mkCounter Sim.HiLo 5 1%Q 5%Q).
Definition two_deck_world : Sim.World :=
  Sim.mkWorld [two_deck_ai] [novice] (script (1 # 2) 0) [] [].

(** An oracle whose second [random.choice] takes [Double] and whose other
    choices take [Stand]; every [random.random()] answers one half. *)
Definition double_then_stand : Sim.Rng :=
  Sim.mkRng (fun _ => 1 # 2) (fun n => if (n =? 1)%nat then 2%nat else 1%nat)
            (fun _ l => rev l) 0.
Definition split_then_stand : Sim.Rng :=
  Sim.mkRng (fun _ => 1 # 2) (fun n => if (n =? 1)%nat then 3%nat else 1%nat)
            (fun _ l => rev l) 0.
Definition novice_world (r : Sim.Rng) : Sim.World :=
  Sim.mkWorld [Sim.mkAI (fresh_cards 6) counter0] [novice] r [] [].

(** A pair of eights split three times: four hands, the first of them a
    pair of eights again. *)
Definition c8D := mkCard R8 Diamonds.
Definition c8C := mkCard R8 Clubs.
Definition c2S := mkCard R2 Spades.
Definition c2H := mkCard R2 Hearts.
Definition c2D := mkCard R2 Diamonds.
Definition pair_of_eights : Hand := [c8S; c8H].
Definition four_hands : list Hand :=
  [[c8S; c8S]; [c8H; c2S]; [c8D; c2H]; [c8C; c2D]].
Definition expert_world (r : Sim.Rng) : Sim.World :=
  Sim.mkWorld [Sim.mkAI (fresh_cards 6) counter0] [expert] r [] [].

(** A shoe whose next six cards are 8, 2, 8, 2, 8, 2, and the world three
    splits later. *)
Definition split_draws : list Card := [c8D; c2S; c8C; c2H; c8S; c2D].
Definition rigged_world : Sim.World :=
  Sim.mkWorld [Sim.mkAI (fresh_cards 1 ++ rev split_draws) counter0] [expert]
              (script (1 # 2) 0) [] [].
Definition after_three_splits : Sim.World :=
  Sim.mkWorld [Sim.mkAI (fresh_cards 1) counter0] [expert]
              (Sim.advance (Sim.advance (Sim.advance (script (1 # 2) 0)))) []
              (Sim.EDraw 0 <$> split_draws).

(** Reading a trace: the cards drawn, the cards passed to
    [CardCounter.update], and whether every settlement comes before every
    update. *)
Definition is_draw (e : Sim.Event) : Prop :=
  match e with Sim.EDraw _ _ => True | _ => False end.
Definition is_settle (e : Sim.Event) : Prop :=
  match e with Sim.ESettle _ _ => True | _ => False end.
Definition is_update (e : Sim.Event) : Prop :=
  match e with Sim.EUpdate _ _ => True | _ => False end.

Definition drawn (t : list Sim.Event) : list Card :=
  omap (fun e => match e with Sim.EDraw _ c => Some c | _ => None end) t.
Definition updated (t : list Sim.Event) : list Card :=
  omap (fun e => match e with Sim.EUpdate _ c => Some c | _ => None end) t.

Definition is_settleb (e : Sim.Event) : bool :=
  match e with Sim.ESettle _ _ => true | _ => false end.
Definition is_updateb (e : Sim.Event) : bool :=
  match e with Sim.EUpdate _ _ => true | _ => false end.

(** No settlement after the first update. *)
Fixpoint settled_first (t : list Sim.Event) : bool :=
  match t with
  | [] => true
  | e :: t' =>
      if is_updateb e then forallb (fun e' => negb (is_settleb e')) t'
      else settled_first t'
  end.

(** A table of two experts sharing one [BlackjackAI]. *)
Definition two_seat_world : Sim.World :=
  Sim.mkWorld [Sim.mkAI (fresh_cards 6) counter0] [expert; expert] (script (1 # 2) 0) [] [].

(** A one-seat table and the world one round leaves behind. *)
Definition one_seat_world : Sim.World := expert_world (script (1 # 2) 0).
Definition after_one_round : Sim.World :=
  match Sim.play_round 30 false one_seat_world with
  | Ok (_, w1) => w1
  | _ => one_seat_world
  end.

(** A hard hand: every Ace in it already counts as 1. *)
Definition hard (h : Hand) : Prop :=
  hand_value h = sum_values h - 10 * Z.of_nat (count_aces h).

(** ** Vocabulary of the further properties *)

(** A counter fed a list of cards, first card first. *)
Definition run_counter (cc : Sim.CardCounter) (cards : list Card) : Sim.CardCounter :=
  foldl Sim.update cc cards.



(** The result of one hand against the dealer, in bets: a bust hand loses,
    else a bust dealer pays, else the higher total wins. *)
Definition outcome (dealer_hand hand : Hand) : Z :=
  if 21 <? hand_value hand then -1
  else if 21 <? hand_value dealer_hand then 1
  else Z.sgn (hand_value hand - hand_value dealer_hand).

Definition net_outcome (dealer_hand : Hand) (hands : list Hand) : Z :=
  foldr (fun h acc => outcome dealer_hand h + acc) 0 hands.

(** The cards drawn from the shoe of AI [a] according to a trace, and the
    ledger of that shoe: what it holds, then what was drawn from it, last
    drawn first. *)
Definition drawn_by (a : nat) (t : list Sim.Event) : list Card :=
  omap (fun e => match e with
                 | Sim.EDraw a' c => if decide (a' = a) then Some c else None
                 | _ => None
                 end) t.

Definition shoe_ledger (a : nat) (w : Sim.World) : option (list Card) :=
  (fun x => Sim.deck x ++ rev (drawn_by a (Sim.trace w))) <$> Sim.ais w !! a.

(** An Ace or a ten-valued card. *)
Definition ten_valued (c : Card) : Prop := card_value c = 10.

#[global] Instance ten_valued_dec (c : Card) : Decision (ten_valued c).
Proof. unfold ten_valued. apply _. Defined.

(** What a seat's own play (its turn loops and the dealer's draws) may and
    may not change: only the shoes and the trace move, cards leave a shoe
    only by being drawn, no counter is touched, no other player is touched,
    and the seat's bankroll stays while its bet can only have been doubled
    some number of times. *)
Definition same_seat (p p1 : Sim.PlayerSimulator) : Prop :=
  Sim.ai p1 = Sim.ai p /\ Sim.skill_level p1 = Sim.skill_level p
  /\ Sim.ml_model p1 = Sim.ml_model p.

Definition play_frame (i : nat) (w w1 : Sim.World) : Prop :=
  Sim.results w1 = Sim.results w
  /\ length (Sim.players w1) = length (Sim.players w)
  /\ length (Sim.ais w1) = length (Sim.ais w)
  /\ (forall j, j <> i -> Sim.players w1 !! j = Sim.players w !! j)
  /\ (forall p, Sim.players w !! i = Some p ->
        exists p1 k, Sim.players w1 !! i = Some p1 /\ same_seat p p1
          /\ Sim.bankroll p1 = Sim.bankroll p
          /\ (Sim.bet_size p1 == Sim.bet_size p * inject_Z (2 ^ Z.of_nat k))%Q)
  /\ (forall a, Sim.card_counter <$> (Sim.ais w1 !! a)
                = Sim.card_counter <$> (Sim.ais w !! a))
  /\ (forall a, shoe_ledger a w1 = shoe_ledger a w)
  /\ (exists t, Sim.trace w1 = Sim.trace w ++ t /\ Forall is_draw t).

(** One seat's turn on the one-seat table, against a dealer showing a five
    with a ten in the hole, and what it returns. *)
Definition after_seat : Hand * Sim.World :=
  match Sim.play_seat 30 false 0 [c5S; c10H] one_seat_world with
  | Ok r => r
  | _ => ([], one_seat_world)
  end.

(** The same table after its hands [[10, 6]] were settled against a dealer
    twenty. *)
Definition after_settle : Sim.World :=
  match Sim.settle_all 0 [c10S; c10H] [hard16] one_seat_world with
  | Ok (_, w1) => w1
  | _ => one_seat_world
  end.

(** The hands of that seat after its loop, started on a pair of tens. *)
Definition after_hands : list Hand * Sim.World :=
  match Sim.hands_loop 30 30 0 0 [c5S; c10H] [[c10S; c10H]] one_seat_world with
  | Ok r => r
  | _ => ([], one_seat_world)
  end.

(** * Properties *)

(** ** Hand valuation *)

Lemma demote_spec (aces : nat) (total : Z) :
  exists k : nat,
    (k <= aces)%nat
    /\ demote aces total = total - 10 * Z.of_nat k
    /\ (forall j : nat, (j < k)%nat -> 21 < total - 10 * Z.of_nat j)
    /\ ((k < aces)%nat -> total - 10 * Z.of_nat k <= 21).
Proof.
  revert total. induction aces as [|a IH]; intros total.
  - exists 0%nat. simpl. repeat split; try lia.
  - simpl. destruct (21 <? total) eqn:E.
    + apply Z.ltb_lt in E.
      destruct (IH (total - 10)) as (k & Hk & Hv & Hbefore & Hafter).
      exists (S k). split; [lia|]. split; [lia|]. split.
      * intros [|j] Hj; [lia|].
        specialize (Hbefore j ltac:(lia)). lia.
      * intros Hlt. specialize (Hafter ltac:(lia)). lia.
    + apply Z.ltb_ge in E. exists 0%nat. repeat split; try lia.
Qed.

Lemma is_blackjack_iff (h : Hand) :
  is_blackjack h = true <-> length h = 2%nat /\ hand_value h = 21.
Proof.
  unfold is_blackjack. rewrite andb_true_iff, Nat.eqb_eq, Z.eqb_eq. tauto.
Qed.

(** C2. [Hand.value] is the sum of the card values (J, Q, K as 10, Ace as
    11) minus 10 for each of the [k] demoted Aces, where demotion goes on
    exactly while the running total exceeds 21 and an undemoted Ace is left
    (so [k] never exceeds the number of Aces); [A,A,9] is worth 21, [A,K]
    is worth 21 and is a blackjack, and [is_blackjack] holds exactly for
    two-card hands worth 21. *)
Theorem hand_value_soft_ace (h : Hand) :
  (forall s, card_value (mkCard RJ s) = 10 /\ card_value (mkCard RQ s) = 10
             /\ card_value (mkCard RK s) = 10 /\ card_value (mkCard RA s) = 11)
  /\ (exists k : nat,
        (k <= count_aces h)%nat
        /\ hand_value h = sum_values h - 10 * Z.of_nat k
        /\ (forall j : nat, (j < k)%nat -> 21 < sum_values h - 10 * Z.of_nat j)
        /\ ((k < count_aces h)%nat -> sum_values h - 10 * Z.of_nat k <= 21))
  /\ hand_value [AS; AH; c9S] = 21
  /\ hand_value [AD; KC] = 21
  /\ is_blackjack [AD; KC] = true
  /\ (is_blackjack h = true <-> length h = 2%nat /\ hand_value h = 21).
Proof.
  split; [intros s; repeat split|].
  split; [apply demote_spec|].
  split; [reflexivity|]. split; [reflexivity|]. split; [reflexivity|].
  apply is_blackjack_iff.
Qed.

(** ** Basic strategy on pairs *)

Lemma can_split_pair (h : Hand) :
  can_split h = true <->
  exists r s1 s2, h = [mkCard r s1; mkCard r s2].
Proof.
  split.
  - destruct h as [|[r1 s1] [|[r2 s2] [|? ?]]]; simpl; try discriminate.
    intros H. apply bool_decide_eq_true in H. simpl in H. subst. eauto.
  - intros (r & s1 & s2 & ->). simpl. apply bool_decide_eq_true. reflexivity.
Qed.

Lemma basic_strategy_on_pairs (r : Rank) (s1 s2 : Suit) (up : Card) :
  Sim.basic_strategy [mkCard r s1; mkCard r s2] up = pair_table r (card_value up).
Proof.
  destruct up as [ur us].
  destruct r, ur; reflexivity.
Qed.

(** C1 (evaluation at the failing input). A pair of Aces is splittable and
    is worth 12, not 18; against a dealer ten [basic_strategy] answers
    [Hit], while the pairs it always splits are the 8s and the 9s. *)
Theorem basic_strategy_pair_of_aces :
  can_split [AS; AH] = true
  /\ hand_value [AS; AH] = 12
  /\ Sim.basic_strategy [AS; AH] c10D = Hit
  /\ (forall s1 s2 up, Sim.basic_strategy [mkCard R8 s1; mkCard R8 s2] up = Split)
  /\ (forall s1 s2 up, Sim.basic_strategy [mkCard R9 s1; mkCard R9 s2] up = Split)
  /\ Sim.basic_strategy [c8S; c8H] c5S = Split
  /\ Sim.basic_strategy [c10S; c10H] c6H = Stand.
Proof.
  repeat split; try reflexivity; intros; apply basic_strategy_on_pairs.
Qed.

(** ** The Monte Carlo dealer estimator *)

Lemma pop_snoc {A : Type} (l : list A) (x : A) : pop (l ++ [x]) = Some (l, x).
Proof.
  induction l as [|y l IH]; simpl; [reflexivity|]. rewrite IH. reflexivity.
Qed.

Lemma pop_None {A : Type} (l : list A) : pop l = None <-> l = [].
Proof.
  split; [|intros ->; reflexivity].
  destruct l as [|x l]; [reflexivity|]. simpl. destruct (pop l) as [[? ?]|]; discriminate.
Qed.

Lemma pop_Some {A : Type} (l r : list A) (x : A) : pop l = Some (r, x) <-> l = r ++ [x].
Proof.
  split; [|intros ->; apply pop_snoc].
  destruct (decide (l = [])) as [->|Hne]; [discriminate|].
  destruct (exists_last Hne) as (r' & x' & ->).
  rewrite pop_snoc. congruence.
Qed.

Lemma draw_snoc (rest : list Card) (c : Card) : draw (rest ++ [c]) = Ok (c, rest).
Proof. unfold draw. rewrite pop_snoc. reflexivity. Qed.

Lemma draw_nil : draw [] = Raise ValueError.
Proof. reflexivity. Qed.

Lemma nonempty_snoc {A : Type} (l : list A) : l <> [] -> exists r x, l = r ++ [x].
Proof. intros H. destruct (exists_last H) as (r & x & ->). eauto. Qed.

Lemma demote_lower (aces : nat) (total : Z) : total - 10 * Z.of_nat aces <= demote aces total.
Proof.
  destruct (demote_spec aces total) as (k & Hk & -> & _). lia.
Qed.

Lemma card_value_bounds (c : Card) : 2 <= card_value c <= 11.
Proof. destruct c as [[] ?]; cbn; lia. Qed.

Lemma count_aces_cons (c : Card) (h : Hand) :
  count_aces (c :: h) = if bool_decide (rank c = RA) then S (count_aces h) else count_aces h.
Proof.
  unfold count_aces. rewrite filter_cons.
  destruct (decide (rank c = RA)) as [E|E].
  - rewrite (bool_decide_eq_true_2 _ E). reflexivity.
  - rewrite (bool_decide_eq_false_2 _ E). reflexivity.
Qed.

Lemma sum_values_aces (h : Hand) :
  Z.of_nat (length h) + 10 * Z.of_nat (count_aces h) <= sum_values h.
Proof.
  induction h as [|c h IH]; [unfold count_aces; rewrite filter_nil; simpl; lia|].
  rewrite count_aces_cons. cbn [sum_values fold_right length].
  fold (sum_values h).
  pose proof (card_value_bounds c) as Hb.
  destruct (decide (rank c = RA)) as [E|E].
  - rewrite (bool_decide_eq_true_2 _ E).
    assert (card_value c = 11) by (unfold card_value; rewrite E; reflexivity). lia.
  - rewrite (bool_decide_eq_false_2 _ E). lia.
Qed.

(** A hand is worth at least one point per card. *)
Lemma hand_value_ge_length (h : Hand) : Z.of_nat (length h) <= hand_value h.
Proof.
  unfold hand_value.
  pose proof (demote_lower (count_aces h) (sum_values h)).
  pose proof (sum_values_aces h). lia.
Qed.

(** One trial on a deck whose last card is [c]: the deck comes back as it
    was and the hand only grew by copies of [c]. *)
Lemma dealer_trial_same_card (fuel : nat) (hand : Hand) (rest : list Card) (c : Card)
  (h1 : Hand) (d1 : list Card) :
  dealer_trial fuel hand (rest ++ [c]) = Ok (h1, d1) ->
  d1 = rest ++ [c] /\ exists k : nat, h1 = hand ++ replicate k c.
Proof.
  revert hand. induction fuel as [|fuel IH]; intros hand; simpl; [discriminate|].
  destruct (hand_value hand <? 17).
  - rewrite draw_snoc, last_snoc. intros H.
    destruct (IH _ H) as (-> & k & ->).
    split; [reflexivity|]. exists (S k). rewrite <- app_assoc. reflexivity.
  - intros [= <- <-]. split; [reflexivity|]. exists 0%nat. simpl. rewrite app_nil_r. reflexivity.
Qed.

(** The trial does not look below the top card. *)
Lemma dealer_trial_top_only (fuel : nat) (hand : Hand) (rest : list Card) (c : Card) :
  dealer_trial fuel hand (rest ++ [c]) =
  match dealer_trial fuel hand [c] with
  | Ok (h1, _) => Ok (h1, rest ++ [c])
  | Raise e => Raise e
  | Timeout => Timeout
  end.
Proof.
  revert hand. induction fuel as [|fuel IH]; intros hand; simpl; [reflexivity|].
  destruct (hand_value hand <? 17); [|reflexivity].
  rewrite draw_snoc, last_snoc. change (draw [c]) with (Ok (c, @nil Card)).
  cbn iota. apply IH.
Qed.

(** Seventeen rounds of fuel are enough for a trial on a non-empty deck. *)
Lemma dealer_trial_returns (fuel : nat) (hand : Hand) (rest : list Card) (c : Card) :
  (18 <= fuel + length hand)%nat -> (length hand <= 17)%nat ->
  exists h1, dealer_trial fuel hand (rest ++ [c]) = Ok (h1, rest ++ [c]).
Proof.
  revert hand. induction fuel as [|fuel IH]; intros hand Hf Hl; [simpl in Hf; lia|].
  simpl. destruct (hand_value hand <? 17) eqn:E.
  - apply Z.ltb_lt in E. pose proof (hand_value_ge_length hand).
    rewrite draw_snoc, last_snoc. apply IH; rewrite length_app; simpl; lia.
  - eauto.
Qed.

Lemma dealer_trials_restore (fuel : nat) (up : Card) (n busts : nat) (d : list Card)
  (b1 : nat) (d1 : list Card) :
  dealer_trials fuel up n busts d = Ok (b1, d1) -> d1 = d.
Proof.
  revert busts d. induction n as [|n IH]; intros busts d; simpl.
  - intros [= _ <-]. reflexivity.
  - destruct (dealer_trial fuel [up] d) as [[h d2]| |] eqn:E; try discriminate.
    intros H. apply IH in H. subst d1.
    destruct (decide (d = [])) as [->|Hne].
    + destruct fuel; simpl in E; [discriminate|].
      destruct (hand_value [up] <? 17); [discriminate|]. congruence.
    + destruct (nonempty_snoc d Hne) as (r & c & ->).
      apply dealer_trial_same_card in E. tauto.
Qed.

Lemma dealer_trials_returns (fuel : nat) (up : Card) (n busts : nat) (rest : list Card)
  (c : Card) :
  (17 <= fuel)%nat ->
  exists b1, dealer_trials fuel up n busts (rest ++ [c]) = Ok (b1, rest ++ [c]).
Proof.
  intros Hf. revert busts. induction n as [|n IH]; intros busts; simpl; [eauto|].
  destruct (dealer_trial_returns fuel [up] rest c) as (h1 & ->); simpl; try lia.
  apply IH.
Qed.

Lemma dealer_trials_top_only (fuel : nat) (up : Card) (n busts : nat) (rest : list Card)
  (c : Card) :
  dealer_trials fuel up n busts (rest ++ [c]) =
  match dealer_trials fuel up n busts [c] with
  | Ok (b1, _) => Ok (b1, rest ++ [c])
  | Raise e => Raise e
  | Timeout => Timeout
  end.
Proof.
  revert busts. induction n as [|n IH]; intros busts; simpl; [reflexivity|].
  rewrite dealer_trial_top_only.
  destruct (dealer_trial fuel [up] [c]) as [[h d2]| |] eqn:E; try reflexivity.
  apply (dealer_trial_same_card fuel [up] [] c) in E. destruct E as [-> _].
  simpl. apply IH.
Qed.

Lemma dealer_trials_tally (fuel : nat) (up : Card) (n busts : nat) (d : list Card) (h : Hand) :
  dealer_trial fuel [up] d = Ok (h, d) ->
  dealer_trials fuel up n busts d =
  Ok (if 21 <? hand_value h then (busts + n)%nat else busts, d).
Proof.
  intros Hh. revert busts. induction n as [|n IH]; intros busts; simpl.
  - destruct (21 <? hand_value h); do 2 f_equal; lia.
  - rewrite Hh. destruct (21 <? hand_value h) eqn:E; rewrite IH;
      do 2 f_equal; lia.
Qed.

Lemma simulate_dealer_hand_top_only (fuel : nat) (up : Card) (n : nat)
  (rest : list Card) (c : Card) :
  simulate_dealer_hand fuel up n (rest ++ [c]) =
  match simulate_dealer_hand fuel up n [c] with
  | Ok (q, _) => Ok (q, rest ++ [c])
  | Raise e => Raise e
  | Timeout => Timeout
  end.
Proof.
  unfold simulate_dealer_hand. rewrite dealer_trials_top_only.
  destruct (dealer_trials fuel up n 0 [c]) as [[b d2]| |]; try reflexivity.
  destruct (n =? 0)%nat; reflexivity.
Qed.

Lemma simulate_dealer_hand_returns (fuel : nat) (up : Card) (n : nat)
  (rest : list Card) (c : Card) :
  (17 <= fuel)%nat -> n <> 0%nat ->
  exists q, simulate_dealer_hand fuel up n (rest ++ [c]) = Ok (q, rest ++ [c]).
Proof.
  intros Hf Hn. unfold simulate_dealer_hand.
  destruct (dealer_trials_returns fuel up n 0 rest c Hf) as (b1 & ->).
  apply Nat.eqb_neq in Hn. rewrite Hn. eauto.
Qed.

Lemma simulate_dealer_hand_restores (fuel : nat) (up : Card) (n : nat) (d : list Card)
  (q : Q) (d1 : list Card) :
  simulate_dealer_hand fuel up n d = Ok (q, d1) -> d1 = d.
Proof.
  unfold simulate_dealer_hand.
  destruct (dealer_trials fuel up n 0 d) as [[b d2]| |] eqn:E; try discriminate.
  destruct (n =? 0)%nat; [discriminate|]. intros [= _ <-].
  apply dealer_trials_restore in E. exact E.
Qed.

Lemma simulate_dealer_hand_nonempty (fuel : nat) (up : Card) (n : nat) (d : list Card) :
  (17 <= fuel)%nat -> d <> [] -> n <> 0%nat ->
  exists q, simulate_dealer_hand fuel up n d = Ok (q, d).
Proof.
  intros Hf Hd Hn. destruct (nonempty_snoc d Hd) as (r & c & ->).
  apply simulate_dealer_hand_returns; assumption.
Qed.

(** All trials of one call see the same top card, so they all end alike:
    the estimate is 0 or 1. *)
Lemma simulate_dealer_hand_all_or_nothing (fuel : nat) (up : Card) (n : nat)
  (d : list Card) (q : Q) (d1 : list Card) :
  simulate_dealer_hand fuel up n d = Ok (q, d1) ->
  q = (0 # Pos.of_nat n)%Q \/ q = (Z.of_nat n # Pos.of_nat n)%Q.
Proof.
  unfold simulate_dealer_hand.
  destruct (dealer_trials fuel up n 0 d) as [[b d2]| |] eqn:E; try discriminate.
  destruct (n =? 0)%nat eqn:En; [discriminate|]. intros [= <- <-].
  destruct n as [|n]; [discriminate|].
  assert (exists h, dealer_trial fuel [up] d = Ok (h, d)) as (h & Hh).
  { cbn [dealer_trials] in E.
    destruct (dealer_trial fuel [up] d) as [[h d3]| |] eqn:E1; try discriminate.
    exists h. f_equal. f_equal.
    destruct (decide (d = [])) as [->|Hne].
    - destruct fuel; simpl in E1; [discriminate|].
      destruct (hand_value [up] <? 17); [discriminate|]. congruence.
    - destruct (nonempty_snoc d Hne) as (r & c & ->).
      apply dealer_trial_same_card in E1. tauto. }
  rewrite (dealer_trials_tally fuel up (S n) 0 d h Hh) in E.
  destruct (21 <? hand_value h); injection E as <- _; [right|left]; reflexivity.
Qed.

(** C9. [simulate_dealer_hand] leaves the shoe as it found it: whenever the
    call returns, the deck list afterwards is the deck list before (hence the
    same multiset of cards); and on a non-empty shoe, with at least one
    simulation asked for, the call does return. *)
Theorem simulate_dealer_hand_leaves_shoe (fuel : nat) (up : Card) (n : nat)
  (d : list Card) :
  (forall q d1, simulate_dealer_hand fuel up n d = Ok (q, d1) -> d1 = d /\ Permutation d1 d)
  /\ ((17 <= fuel)%nat -> d <> [] -> n <> 0%nat ->
      exists q, simulate_dealer_hand fuel up n d = Ok (q, d)).
Proof.
  split.
  - intros q d1 H. apply simulate_dealer_hand_restores in H. subst. split; reflexivity.
  - apply simulate_dealer_hand_nonempty.
Qed.

Lemma simulate_dealer_hand_leaves_shoe_witness :
  (forall q d1, simulate_dealer_hand 17 c6H 3 [c5S; c10H] = Ok (q, d1) ->
                d1 = [c5S; c10H] /\ Permutation d1 [c5S; c10H])
  /\ exists q, simulate_dealer_hand 17 c6H 3 [c5S; c10H] = Ok (q, [c5S; c10H]).
Proof.
  destruct (simulate_dealer_hand_leaves_shoe 17 c6H 3 [c5S; c10H]) as [H1 H2].
  split; [exact H1|]. apply H2; [lia | discriminate | discriminate].
Defined.

(** A lone card is worth 11 at most, so a trial always draws. *)
Lemma hand_value_single (up : Card) : hand_value [up] <= 11.
Proof. destruct up as [[] s]; vm_compute; discriminate. Qed.

(** One turn of the trial's loop on a deck ending in [c]: below 17 the
    card [c] is popped, joins the hand and is appended back; at 17 or more
    the loop ends. *)
Lemma dealer_trial_step (fuel : nat) (hand : Hand) (rest : list Card) (c : Card) :
  (hand_value hand < 17 ->
   dealer_trial (S fuel) hand (rest ++ [c]) = dealer_trial fuel (hand ++ [c]) (rest ++ [c]))
  /\ (17 <= hand_value hand ->
      dealer_trial (S fuel) hand (rest ++ [c]) = Ok (hand, rest ++ [c])).
Proof.
  cbn [dealer_trial]. split; intros H.
  - apply Z.ltb_lt in H. rewrite H, draw_snoc, last_snoc. reflexivity.
  - apply Z.ltb_ge in H. rewrite H. reflexivity.
Qed.

(** The hand a trial ends with: copies of [c] were added until the first
    total of 17 or more, and no further. *)
Lemma dealer_trial_shape (fuel : nat) (hand : Hand) (rest : list Card) (c : Card)
  (h1 : Hand) (d1 : list Card) :
  dealer_trial fuel hand (rest ++ [c]) = Ok (h1, d1) ->
  d1 = rest ++ [c]
  /\ exists k : nat, h1 = hand ++ replicate k c
       /\ 17 <= hand_value h1
       /\ (forall j : nat, (j < k)%nat -> hand_value (hand ++ replicate j c) < 17).
Proof.
  revert hand. induction fuel as [|fuel IH]; intros hand; [discriminate|].
  destruct (dealer_trial_step fuel hand rest c) as [Hlt Hge].
  destruct (Z.lt_ge_cases (hand_value hand) 17) as [E|E].
  - rewrite (Hlt E). intros H. destruct (IH _ H) as (-> & k & -> & Hv & Hmin).
    split; [reflexivity|]. exists (S k). rewrite <- app_assoc in *.
    split; [reflexivity|]. split; [exact Hv|].
    intros [|j] Hj; [cbn [replicate]; rewrite app_nil_r; exact E|].
    specialize (Hmin j ltac:(lia)). rewrite <- app_assoc in Hmin. exact Hmin.
  - rewrite (Hge E). intros [= <- <-]. split; [reflexivity|].
    exists 0%nat. cbn [replicate]. rewrite app_nil_r.
    split; [reflexivity|]. split; [exact E|]. intros j Hj. lia.
Qed.

(** C10. In [simulate_dealer_hand] every turn of a trial's loop pops the
    last card [c] of the deck list, adds it to the hand and appends the same
    card straight back. A trial from the up-card therefore draws at least
    once and ends with the up-card followed by [k >= 1] copies of that one
    card, [k] being the least number of copies that brings the hand to 17 or
    more. The result of the whole call on a deck ending in [c] is the result
    on the one-card deck [[c]]: it depends on the up-card and the top card
    only, and since all trials end alike the estimate is 0 or 1. With enough
    fuel the trial and (for at least one simulation) the call return. *)
Theorem simulate_dealer_hand_one_card (fuel : nat) (up : Card) (n : nat)
  (rest : list Card) (c : Card) :
  draw (rest ++ [c]) = Ok (c, rest)
  /\ (forall hand, hand_value hand < 17 ->
        dealer_trial (S fuel) hand (rest ++ [c])
        = dealer_trial fuel (hand ++ [c]) (rest ++ [c]))
  /\ (forall h1 d1, dealer_trial fuel [up] (rest ++ [c]) = Ok (h1, d1) ->
        d1 = rest ++ [c]
        /\ exists k : nat, h1 = up :: replicate k c
             /\ (1 <= k)%nat
             /\ 17 <= hand_value h1
             /\ (forall j : nat, (j < k)%nat -> hand_value (up :: replicate j c) < 17))
  /\ ((17 <= fuel)%nat ->
      exists h1, dealer_trial fuel [up] (rest ++ [c]) = Ok (h1, rest ++ [c]))
  /\ simulate_dealer_hand fuel up n (rest ++ [c]) =
     match simulate_dealer_hand fuel up n [c] with
     | Ok (q, _) => Ok (q, rest ++ [c])
     | Raise e => Raise e
     | Timeout => Timeout
     end
  /\ (forall q d1, simulate_dealer_hand fuel up n (rest ++ [c]) = Ok (q, d1) ->
        q = (0 # Pos.of_nat n)%Q \/ q = (Z.of_nat n # Pos.of_nat n)%Q)
  /\ ((17 <= fuel)%nat -> n <> 0%nat ->
      exists q, forall rest', simulate_dealer_hand fuel up n (rest' ++ [c]) = Ok (q, rest' ++ [c])).
Proof.
  split; [apply draw_snoc|].
  split; [intros hand Hv; apply (proj1 (dealer_trial_step fuel hand rest c) Hv)|].
  split; [|split; [|split; [|split]]].
  - intros h1 d1 H. apply dealer_trial_shape in H.
    destruct H as (-> & k & -> & Hv & Hmin). split; [reflexivity|].
    exists k. split; [reflexivity|]. split; [|split; [exact Hv|exact Hmin]].
    destruct k as [|k]; [|lia].
    pose proof (hand_value_single up) as Hs. cbn [replicate app] in Hv. lia.
  - intros Hf. apply dealer_trial_returns; simpl; lia.
  - apply simulate_dealer_hand_top_only.
  - intros q d1 H. eapply simulate_dealer_hand_all_or_nothing. exact H.
  - intros Hf Hn.
    destruct (simulate_dealer_hand_returns fuel up n [] c Hf Hn) as (q & Hq).
    exists q. intros rest'. rewrite simulate_dealer_hand_top_only.
    simpl in Hq. rewrite Hq. reflexivity.
Qed.

Lemma simulate_dealer_hand_one_card_witness :
  dealer_trial 17 [c6H] ([c10H] ++ [c5S]) = Ok ([c6H; c5S; c5S; c5S], [c10H] ++ [c5S])
  /\ ([c10H] ++ [c5S] = [c10H] ++ [c5S]
      /\ exists k : nat, [c6H; c5S; c5S; c5S] = c6H :: replicate k c5S
           /\ (1 <= k)%nat
           /\ 17 <= hand_value [c6H; c5S; c5S; c5S]
           /\ (forall j : nat, (j < k)%nat -> hand_value (c6H :: replicate j c5S) < 17))
  /\ (exists h1, dealer_trial 17 [c6H] ([c10H] ++ [c5S]) = Ok (h1, [c10H] ++ [c5S]))
  /\ exists q, forall rest',
       simulate_dealer_hand 17 c6H 3 (rest' ++ [c5S]) = Ok (q, rest' ++ [c5S]).
Proof.
  destruct (simulate_dealer_hand_one_card 17 c6H 3 [c10H] c5S)
    as (_ & _ & H1 & H2 & _ & _ & H3).
  split; [reflexivity|].
  split; [apply H1; reflexivity|].
  split; [apply H2; lia|].
  apply H3; [lia | discriminate].
Defined.

(** ** Recommendation overlays *)

Lemma Qltb_lt (x y : Q) : Qltb x y = true <-> (x < y)%Q.
Proof.
  unfold Qltb. rewrite negb_true_iff, <- not_true_iff_false, Qle_bool_iff.
  split; [apply Qnot_le_lt | apply Qlt_not_le].
Qed.

Lemma Qltb_nlt (x y : Q) : Qltb x y = false <-> ~ (x < y)%Q.
Proof. rewrite <- Qltb_lt. destruct (Qltb x y); split; congruence. Qed.

(** C6 (counterexample). On a shoe of tens only, a hard 16 against a dealer
    ten busts on every card, so the stated overlay answers [Stand]; the
    simulator's [recommend_action] answers [Hit]. *)
Lemma sim_recommend_ignores_bust_probability :
  (6 # 10 < calculate_bust_probability (Sim.deck sim_ai_tens) hard16)%Q
  /\ simulate_dealer_hand 17 c10H 10000 (Sim.deck sim_ai_tens)
     = Ok (0 # 10000, Sim.deck sim_ai_tens)
  /\ AI.overlay (Sim.true_count (Sim.card_counter sim_ai_tens))
       (hand_value hard16) (card_value c10H)
       (calculate_bust_probability (Sim.deck sim_ai_tens) hard16) (0 # 10000)
       (Sim.basic_strategy hard16 c10H) = Stand
  /\ Sim.recommend_action sim_ai_tens hard16 c10H = Hit.
Proof.
  split; [|split; [|split]]; [| vm_compute; reflexivity | reflexivity | reflexivity].
  apply Qltb_lt. vm_compute. reflexivity.
Qed.

(** With a true count above 2 the simulator stands on a 12 that basic
    strategy would hit. *)
Lemma sim_recommend_stands_on_12 :
  Sim.basic_strategy [c10D; c2S] c2H = Hit
  /\ Sim.recommend_action (Sim.mkAI tens_shoe hot_counter) [c10D; c2S] c2H = Stand.
Proof. split; reflexivity. Qed.

Ltac reflect_bools :=
  repeat match goal with
  | H : Qltb _ _ = true |- _ => apply Qltb_lt in H
  | H : Qltb _ _ = false |- _ => apply Qltb_nlt in H
  | H : (_ =? _) = true |- _ => apply Z.eqb_eq in H
  | H : (_ =? _) = false |- _ => apply Z.eqb_neq in H
  | H : (_ <=? _) = true |- _ => apply Z.leb_le in H
  | H : (_ <=? _) = false |- _ => apply Z.leb_gt in H
  | H : (_ <? _) = true |- _ => apply Z.ltb_lt in H
  | H : (_ <? _) = false |- _ => apply Z.ltb_ge in H
  end.

Lemma AI_overlay_cases (tc : Q) (v dv : Z) (bp dbp : Q) (basic : Action) :
  let first := (2 < tc)%Q /\ v = 16 /\ dv = 10 in
  let second := (6 # 10 < bp)%Q in
  let third := (5 # 10 < dbp)%Q /\ 12 <= v in
  (first -> AI.overlay tc v dv bp dbp basic = Stand)
  /\ (~ first -> second -> AI.overlay tc v dv bp dbp basic = Stand)
  /\ (~ first -> ~ second -> third -> AI.overlay tc v dv bp dbp basic = Stand)
  /\ (~ first -> ~ second -> ~ third -> AI.overlay tc v dv bp dbp basic = basic).
Proof.
  intros first second third. subst first second third. unfold AI.overlay.
  destruct (Qltb 2 tc) eqn:E1; destruct (v =? 16) eqn:E2; destruct (dv =? 10) eqn:E3;
  destruct (Qltb (6 # 10) bp) eqn:E4; destruct (Qltb (5 # 10) dbp) eqn:E5;
  destruct (12 <=? v) eqn:E6; reflect_bools; cbn [andb];
  repeat split; intros; try reflexivity; exfalso; intuition lia.
Qed.

Lemma Sim_recommend_cases (self : Sim.BlackjackAI) (hand : Hand) (up : Card) :
  let tc := Sim.true_count (Sim.card_counter self) in
  let basic := Sim.basic_strategy hand up in
  let act := Sim.recommend_action self hand up in
  (~ (2 < tc)%Q -> act = basic)
  /\ ((2 < tc)%Q -> hand_value hand = 16 -> card_value up = 10 -> act = Stand)
  /\ ((2 < tc)%Q -> ~ (hand_value hand = 16 /\ card_value up = 10) ->
      basic = Hit -> hand_value hand = 12 -> act = Stand)
  /\ ((2 < tc)%Q -> ~ (hand_value hand = 16 /\ card_value up = 10) ->
      ~ (basic = Hit /\ hand_value hand = 12) -> act = basic).
Proof.
  intros tc basic act. subst tc basic act. unfold Sim.recommend_action.
  destruct (Qltb 2 _) eqn:E1; destruct (hand_value hand =? 16) eqn:E2;
  destruct (card_value up =? 10) eqn:E3; destruct (hand_value hand =? 12) eqn:E4;
  destruct (decide (Sim.basic_strategy hand up = Hit)) as [E5|E5];
  rewrite ?(bool_decide_eq_true_2 _ E5), ?(bool_decide_eq_false_2 _ E5);
  reflect_bools; cbn [andb];
  repeat split; intros; try reflexivity; try congruence; exfalso; intuition lia.
Qed.

Lemma recommend_action_total (fuel : nat) (self : AI.BlackjackAI) (hand : Hand) (up : Card) :
  (17 <= fuel)%nat -> AI.deck self <> [] ->
  exists act, AI.recommend_action fuel self hand up = Ok (act, self).
Proof.
  intros Hf Hd.
  destruct (simulate_dealer_hand_nonempty fuel up 10000 (AI.deck self) Hf Hd)
    as (dbp & Hdbp); [discriminate|].
  unfold AI.recommend_action. rewrite Hdbp. destruct self; simpl. eauto.
Qed.

(** C6 (amended). The overlay "count deviation, then bust probability above
    0.6, then dealer-bust estimate above 0.5 with a total of 12 or more, then
    basic strategy", first match winning, is what [recommend_action] of
    [advanced-blackjack-ai.py] does whenever its Monte Carlo call returns (a
    non-empty shoe). [recommend_action] of [advanced-blackjack-simulation.py]
    consults neither probability: with a true count above 2 it stands on 16
    against a ten, else stands on 12 where basic strategy says Hit, and in
    every other case it returns the basic-strategy action. *)
Theorem recommend_action_overlays (fuel : nat) (self : AI.BlackjackAI)
  (sim : Sim.BlackjackAI) (hand : Hand) (up : Card) :
  ((17 <= fuel)%nat -> AI.deck self <> [] ->
   exists dbp act,
     simulate_dealer_hand fuel up 10000 (AI.deck self) = Ok (dbp, AI.deck self)
     /\ AI.recommend_action fuel self hand up = Ok (act, self)
     /\ let bp := calculate_bust_probability (AI.deck self) hand in
        let first := (2 < AI.true_count self)%Q /\ hand_value hand = 16 /\ card_value up = 10 in
        let second := (6 # 10 < bp)%Q in
        let third := (5 # 10 < dbp)%Q /\ 12 <= hand_value hand in
        (first -> act = Stand)
        /\ (~ first -> second -> act = Stand)
        /\ (~ first -> ~ second -> third -> act = Stand)
        /\ (~ first -> ~ second -> ~ third -> act = AI.basic_strategy hand up))
  /\ (let tc := Sim.true_count (Sim.card_counter sim) in
      let basic := Sim.basic_strategy hand up in
      let act := Sim.recommend_action sim hand up in
      (~ (2 < tc)%Q -> act = basic)
      /\ ((2 < tc)%Q -> hand_value hand = 16 -> card_value up = 10 -> act = Stand)
      /\ ((2 < tc)%Q -> ~ (hand_value hand = 16 /\ card_value up = 10) ->
          basic = Hit -> hand_value hand = 12 -> act = Stand)
      /\ ((2 < tc)%Q -> ~ (hand_value hand = 16 /\ card_value up = 10) ->
          ~ (basic = Hit /\ hand_value hand = 12) -> act = basic)).
Proof.
  split; [|apply Sim_recommend_cases].
  intros Hf Hd.
  destruct (simulate_dealer_hand_nonempty fuel up 10000 (AI.deck self) Hf Hd)
    as (dbp & Hdbp); [discriminate|].
  exists dbp. eexists. split; [exact Hdbp|]. split.
  - unfold AI.recommend_action. rewrite Hdbp. destruct self; reflexivity.
  - apply AI_overlay_cases.
Qed.

Lemma recommend_action_overlays_witness :
  exists dbp act,
    simulate_dealer_hand 17 c10H 10000 (AI.deck ai_tens) = Ok (dbp, AI.deck ai_tens)
    /\ AI.recommend_action 17 ai_tens hard16 c10H = Ok (act, ai_tens)
    /\ act = Stand.
Proof.
  destruct (recommend_action_overlays 17 ai_tens sim_ai_tens hard16 c10H) as [H _].
  destruct H as (dbp & act & H1 & H2 & _ & H4 & _); [lia | discriminate |].
  exists dbp, act. split; [exact H1|]. split; [exact H2|].
  apply H4.
  - intros (Htc & _). vm_compute in Htc. discriminate.
  - apply Qltb_lt. vm_compute. reflexivity.
Defined.

(** ** Bust probability *)

(** C7 (evaluation at the failing inputs). On a soft 17 with a single five
    left in the shoe the code reports a bust probability of 1, although the
    five makes the hand a hard 12; on a hard 21 with a single Ace left it
    reports 0, although the Ace makes 22. *)
Theorem calculate_bust_probability_soft_hand :
  hand_value soft17 = 17
  /\ hand_value (soft17 ++ [c5S]) = 12
  /\ calculate_bust_probability [c5S] soft17 = (1 # 1)%Q
  /\ exact_bust_fraction [c5S] soft17 = (0 # 1)%Q
  /\ hand_value hard21 = 21
  /\ hand_value (hard21 ++ [AS]) = 22
  /\ calculate_bust_probability [AS] hard21 = (0 # 1)%Q
  /\ exact_bust_fraction [AS] hard21 = (1 # 1)%Q.
Proof. repeat split; vm_compute; reflexivity. Qed.

(** ** Decision policy *)

(** C8 (counterexample). A novice (skill level 0) holding three cards is
    handed [Double], and holding a non-pair is handed [Split]: the random
    branch draws from all four actions whatever the hand. *)
Lemma make_decision_emits_illegal_actions :
  length three_fives <> 2%nat
  /\ fst (Sim.make_decision novice sim_ai_tens three_fives c10H (script (1 # 2) 2)) = Some Double
  /\ can_split hard16 = false
  /\ fst (Sim.make_decision novice sim_ai_tens hard16 c10H (script (1 # 2) 3)) = Some Split.
Proof. repeat split; [discriminate | vm_compute; reflexivity ..]. Qed.

Lemma skill_or_random_cases (p : Sim.PlayerSimulator) (optimal : Action) (r : Sim.Rng) :
  ((Sim.uniform r (Sim.pos r) < Sim.skill_level p)%Q ->
   Sim.skill_or_random p optimal r = (Some optimal, Sim.advance r))
  /\ (~ (Sim.uniform r (Sim.pos r) < Sim.skill_level p)%Q ->
      Sim.skill_or_random p optimal r =
      (Sim.ALL_ACTIONS !! (Sim.pick r (S (Sim.pos r)) `mod` 4)%nat,
       Sim.advance (Sim.advance r))).
Proof.
  unfold Sim.skill_or_random, Sim.random_random.
  destruct (Qltb _ _) eqn:E; reflect_bools; split; intros; try reflexivity; tauto.
Qed.

Lemma every_action_can_be_picked (a : Action) :
  exists k : nat, Sim.ALL_ACTIONS !! (k `mod` 4)%nat = Some a.
Proof.
  destruct a; [exists 0%nat | exists 1%nat | exists 2%nat | exists 3%nat]; reflexivity.
Qed.

(** C8 (amended). Below the skill level the simulator's [make_decision]
    returns the classifier's prediction (when a classifier is configured and
    a second draw is below 0.5) or else the recommendation. When a draw is at
    or above the skill level the action is what [random.choice] takes from
    the fixed list [Hit, Stand, Double, Split], whatever the hand: every one
    of the four can come out, legal or not. With a classifier, a first draw
    at or above the skill level is followed by a second draw that again
    decides between the recommendation and the random action. The player of
    [blackjack-player-simulation.py] chooses between [Hit] and [Stand] only. *)
Theorem make_decision_blend (p : Sim.PlayerSimulator) (x : Sim.BlackjackAI)
  (fuel : nat) (ps : PlayerSim.PlayerSimulator)
  (hand : Hand) (up : Card) (r : Sim.Rng) :
  let optimal := Sim.recommend_action x hand up in
  let u0 := Sim.uniform r (Sim.pos r) in
  let u1 := Sim.uniform r (S (Sim.pos r)) in
  let out := fst (Sim.make_decision p x hand up r) in
  (Sim.ml_model p = None ->
     ((u0 < Sim.skill_level p)%Q -> out = Some optimal)
     /\ (~ (u0 < Sim.skill_level p)%Q ->
         out = Sim.ALL_ACTIONS !! (Sim.pick r (S (Sim.pos r)) `mod` 4)%nat))
  /\ (forall model, Sim.ml_model p = Some model ->
     ((u0 < Sim.skill_level p)%Q -> (u1 < 5 # 10)%Q ->
        out = Some (model (hand_value hand) (card_value up)
                      (Sim.true_count (Sim.card_counter x))))
     /\ ((u0 < Sim.skill_level p)%Q -> ~ (u1 < 5 # 10)%Q -> out = Some optimal)
     /\ (~ (u0 < Sim.skill_level p)%Q -> (u1 < Sim.skill_level p)%Q -> out = Some optimal)
     /\ (~ (u0 < Sim.skill_level p)%Q -> ~ (u1 < Sim.skill_level p)%Q ->
         out = Sim.ALL_ACTIONS !! (Sim.pick r (S (S (Sim.pos r))) `mod` 4)%nat))
  /\ (forall a : Action, exists k : nat, Sim.ALL_ACTIONS !! (k `mod` 4)%nat = Some a)
  /\ ((17 <= fuel)%nat -> AI.deck (PlayerSim.ai ps) <> [] ->
      exists act,
        AI.recommend_action fuel (PlayerSim.ai ps) hand up = Ok (act, PlayerSim.ai ps)
        /\ ((u0 < PlayerSim.skill_level ps)%Q ->
            PlayerSim.make_decision fuel ps hand up r = Ok (Some act, ps, Sim.advance r))
        /\ (~ (u0 < PlayerSim.skill_level ps)%Q ->
            PlayerSim.make_decision fuel ps hand up r =
            Ok ([Hit; Stand] !! (Sim.pick r (S (Sim.pos r)) `mod` 2)%nat, ps,
                Sim.advance (Sim.advance r)))).
Proof.
  intros optimal u0 u1 out. subst optimal u0 u1 out.
  split; [|split; [|split]].
  - intros Hm. unfold Sim.make_decision. rewrite Hm.
    destruct (skill_or_random_cases p (Sim.recommend_action x hand up) r) as [H1 H2].
    split; intros H; [rewrite (H1 H)|rewrite (H2 H)]; reflexivity.
  - intros model Hm. unfold Sim.make_decision. rewrite Hm.
    unfold Sim.random_random.
    destruct (skill_or_random_cases p (Sim.recommend_action x hand up) (Sim.advance r))
      as [H1 H2]. cbn [Sim.advance Sim.uniform Sim.pos Sim.pick] in H1, H2.
    destruct (Qltb (Sim.uniform r (Sim.pos r)) (Sim.skill_level p)) eqn:E0;
    cbn [Sim.advance Sim.uniform Sim.pos Sim.pick];
    destruct (Qltb (Sim.uniform r (S (Sim.pos r))) (5 # 10)) eqn:E1;
    reflect_bools; repeat split; intros; try reflexivity; try tauto;
    first [rewrite H1 by assumption | rewrite H2 by assumption]; reflexivity.
  - apply every_action_can_be_picked.
  - intros Hf Hd.
    destruct (recommend_action_total fuel (PlayerSim.ai ps) hand up Hf Hd) as (act & Hact).
    exists act. split; [exact Hact|].
    unfold PlayerSim.make_decision. rewrite Hact. unfold Sim.random_random.
    destruct (Qltb _ _) eqn:E; reflect_bools; split; intros;
      try tauto; destruct ps; reflexivity.
Qed.

Lemma make_decision_blend_witness :
  fst (Sim.make_decision novice sim_ai_tens three_fives c10H (script (1 # 2) 2))
  = Sim.ALL_ACTIONS !! (2 `mod` 4)%nat.
Proof.
  destruct (make_decision_blend novice sim_ai_tens 17
              (PlayerSim.mkPlayer ai_tens 0 1000 10) three_fives c10H (script (1 # 2) 2))
    as (H & _).
  apply H; [reflexivity|]. intros Hlt. vm_compute in Hlt. discriminate.
Defined.

(** ** The simulation monad *)

Lemma bind_Ok {A B : Type} (m : Sim.M A) (f : A -> Sim.M B) (w : Sim.World)
  (r : B * Sim.World) :
  (m ≫= f) w = Ok r <-> exists a w1, m w = Ok (a, w1) /\ f a w1 = Ok r.
Proof.
  unfold mbind, Sim.M_bind. split.
  - destruct (m w) as [[a w1]| |]; try discriminate. eauto.
  - intros (a & w1 & -> & H). exact H.
Qed.

Lemma ret_Ok {A : Type} (a : A) (w : Sim.World) (r : A * Sim.World) :
  (mret a : Sim.M A) w = Ok r <-> r = (a, w).
Proof. unfold mret, Sim.M_ret. split; [intros [= <-]; reflexivity | intros ->; reflexivity]. Qed.

Ltac inv_m :=
  repeat match goal with
  | H : (_ ≫= _) _ = Ok _ |- _ =>
      apply bind_Ok in H; destruct H as (? & ? & ? & H)
  | H : mret _ _ = Ok _ |- _ => apply ret_Ok in H; inversion H; subst; clear H
  | H : Sim.raise _ _ = Ok _ |- _ => discriminate H
  | H : Sim.timeout _ = Ok _ |- _ => discriminate H
  | H : Ok _ = Ok _ |- _ => inversion H; subst; clear H
  end.

(** ** Reshuffling *)

Lemma length_one_deck : length one_deck = 52%nat.
Proof. reflexivity. Qed.

Lemma length_fresh_cards (n : nat) : length (fresh_cards n) = (n * 52)%nat.
Proof.
  unfold fresh_cards. induction n as [|n IH]; [reflexivity|].
  cbn [replicate concat]. rewrite length_app, IH, length_one_deck. lia.
Qed.

(** C4 (counterexample). A table set up with two decks (104 cards) that is
    down to 51 cards is reshuffled to 312 cards, not to 104. *)
Lemma reshuffle_ignores_num_decks :
  length (Sim.deck (fst (Sim.new_BlackjackAI 2 Sim.HiLo (script (1 # 2) 0)))) = (2 * 52)%nat
  /\ length (Sim.deck two_deck_ai) = 51%nat
  /\ (Sim.deck <$> Sim.ais two_deck_world) = [Sim.deck two_deck_ai]
  /\ match Sim.reshuffle_check two_deck_world with
     | Ok (_, w1) => (length <$> (Sim.deck <$> Sim.ais w1)) = [312%nat]
     | _ => False
     end
  /\ 312%nat <> (2 * 52)%nat.
Proof. repeat split; try (vm_compute; reflexivity). discriminate. Qed.

(** C4 (amended). When the shoe of [players[0]] holds fewer than 52 cards
    at the start of a round, it is replaced by a freshly shuffled shoe of
    six decks, 312 cards, whatever number of decks the table was set up
    with (so [numDecks * 52] for six decks); the counter's running count,
    true count and system are left as they were and its [decks_remaining]
    is set back to 6. Nothing else changes; with 52 cards or more nothing
    changes at all. *)
Theorem reshuffle_check_six_decks (w : Sim.World) (p0 : Sim.PlayerSimulator)
  (x : Sim.BlackjackAI) :
  Sim.players w !! 0%nat = Some p0 ->
  Sim.ais w !! Sim.ai p0 = Some x ->
  (forall k l, Permutation (Sim.shuffled (Sim.rng w) k l) l) ->
  ((length (Sim.deck x) < 52)%nat ->
   exists w1 x1,
     Sim.reshuffle_check w = Ok (tt, w1)
     /\ Sim.ais w1 !! Sim.ai p0 = Some x1
     /\ length (Sim.deck x1) = (6 * 52)%nat
     /\ Permutation (Sim.deck x1) (fresh_cards 6)
     /\ Sim.count (Sim.card_counter x1) = Sim.count (Sim.card_counter x)
     /\ Sim.true_count (Sim.card_counter x1) = Sim.true_count (Sim.card_counter x)
     /\ Sim.system (Sim.card_counter x1) = Sim.system (Sim.card_counter x)
     /\ Sim.decks_remaining (Sim.card_counter x1) = 6%Q
     /\ (forall a, a <> Sim.ai p0 -> Sim.ais w1 !! a = Sim.ais w !! a)
     /\ Sim.players w1 = Sim.players w
     /\ Sim.trace w1 = Sim.trace w
     /\ Sim.results w1 = Sim.results w
     /\ (forall fuel european,
           Sim.play_round fuel european w =
           (dealer_hand ← Sim.deal_dealer european;
            n ← Sim.num_players;
            Sim.play_seats fuel european (seq 0 n) dealer_hand;;
            Sim.record_results) w1))
  /\ ((52 <= length (Sim.deck x))%nat -> Sim.reshuffle_check w = Ok (tt, w)).
Proof.
  intros Hp Hx Hperm.
  assert (Hlt : (Sim.ai p0 < length (Sim.ais w))%nat) by (eapply lookup_lt_Some; eauto).
  split; intros Hlen.
  - assert (exists w1, Sim.reshuffle_check w = Ok (tt, w1)
              /\ w1 = Sim.mkWorld
                   (<[Sim.ai p0 :=
                        Sim.mkAI (Sim.shuffled (Sim.rng w) (Sim.pos (Sim.rng w)) (fresh_cards 6))
                          (Sim.mkCounter (Sim.system (Sim.card_counter x))
                             (Sim.count (Sim.card_counter x))
                             (Sim.true_count (Sim.card_counter x)) 6%Q)]> (Sim.ais w))
                   (Sim.players w) (Sim.advance (Sim.rng w)) (Sim.results w) (Sim.trace w))
      as (w1 & Hre & Hw1).
    { unfold Sim.reshuffle_check, mbind, Sim.M_bind, Sim.get_player, Sim.get_ai.
      rewrite Hp, Hx. apply Nat.ltb_lt in Hlen. rewrite Hlen.
      unfold Sim.new_Deck_m, Sim.new_Deck, Sim.set_ai. cbn -[fresh_cards].
      rewrite list_lookup_insert_eq by assumption. cbn -[fresh_cards].
      rewrite list_insert_insert_eq. eexists. split; reflexivity. }
    exists w1. eexists. split; [exact Hre|]. subst w1. cbn -[fresh_cards].
    split; [apply list_lookup_insert_eq; assumption|]. cbn -[fresh_cards].
    pose proof (Hperm (Sim.pos (Sim.rng w)) (fresh_cards 6)) as HP.
    split; [rewrite (Permutation_length HP); apply length_fresh_cards|].
    split; [exact HP|].
    repeat (split; [reflexivity|]).
    split; [intros a Ha; apply list_lookup_insert_ne; congruence|].
    repeat (split; [reflexivity|]).
    intros fuel european. unfold Sim.play_round.
    unfold mbind at 1. unfold Sim.M_bind at 1. rewrite Hre. reflexivity.
  - unfold Sim.reshuffle_check, mbind, Sim.M_bind, Sim.get_player, Sim.get_ai.
    rewrite Hp, Hx. apply Nat.ltb_ge in Hlen. rewrite Hlen. reflexivity.
Qed.

Lemma reshuffle_check_six_decks_witness :
  exists w1 x1,
    Sim.reshuffle_check two_deck_world = Ok (tt, w1)
    /\ Sim.ais w1 !! 0%nat = Some x1
    /\ length (Sim.deck x1) = (6 * 52)%nat
    /\ Sim.count (Sim.card_counter x1) = 5
    /\ Sim.true_count (Sim.card_counter x1) = 1%Q.
Proof.
  destruct (reshuffle_check_six_decks two_deck_world novice two_deck_ai) as [H _];
    [reflexivity | reflexivity | intros k l; symmetry; apply Permutation_rev |].
  destruct H as (w1 & x1 & H1 & H2 & H3 & _ & H5 & H6 & _); [vm_compute; lia|].
  exists w1, x1. repeat split; assumption.
Defined.

(** ** The player turn loop *)

(** Asking the policy moves the oracle's cursor and nothing else. *)
Lemma decide_m_frame (i : nat) (hand dealer : Hand) (w w1 : Sim.World) (d : Action) :
  Sim.decide_m i hand dealer w = Ok (d, w1) ->
  Sim.ais w1 = Sim.ais w /\ Sim.players w1 = Sim.players w
  /\ Sim.trace w1 = Sim.trace w /\ Sim.results w1 = Sim.results w.
Proof.
  unfold Sim.decide_m.
  destruct (Sim.players w !! i) as [p|]; [|discriminate].
  destruct (dealer !! 0%nat) as [up|]; [|discriminate].
  destruct (Sim.ais w !! Sim.ai p) as [x|]; [|discriminate].
  destruct (Sim.make_decision p x hand up (Sim.rng w)) as [[act|] r1]; [|discriminate].
  intros [= _ <-]. repeat split.
Qed.

(** C5 (counterexample). A novice on three fives is handed [Double] and
    then [Stand]: the loop ends with the three cards it started with, no
    card drawn, after two queries of the policy. The illegal [Double] was
    not turned into a [Hit]; the policy was asked again. Likewise for
    [Split] on a hand that is not a pair. *)
Lemma illegal_double_is_not_a_hit :
  Sim.decide_m 0 three_fives [c10H] (novice_world double_then_stand)
  = Ok (Double, novice_world (Sim.advance (Sim.advance double_then_stand)))
  /\ Sim.turn_loop 5 0 0 [c10H] [three_fives] (novice_world double_then_stand)
     = Ok ([three_fives],
           novice_world (Sim.advance (Sim.advance (Sim.advance (Sim.advance double_then_stand)))))
  /\ Sim.decide_m 0 hard16 [c10H] (novice_world split_then_stand)
     = Ok (Split, novice_world (Sim.advance (Sim.advance split_then_stand)))
  /\ Sim.turn_loop 5 0 0 [c10H] [hard16] (novice_world split_then_stand)
     = Ok ([hard16],
           novice_world (Sim.advance (Sim.advance (Sim.advance (Sim.advance split_then_stand))))).
Proof. repeat split; vm_compute; reflexivity. Qed.

Lemma turn_loop_retry (fuel i k : nat) (dealer : Hand) (hands : list Hand) (hand : Hand)
  (w w1 : Sim.World) (d : Action) :
  hands !! k = Some hand ->
  Sim.decide_m i hand dealer w = Ok (d, w1) ->
  (d = Double /\ length hand <> 2%nat)
  \/ (d = Split /\ (can_split hand = false \/ (4 <= length hands)%nat)) ->
  Sim.turn_loop (S fuel) i k dealer hands w = Sim.turn_loop fuel i k dealer hands w1.
Proof.
  intros Hk Hd Hill. cbn [Sim.turn_loop]. rewrite Hk.
  unfold mbind at 1. unfold Sim.M_bind at 1. rewrite Hd.
  destruct Hill as [[-> Hlen]|[-> Hsplit]].
  - apply Nat.eqb_neq in Hlen. rewrite Hlen. reflexivity.
  - replace (can_split hand && (length hands <? 4)%nat) with false; [reflexivity|].
    symmetry. apply andb_false_iff.
    destruct Hsplit as [?|Hcap]; [left; assumption|right; apply Nat.ltb_ge; exact Hcap].
Qed.

(** A player without classifier whose draws all fall below the skill level
    follows the recommendation, and the recommendation on a pair of eights
    is [Split] unless the dealer shows a ten-valued card. *)
Lemma always_below_splits_eights (i : nat) (dealer : Hand) (up : Card) (s1 s2 : Suit)
  (w : Sim.World) (p : Sim.PlayerSimulator) (x : Sim.BlackjackAI) :
  Sim.players w !! i = Some p -> Sim.ml_model p = None ->
  Sim.ais w !! Sim.ai p = Some x ->
  dealer !! 0%nat = Some up -> card_value up <> 10 ->
  (Sim.uniform (Sim.rng w) (Sim.pos (Sim.rng w)) < Sim.skill_level p)%Q ->
  Sim.decide_m i [mkCard R8 s1; mkCard R8 s2] dealer w
  = Ok (Split, Sim.mkWorld (Sim.ais w) (Sim.players w) (Sim.advance (Sim.rng w))
                 (Sim.results w) (Sim.trace w)).
Proof.
  intros Hp Hm Hx Hup Hten Hu. unfold Sim.decide_m. rewrite Hp, Hup, Hx.
  unfold Sim.make_decision. rewrite Hm.
  unfold Sim.skill_or_random, Sim.random_random.
  apply Qltb_lt in Hu. rewrite Hu.
  unfold Sim.recommend_action. rewrite basic_strategy_on_pairs.
  change (hand_value [mkCard R8 s1; mkCard R8 s2]) with 16.
  apply Z.eqb_neq in Hten. rewrite Hten.
  cbn. destruct (Qltb 2 _); reflexivity.
Qed.

(** At the four-hand cap that request is refused and asked for again, for
    ever: no amount of fuel ends the loop. *)
Lemma capped_split_never_ends (fuel i k : nat) (dealer : Hand) (up : Card) (s1 s2 : Suit)
  (hands : list Hand) (w : Sim.World) (p : Sim.PlayerSimulator) (x : Sim.BlackjackAI) :
  Sim.players w !! i = Some p -> Sim.ml_model p = None ->
  Sim.ais w !! Sim.ai p = Some x ->
  dealer !! 0%nat = Some up -> card_value up <> 10 ->
  (forall n, (Sim.uniform (Sim.rng w) n < Sim.skill_level p)%Q) ->
  hands !! k = Some [mkCard R8 s1; mkCard R8 s2] -> (4 <= length hands)%nat ->
  Sim.turn_loop fuel i k dealer hands w = Timeout.
Proof.
  intros Hp Hm Hx Hup Hten Hu Hk Hcap. revert w Hp Hx Hu.
  induction fuel as [|fuel IH]; intros w Hp Hx Hu; [reflexivity|].
  pose proof (always_below_splits_eights i dealer up s1 s2 w p x Hp Hm Hx Hup Hten
                (Hu _)) as Hd.
  rewrite (turn_loop_retry fuel i k dealer hands _ _ _ Split Hk Hd)
    by (right; split; [reflexivity|]; right; exact Hcap).
  apply IH; cbn; assumption.
Qed.

(** Three legal splits of eights lead there. *)
Lemma three_splits_reach_the_cap (fuel : nat) :
  Sim.turn_loop (3 + fuel) 0 0 [c5S; c10H] [pair_of_eights] rigged_world
  = Sim.turn_loop fuel 0 0 [c5S; c10H] four_hands after_three_splits.
Proof. vm_compute. reflexivity. Qed.

Lemma split_eights_never_end (fuel : nat) :
  Sim.turn_loop fuel 0 0 [c5S; c10H] [pair_of_eights] rigged_world = Timeout.
Proof.
  destruct fuel as [|[|[|fuel]]]; try (vm_compute; reflexivity).
  change (S (S (S fuel))) with (3 + fuel)%nat.
  rewrite (three_splits_reach_the_cap fuel).
  apply (capped_split_never_ends fuel 0 0 [c5S; c10H] c5S Spades Spades four_hands
           after_three_splits expert (Sim.mkAI (fresh_cards 1) counter0)).
  - reflexivity.
  - reflexivity.
  - reflexivity.
  - reflexivity.
  - discriminate.
  - intros n. reflexivity.
  - reflexivity.
  - simpl. lia.
Qed.

(** C5 (amended). In the player turn loop a [Double] on a hand of other
    than two cards, or a [Split] on a non-pair or at the four-hand cap,
    changes nothing (no card is drawn, no bet is changed, the hands stay as
    they are) and the loop goes round again to ask the policy for another
    decision. It ends only once the policy answers something else: an
    expert holding a pair of eights at the cap is answered [Split] every
    time, and that loop never ends. *)
Theorem illegal_action_is_retried (fuel i k : nat) (dealer : Hand) (hands : list Hand)
  (hand : Hand) (w w1 : Sim.World) (d : Action) :
  hands !! k = Some hand ->
  Sim.decide_m i hand dealer w = Ok (d, w1) ->
  (d = Double /\ length hand <> 2%nat)
  \/ (d = Split /\ (can_split hand = false \/ (4 <= length hands)%nat)) ->
  Sim.turn_loop (S fuel) i k dealer hands w = Sim.turn_loop fuel i k dealer hands w1
  /\ Sim.ais w1 = Sim.ais w /\ Sim.players w1 = Sim.players w
  /\ Sim.trace w1 = Sim.trace w /\ Sim.results w1 = Sim.results w
  /\ (forall fuel', Sim.turn_loop fuel' 0 0 [c5S; c10H] [pair_of_eights] rigged_world = Timeout).
Proof.
  intros Hk Hd Hill.
  split; [eapply turn_loop_retry; eassumption|].
  destruct (decide_m_frame _ _ _ _ _ _ Hd) as (H1 & H2 & H3 & H4).
  repeat (split; [assumption|]).
  apply split_eights_never_end.
Qed.

Lemma illegal_action_is_retried_witness :
  Sim.turn_loop 5 0 0 [c10H] [three_fives] (novice_world double_then_stand)
  = Sim.turn_loop 4 0 0 [c10H] [three_fives]
      (novice_world (Sim.advance (Sim.advance double_then_stand))).
Proof.
  apply (illegal_action_is_retried 4 0 0 [c10H] [three_fives] three_fives
           (novice_world double_then_stand)
           (novice_world (Sim.advance (Sim.advance double_then_stand))) Double).
  - reflexivity.
  - vm_compute. reflexivity.
  - left. split; [reflexivity|]. simpl. lia.
Defined.

(** ** Counter updates in a round *)

(** C3 (counterexample). At a table of two seats the dealer's king of clubs
    is drawn once and passed to [CardCounter.update] twice, once at the end
    of each seat's turn, and the first seat's updates come before the second
    seat's settlement. *)
Lemma dealer_cards_counted_once_per_seat :
  match Sim.play_round 30 false two_seat_world with
  | Ok (_, w1) =>
      length (filter (fun c => c = KC) (drawn (Sim.trace w1))) = 1%nat
      /\ length (filter (fun c => c = KC) (updated (Sim.trace w1))) = 2%nat
      /\ length (drawn (Sim.trace w1)) = 6%nat
      /\ length (updated (Sim.trace w1)) = 8%nat
      /\ settled_first (Sim.trace w1) = false
  | _ => False
  end.
Proof. vm_compute. repeat split. Qed.

Lemma get_player_Ok (i : nat) (w w1 : Sim.World) (p : Sim.PlayerSimulator) :
  Sim.get_player i w = Ok (p, w1) -> w1 = w /\ Sim.players w !! i = Some p.
Proof.
  unfold Sim.get_player. destruct (Sim.players w !! i); [|discriminate].
  intros [= <- <-]. split; reflexivity.
Qed.

Lemma get_ai_Ok (a : nat) (w w1 : Sim.World) (x : Sim.BlackjackAI) :
  Sim.get_ai a w = Ok (x, w1) -> w1 = w /\ Sim.ais w !! a = Some x.
Proof.
  unfold Sim.get_ai. destruct (Sim.ais w !! a); [|discriminate].
  intros [= <- <-]. split; reflexivity.
Qed.

Lemma set_player_trace (i : nat) (p : Sim.PlayerSimulator) (w w1 : Sim.World) (u : unit) :
  Sim.set_player i p w = Ok (u, w1) -> Sim.trace w1 = Sim.trace w.
Proof. intros [= _ <-]. reflexivity. Qed.

Lemma set_ai_trace (a : nat) (x : Sim.BlackjackAI) (w w1 : Sim.World) (u : unit) :
  Sim.set_ai a x w = Ok (u, w1) -> Sim.trace w1 = Sim.trace w.
Proof. intros [= _ <-]. reflexivity. Qed.

Lemma emit_trace (e : Sim.Event) (w w1 : Sim.World) (u : unit) :
  Sim.emit e w = Ok (u, w1) -> Sim.trace w1 = Sim.trace w ++ [e].
Proof. intros [= _ <-]. reflexivity. Qed.

Lemma draw_from_trace (a : nat) (w w1 : Sim.World) (c : Card) :
  Sim.draw_from a w = Ok (c, w1) -> Sim.trace w1 = Sim.trace w ++ [Sim.EDraw a c].
Proof.
  unfold Sim.draw_from. intros H. inv_m.
  match goal with H : Sim.get_ai _ _ = _ |- _ => apply get_ai_Ok in H; destruct H as [-> _] end.
  destruct (draw _) as [[c' d1]| |]; inv_m; try discriminate.
  repeat match goal with
  | H : Sim.set_ai _ _ _ = _ |- _ => apply set_ai_trace in H
  | H : Sim.emit _ _ = _ |- _ => apply emit_trace in H
  end.
  congruence.
Qed.

Lemma player_draw_trace (i : nat) (w w1 : Sim.World) (c : Card) :
  Sim.player_draw i w = Ok (c, w1) ->
  exists a, Sim.trace w1 = Sim.trace w ++ [Sim.EDraw a c].
Proof.
  unfold Sim.player_draw. intros H. inv_m.
  match goal with H : Sim.get_player _ _ = _ |- _ => apply get_player_Ok in H; destruct H as [-> _] end.
  eexists. eapply draw_from_trace. eassumption.
Qed.

Lemma double_bet_trace (i : nat) (w w1 : Sim.World) (u : unit) :
  Sim.double_bet i w = Ok (u, w1) -> Sim.trace w1 = Sim.trace w.
Proof.
  unfold Sim.double_bet. intros H. inv_m.
  match goal with H : Sim.get_player _ _ = _ |- _ => apply get_player_Ok in H; destruct H as [-> _] end.
  eapply set_player_trace. eassumption.
Qed.

Lemma reset_bet_trace (i : nat) (w w1 : Sim.World) (u : unit) :
  Sim.reset_bet i w = Ok (u, w1) -> Sim.trace w1 = Sim.trace w.
Proof.
  unfold Sim.reset_bet. intros H. inv_m.
  match goal with H : Sim.get_player _ _ = _ |- _ => apply get_player_Ok in H; destruct H as [-> _] end.
  eapply set_player_trace. eassumption.
Qed.

Lemma drawn_app (t1 t2 : list Sim.Event) : drawn (t1 ++ t2) = drawn t1 ++ drawn t2.
Proof. apply omap_app. Qed.

Lemma updated_app (t1 t2 : list Sim.Event) : updated (t1 ++ t2) = updated t1 ++ updated t2.
Proof. apply omap_app. Qed.

Lemma updated_draws (t : list Sim.Event) : Forall is_draw t -> updated t = [].
Proof.
  induction 1 as [|e t He _ IH]; [reflexivity|].
  destruct e; try contradiction. exact IH.
Qed.

Lemma drawn_updates (t : list Sim.Event) : Forall is_update t -> drawn t = [].
Proof.
  induction 1 as [|e t He _ IH]; [reflexivity|].
  destruct e; try contradiction. exact IH.
Qed.

Lemma drawn_settles (i : nat) (hs : list Hand) : drawn (map (Sim.ESettle i) hs) = [].
Proof. induction hs; [reflexivity|assumption]. Qed.

Lemma updated_settles (i : nat) (hs : list Hand) : updated (map (Sim.ESettle i) hs) = [].
Proof. induction hs; [reflexivity|assumption]. Qed.

Lemma settled_first_skip (t1 t2 : list Sim.Event) :
  Forall (fun e => ~ is_update e) t1 -> settled_first (t1 ++ t2) = settled_first t2.
Proof.
  induction 1 as [|e t He _ IH]; [reflexivity|].
  simpl. destruct e; simpl in *; try exact IH. exfalso. apply He. exact I.
Qed.

Lemma settled_first_updates (t : list Sim.Event) : Forall is_update t -> settled_first t = true.
Proof.
  intros H. destruct H as [|e t He Ht]; [reflexivity|].
  simpl. destruct e; try contradiction. simpl.
  apply forallb_forall. intros e' Hin. rewrite Forall_forall in Ht.
  assert (is_update e') as Hu.
  { apply Ht. apply list_elem_of_In. exact Hin. }
  destruct e'; try contradiction. reflexivity.
Qed.

Lemma concat_insert_snoc (hands : list Hand) (k : nat) (hand : Hand) (c : Card) :
  hands !! k = Some hand ->
  concat (<[k := hand ++ [c]]> hands) ≡ₚ concat hands ++ [c].
Proof.
  revert k. induction hands as [|h hands IH]; intros [|k] Hk; try discriminate.
  - injection Hk as ->. simpl.
    rewrite <- !app_assoc. apply Permutation_app_head, Permutation_app_comm.
  - simpl in *. rewrite (IH k Hk). rewrite app_assoc. reflexivity.
Qed.

Lemma split_hand_perm (hands : list Hand) (k : nat) (hand1 : Hand) (moved c1 c2 : Card)
  (rest : list Card) :
  hands !! k = Some (hand1 ++ [moved]) ->
  (concat (<[k := hand1 ++ [c1]]> hands) ++ [moved; c2]) ++ rest
  ≡ₚ concat hands ++ c1 :: c2 :: rest.
Proof.
  revert k. induction hands as [|h hands IH]; intros [|k] Hk; try discriminate.
  - injection Hk as ->. cbn [concat]. change (<[0%nat:=?x]> (?h :: ?l)) with (x :: l).
    cbn [concat]. solve_Permutation.
  - cbn [lookup list_lookup] in Hk.
    change (<[S k:=?x]> (h :: hands)) with (h :: <[k:=x]> hands). cbn [concat].
    transitivity (h ++ ((concat (<[k := hand1 ++ [c1]]> hands) ++ [moved; c2]) ++ rest));
      [solve_Permutation|].
    rewrite (IH k Hk). solve_Permutation.
Qed.

(** The turn loop only draws, and every card it draws ends up in a hand. *)
Lemma turn_loop_trace (fuel i k : nat) (dealer : Hand) (hands hands1 : list Hand)
  (w w1 : Sim.World) :
  Sim.turn_loop fuel i k dealer hands w = Ok (hands1, w1) ->
  exists t, Sim.trace w1 = Sim.trace w ++ t /\ Forall is_draw t
            /\ concat hands1 ≡ₚ concat hands ++ drawn t.
Proof.
  revert hands w. induction fuel as [|fuel IH]; intros hands w; [discriminate|].
  cbn [Sim.turn_loop]. destruct (hands !! k) as [hand|] eqn:Hk; [|discriminate].
  intros H. apply bind_Ok in H. destruct H as (d & w0 & Hd & H).
  apply decide_m_frame in Hd. destruct Hd as (_ & _ & Ht0 & _).
  destruct d.
  - (* Hit *)
    apply bind_Ok in H. destruct H as (c & w2 & Hc & H).
    apply player_draw_trace in Hc. destruct Hc as (a & Hc).
    pose proof (concat_insert_snoc hands k hand c Hk) as Hperm.
    destruct (21 <? hand_value (hand ++ [c])).
    + apply ret_Ok in H. injection H as -> ->.
      exists [Sim.EDraw a c]. split; [congruence|]. split; [repeat constructor|exact Hperm].
    + apply IH in H. destruct H as (t & Ht & Hdr & Hp).
      exists (Sim.EDraw a c :: t). split; [|split].
      * rewrite Ht, Hc, Ht0, <- app_assoc. reflexivity.
      * constructor; [exact I|exact Hdr].
      * rewrite Hp, Hperm. cbn. rewrite <- app_assoc. reflexivity.
  - (* Stand *)
    apply ret_Ok in H. injection H as -> ->.
    exists []. rewrite !app_nil_r. split; [assumption|]. split; [constructor|reflexivity].
  - (* Double *)
    destruct (length hand =? 2)%nat.
    + inv_m.
      match goal with H : Sim.double_bet _ _ = _ |- _ => apply double_bet_trace in H; rename H into Hb end.
      match goal with H : Sim.player_draw _ _ = _ |- _ =>
        apply player_draw_trace in H; destruct H as (a & Hc) end.
      match type of Hc with _ = _ ++ [?e] => exists [e] end. split; [congruence|].
      split; [repeat constructor|apply concat_insert_snoc; assumption].
    + apply IH in H. destruct H as (t & Ht & Hdr & Hp).
      exists t. split; [congruence|]. split; assumption.
  - (* Split *)
    destruct (can_split hand && (length hands <? 4)%nat).
    + destruct (pop hand) as [[hand1 moved]|] eqn:Hpop; [|discriminate].
      apply pop_Some in Hpop. subst hand.
      apply bind_Ok in H. destruct H as (c1 & w2 & Hc1 & H).
      apply bind_Ok in H. destruct H as (c2 & w3 & Hc2 & H).
      apply player_draw_trace in Hc1. destruct Hc1 as (a1 & Hc1).
      apply player_draw_trace in Hc2. destruct Hc2 as (a2 & Hc2).
      apply IH in H. destruct H as (t & Ht & Hdr & Hp).
      exists (Sim.EDraw a1 c1 :: Sim.EDraw a2 c2 :: t). split; [|split].
      * rewrite Ht, Hc2, Hc1, Ht0, <- !app_assoc. reflexivity.
      * repeat constructor. exact Hdr.
      * rewrite Hp, concat_app.
        change (concat [[moved] ++ [c2]]) with [moved; c2].
        apply (split_hand_perm hands k hand1 moved c1 c2 (drawn t) Hk).
    + apply IH in H. destruct H as (t & Ht & Hdr & Hp).
      exists t. split; [congruence|]. split; assumption.
Qed.

Lemma hands_loop_trace (fuel n i k : nat) (dealer : Hand) (hands hands1 : list Hand)
  (w w1 : Sim.World) :
  Sim.hands_loop fuel n i k dealer hands w = Ok (hands1, w1) ->
  exists t, Sim.trace w1 = Sim.trace w ++ t /\ Forall is_draw t
            /\ concat hands1 ≡ₚ concat hands ++ drawn t.
Proof.
  revert k hands w. induction n as [|n IH]; intros k hands w; [discriminate|].
  cbn [Sim.hands_loop]. destruct (k <? length hands)%nat.
  - intros H. apply bind_Ok in H. destruct H as (hands0 & w0 & H0 & H).
    apply turn_loop_trace in H0. destruct H0 as (t0 & Ht0 & Hd0 & Hp0).
    apply IH in H. destruct H as (t & Ht & Hd & Hp).
    exists (t0 ++ t). split; [|split].
    + rewrite Ht, Ht0, <- app_assoc. reflexivity.
    + apply Forall_app. split; assumption.
    + rewrite Hp, Hp0, drawn_app, <- app_assoc. reflexivity.
  - intros H. apply ret_Ok in H. injection H as -> ->.
    exists []. rewrite !app_nil_r. split; [reflexivity|]. split; [constructor|reflexivity].
Qed.

Lemma dealer_loop_trace (fuel i : nat) (dealer dealer1 : Hand) (w w1 : Sim.World) :
  Sim.dealer_loop fuel i dealer w = Ok (dealer1, w1) ->
  exists t, Sim.trace w1 = Sim.trace w ++ t /\ Forall is_draw t
            /\ dealer1 = dealer ++ drawn t.
Proof.
  revert dealer w. induction fuel as [|fuel IH]; intros dealer w; [discriminate|].
  cbn [Sim.dealer_loop]. destruct (hand_value dealer <? 17).
  - intros H. apply bind_Ok in H. destruct H as (c & w0 & Hc & H).
    apply player_draw_trace in Hc. destruct Hc as (a & Hc).
    apply IH in H. destruct H as (t & Ht & Hd & ->).
    exists (Sim.EDraw a c :: t). split; [|split].
    + rewrite Ht, Hc, <- app_assoc. reflexivity.
    + constructor; [exact I|exact Hd].
    + cbn. rewrite <- app_assoc. reflexivity.
  - intros H. apply ret_Ok in H. injection H as -> ->.
    exists []. rewrite !app_nil_r. split; [reflexivity|]. split; [constructor|reflexivity].
Qed.

Lemma settle_all_trace (i : nat) (dealer : Hand) (hands : list Hand) (w w1 : Sim.World)
  (u : unit) :
  Sim.settle_all i dealer hands w = Ok (u, w1) ->
  Sim.trace w1 = Sim.trace w ++ map (Sim.ESettle i) hands.
Proof.
  revert w. induction hands as [|hand hands IH]; intros w; cbn [Sim.settle_all map].
  - intros H. apply ret_Ok in H. injection H as _ ->. rewrite app_nil_r. reflexivity.
  - intros H. apply bind_Ok in H. destruct H as (u0 & w0 & H0 & H).
    apply IH in H. unfold Sim.settle_hand in H0. inv_m.
    repeat match goal with
    | H : Sim.get_player _ _ = _ |- _ => apply get_player_Ok in H; destruct H as [-> _]
    | H : Sim.set_player _ _ _ = _ |- _ => apply set_player_trace in H
    | H : Sim.emit _ _ = _ |- _ => apply emit_trace in H
    end.
    repeat match goal with H : Sim.trace _ = _ |- _ => rewrite H; clear H end.
    rewrite <- app_assoc. reflexivity.
Qed.

Lemma update_all_trace (i : nat) (cards : list Card) (w w1 : Sim.World) (u : unit) :
  Sim.update_all i cards w = Ok (u, w1) ->
  exists t, Sim.trace w1 = Sim.trace w ++ t /\ Forall is_update t /\ updated t = cards.
Proof.
  revert w. induction cards as [|card cards IH]; intros w; cbn [Sim.update_all].
  - intros H. apply ret_Ok in H. injection H as _ ->.
    exists []. rewrite app_nil_r. repeat split. constructor.
  - intros H. apply bind_Ok in H. destruct H as (u0 & w0 & H0 & H).
    apply IH in H. destruct H as (t & Ht & Hu & Hc).
    unfold Sim.update_m in H0. inv_m.
    repeat match goal with
    | H : Sim.get_player _ _ = _ |- _ => apply get_player_Ok in H; destruct H as [-> _]
    | H : Sim.get_ai _ _ = _ |- _ => apply get_ai_Ok in H; destruct H as [-> _]
    | H : Sim.set_ai _ _ _ = _ |- _ => apply set_ai_trace in H
    | H : Sim.emit _ _ = _ |- _ => apply emit_trace in H
    end.
    match goal with H : Sim.trace w0 = _ ++ [?e] |- _ => exists (e :: t) end.
    split; [|split].
    + repeat match goal with H : Sim.trace _ = _ |- _ => rewrite H; clear H end.
      rewrite <- app_assoc. reflexivity.
    + constructor; [exact I|exact Hu].
    + rewrite <- Hc. reflexivity.
Qed.

(** One seat's turn: draws, then that seat's settlements, then one update
    for every card of the dealer's hand and of the seat's hands. *)
Lemma play_seat_trace (fuel : nat) (european : bool) (i : nat) (dealer dealer1 : Hand)
  (w w1 : Sim.World) :
  Sim.play_seat fuel european i dealer w = Ok (dealer1, w1) ->
  exists hands tp tu,
    Sim.trace w1 = Sim.trace w ++ tp ++ map (Sim.ESettle i) hands ++ tu
    /\ Forall is_draw tp /\ Forall is_update tu
    /\ updated tu = dealer1 ++ concat hands
    /\ dealer1 ++ concat hands ≡ₚ dealer ++ drawn tp.
Proof.
  unfold Sim.play_seat. intros H.
  apply bind_Ok in H. destruct H as (c1 & wa & Hc1 & H).
  apply bind_Ok in H. destruct H as (c2 & wb & Hc2 & H).
  apply bind_Ok in H. destruct H as (hands & wc & Hh & H).
  apply bind_Ok in H. destruct H as (dealerE & wd & He & H).
  apply bind_Ok in H. destruct H as (dealer2 & we & Hd & H).
  apply bind_Ok in H. destruct H as (u1 & wf & Hs & H).
  apply bind_Ok in H. destruct H as (u2 & wg & Hr & H).
  apply bind_Ok in H. destruct H as (u3 & wh & Hu & H).
  apply ret_Ok in H. injection H as -> ->.
  apply player_draw_trace in Hc1. destruct Hc1 as (a1 & Hc1).
  apply player_draw_trace in Hc2. destruct Hc2 as (a2 & Hc2).
  apply hands_loop_trace in Hh. destruct Hh as (th & Hth & Hdh & Hph).
  apply dealer_loop_trace in Hd. destruct Hd as (td & Htd & Hdd & ->).
  apply settle_all_trace in Hs. apply reset_bet_trace in Hr.
  apply update_all_trace in Hu. destruct Hu as (tu & Htu & Huu & Hcu).
  assert (exists te, Sim.trace wd = Sim.trace wc ++ te /\ Forall is_draw te
                     /\ dealerE = dealer ++ drawn te) as (te & Hte & Hde & ->).
  { destruct european.
    - apply bind_Ok in He. destruct He as (c & wx & Hc & He).
      apply ret_Ok in He. injection He as -> ->.
      apply player_draw_trace in Hc. destruct Hc as (a & Hc).
      exists [Sim.EDraw a c]. split; [exact Hc|]. split; [repeat constructor|reflexivity].
    - apply ret_Ok in He. injection He as -> ->.
      exists []. rewrite !app_nil_r. split; [reflexivity|]. split; [constructor|reflexivity]. }
  exists hands, (Sim.EDraw a1 c1 :: Sim.EDraw a2 c2 :: th ++ te ++ td), tu.
  split; [|split; [|split; [|split]]].
  - rewrite Htu, Hr, Hs, Htd, Hte, Hth, Hc2, Hc1. cbn. rewrite <- !app_assoc. reflexivity.
  - repeat constructor. rewrite !Forall_app. tauto.
  - exact Huu.
  - exact Hcu.
  - change (drawn (Sim.EDraw a1 c1 :: Sim.EDraw a2 c2 :: th ++ te ++ td))
      with (c1 :: c2 :: drawn (th ++ te ++ td)).
    rewrite !drawn_app, Hph. cbn [concat]. solve_Permutation.
Qed.

Lemma set_ai_players (a : nat) (x : Sim.BlackjackAI) (w w1 : Sim.World) (u : unit) :
  Sim.set_ai a x w = Ok (u, w1) -> Sim.players w1 = Sim.players w.
Proof. intros [= _ <-]. reflexivity. Qed.

Lemma emit_players (e : Sim.Event) (w w1 : Sim.World) (u : unit) :
  Sim.emit e w = Ok (u, w1) -> Sim.players w1 = Sim.players w.
Proof. intros [= _ <-]. reflexivity. Qed.

Lemma draw_from_players (a : nat) (w w1 : Sim.World) (c : Card) :
  Sim.draw_from a w = Ok (c, w1) -> Sim.players w1 = Sim.players w.
Proof.
  unfold Sim.draw_from. intros H. inv_m.
  match goal with H : Sim.get_ai _ _ = _ |- _ => apply get_ai_Ok in H; destruct H as [-> _] end.
  destruct (draw _) as [[c' d1]| |]; inv_m; try discriminate.
  repeat match goal with
  | H : Sim.set_ai _ _ _ = _ |- _ => apply set_ai_players in H
  | H : Sim.emit _ _ = _ |- _ => apply emit_players in H
  end.
  congruence.
Qed.

(** The reshuffle touches neither the trace nor the list of players. *)
Lemma reshuffle_check_frame (w w1 : Sim.World) (u : unit) :
  Sim.reshuffle_check w = Ok (u, w1) ->
  Sim.trace w1 = Sim.trace w /\ Sim.players w1 = Sim.players w.
Proof.
  unfold Sim.reshuffle_check. intros H.
  apply bind_Ok in H. destruct H as (p0 & wa & Hp & H).
  apply get_player_Ok in Hp. destruct Hp as [-> _].
  apply bind_Ok in H. destruct H as (x & wb & Hx & H).
  apply get_ai_Ok in Hx. destruct Hx as [-> _].
  destruct (length (Sim.deck x) <? 52)%nat.
  - apply bind_Ok in H. destruct H as (d & wc & Hd & H).
    apply bind_Ok in H. destruct H as (u1 & wd & Hs & H).
    apply bind_Ok in H. destruct H as (x1 & we & Hx1 & H).
    apply get_ai_Ok in Hx1. destruct Hx1 as [-> _].
    unfold Sim.new_Deck_m, Sim.new_Deck in Hd. injection Hd as _ <-.
    injection Hs as _ <-. injection H as _ <-. split; reflexivity.
  - apply ret_Ok in H. injection H as _ ->. split; reflexivity.
Qed.

Lemma deal_dealer_trace (european : bool) (w w1 : Sim.World) (dealer : Hand) :
  Sim.deal_dealer european w = Ok (dealer, w1) ->
  Sim.players w1 = Sim.players w
  /\ exists t, Sim.trace w1 = Sim.trace w ++ t /\ Forall is_draw t /\ dealer = drawn t.
Proof.
  unfold Sim.deal_dealer. intros H.
  apply bind_Ok in H. destruct H as (p0 & wa & Hp & H).
  apply get_player_Ok in Hp. destruct Hp as [-> _].
  apply bind_Ok in H. destruct H as (c & wb & Hc & H).
  pose proof (draw_from_players _ _ _ _ Hc) as Hpc. apply draw_from_trace in Hc.
  destruct european.
  - apply ret_Ok in H. injection H as -> ->. split; [exact Hpc|].
    exists [Sim.EDraw (Sim.ai p0) c]. split; [exact Hc|].
    split; [repeat constructor|reflexivity].
  - apply bind_Ok in H. destruct H as (c2 & wc & Hc2 & H).
    apply ret_Ok in H. injection H as -> ->.
    pose proof (draw_from_players _ _ _ _ Hc2) as Hpc2. apply draw_from_trace in Hc2.
    split; [congruence|].
    exists [Sim.EDraw (Sim.ai p0) c; Sim.EDraw (Sim.ai p0) c2].
    split; [|split; [repeat constructor|reflexivity]].
    rewrite Hc2, Hc, <- app_assoc. reflexivity.
Qed.

Lemma not_update_draw (t : list Sim.Event) :
  Forall is_draw t -> Forall (fun e => ~ is_update e) t.
Proof.
  intros H. eapply Forall_impl; [exact H|]. intros [] Hd; simpl in *; tauto.
Qed.

Lemma not_update_settles (i : nat) (hs : list Hand) :
  Forall (fun e => ~ is_update e) (map (Sim.ESettle i) hs).
Proof. induction hs; constructor; [simpl; tauto|assumption]. Qed.

(** At a table of one seat, a round that ends has passed every card it
    drew to [update] once, after its last settlement. *)
Lemma play_round_one_seat (fuel : nat) (european : bool) (w w1 : Sim.World) (u : unit) :
  length (Sim.players w) = 1%nat ->
  Sim.play_round fuel european w = Ok (u, w1) ->
  exists t, Sim.trace w1 = Sim.trace w ++ t
            /\ updated t ≡ₚ drawn t /\ settled_first t = true.
Proof.
  intros Hone. unfold Sim.play_round. intros H.
  apply bind_Ok in H. destruct H as (u0 & wa & Hre & H).
  apply reshuffle_check_frame in Hre. destruct Hre as (Htr & Hpr).
  apply bind_Ok in H. destruct H as (dealer & wb & Hdeal & H).
  apply deal_dealer_trace in Hdeal. destruct Hdeal as (Hpd & t0 & Ht0 & Hd0 & ->).
  apply bind_Ok in H. destruct H as (n & wc & Hn & H).
  unfold Sim.num_players in Hn. injection Hn as <- <-.
  rewrite Hpd, Hpr, Hone in H. cbn [seq Sim.play_seats] in H.
  apply bind_Ok in H. destruct H as (dealer1 & wd & Hseats & H).
  apply bind_Ok in Hseats. destruct Hseats as (dealer2 & we & Hseat & Hret).
  apply ret_Ok in Hret. injection Hret as -> ->.
  injection H as _ <-. cbn [Sim.trace].
  apply play_seat_trace in Hseat.
  destruct Hseat as (hands & tp & tu & Ht & Hdp & Hup & Hcards & Hperm).
  exists (t0 ++ tp ++ map (Sim.ESettle 0) hands ++ tu). split; [|split].
  - rewrite Ht, Ht0, Htr, <- !app_assoc. reflexivity.
  - rewrite !updated_app, !drawn_app.
    rewrite (updated_draws t0 Hd0), (updated_draws tp Hdp), updated_settles.
    rewrite drawn_settles, (drawn_updates tu Hup), Hcards, Hperm.
    cbn [app]. rewrite !app_nil_r. reflexivity.
  - rewrite settled_first_skip by (apply not_update_draw; exact Hd0).
    rewrite settled_first_skip by (apply not_update_draw; exact Hdp).
    rewrite settled_first_skip by apply not_update_settles.
    apply settled_first_updates. exact Hup.
Qed.

(** C3 (amended). At the end of each seat's turn, after that seat's hands
    are settled, [CardCounter.update] is called once for every card then in
    the dealer's hand and once for every card in that seat's hands (the
    cards the seat drew, splits and doubles included). With a single seat
    this makes one update for each card dealt in the round, all after the
    settlement. With several seats the dealer's cards are passed to [update]
    again at the end of every seat's turn, and a seat's updates come before
    the settlement of the seats after it. *)
Theorem counter_updates_per_seat (fuel : nat) (european : bool) (i : nat)
  (dealer dealer1 : Hand) (w w1 wa wb : Sim.World) :
  (Sim.play_seat fuel european i dealer w = Ok (dealer1, w1) ->
   exists hands tp tu,
     Sim.trace w1 = Sim.trace w ++ tp ++ map (Sim.ESettle i) hands ++ tu
     /\ Forall is_draw tp /\ Forall is_update tu
     /\ updated tu = dealer1 ++ concat hands
     /\ dealer1 ++ concat hands ≡ₚ dealer ++ drawn tp)
  /\ (length (Sim.players wa) = 1%nat ->
      Sim.play_round fuel european wa = Ok (tt, wb) ->
      exists t, Sim.trace wb = Sim.trace wa ++ t
                /\ updated t ≡ₚ drawn t /\ settled_first t = true).
Proof.
  split; [apply play_seat_trace|apply play_round_one_seat].
Qed.

Lemma counter_updates_per_seat_witness :
  exists t, Sim.trace after_one_round = Sim.trace one_seat_world ++ t
            /\ updated t ≡ₚ drawn t /\ settled_first t = true.
Proof.
  apply (counter_updates_per_seat 30 false 0 [] [] one_seat_world one_seat_world
           one_seat_world after_one_round).
  - reflexivity.
  - vm_compute. reflexivity.
Defined.

(** ** Where [calculate_bust_probability] is exact *)

Lemma remaining_cards_foldl (d : list Card) (m : gmap Z nat) (v : Z) :
  default O (foldl (fun m c => <[card_value c := S (default O (m !! card_value c))]> m) m d !! v)
  = (default O (m !! v) + length (filter (fun c => card_value c = v) d))%nat.
Proof.
  revert m. induction d as [|c d IH]; intros m.
  - rewrite filter_nil. simpl. lia.
  - cbn [foldl]. rewrite IH, filter_cons.
    destruct (decide (card_value c = v)) as [->|Hne].
    + rewrite lookup_insert_eq. simpl. lia.
    + rewrite lookup_insert_ne by exact Hne. reflexivity.
Qed.

Lemma remaining_cards_lookup (d : list Card) (v : Z) :
  default O (remaining_cards d !! v) = length (filter (fun c => card_value c = v) d).
Proof. unfold remaining_cards. rewrite remaining_cards_foldl, lookup_empty. reflexivity. Qed.

Lemma histogram_sum_insert (m : gmap Z nat) (k : Z) :
  sum_list (snd <$> map_to_list (<[k := S (default O (m !! k))]> m))
  = S (sum_list (snd <$> map_to_list m)).
Proof.
  destruct (m !! k) as [n|] eqn:Hk.
  - rewrite <- insert_delete_eq.
    rewrite map_to_list_insert by apply lookup_delete_eq.
    rewrite <- (map_to_list_delete m k n Hk). reflexivity.
  - rewrite map_to_list_insert by exact Hk. reflexivity.
Qed.

Lemma histogram_sum_foldl (d : list Card) (m : gmap Z nat) :
  sum_list (snd <$> map_to_list
    (foldl (fun m c => <[card_value c := S (default O (m !! card_value c))]> m) m d))
  = (sum_list (snd <$> map_to_list m) + length d)%nat.
Proof.
  revert m. induction d as [|c d IH]; intros m; cbn [foldl length]; [lia|].
  rewrite IH, histogram_sum_insert. lia.
Qed.

(** The histogram counts every card of the shoe once. *)
Lemma total_cards_length (d : list Card) : total_cards d = length d.
Proof.
  unfold total_cards, remaining_cards. rewrite histogram_sum_foldl, map_to_list_empty.
  reflexivity.
Qed.

Lemma indicator_sum (v a : Z) (n : nat) :
  sum_list ((fun i => if decide (v = i) then 1%nat else 0%nat) <$> seqZ a (Z.of_nat n))
  = if decide (a <= v < a + Z.of_nat n) then 1%nat else 0%nat.
Proof.
  revert a. induction n as [|n IH]; intros a.
  - simpl. destruct (decide _); [lia|reflexivity].
  - rewrite Nat2Z.inj_succ, seqZ_cons by lia. cbn [fmap list_fmap sum_list_with].
    replace (Z.pred (Z.succ (Z.of_nat n))) with (Z.of_nat n) by lia.
    fold (@fmap list _ Z nat). rewrite IH.
    repeat destruct (decide _); simpl; lia.
Qed.

Lemma sum_list_fmap_zero {A : Type} (l : list A) :
  sum_list ((fun _ => 0%nat) <$> l) = 0%nat.
Proof. induction l as [|x l IH]; [reflexivity|]. rewrite fmap_cons. exact IH. Qed.

Lemma sum_list_fmap_add {A : Type} (f g : A -> nat) (l : list A) :
  sum_list ((fun i => f i + g i)%nat <$> l)
  = (sum_list (f <$> l) + sum_list (g <$> l))%nat.
Proof.
  induction l as [|x l IH]; [reflexivity|].
  rewrite !fmap_cons. cbn [sum_list_with]. rewrite IH. unfold id. lia.
Qed.

Lemma range_count_sum (d : list Card) (a : Z) (n : nat) :
  sum_list ((fun i => length (filter (fun c => card_value c = i) d)) <$> seqZ a (Z.of_nat n))
  = length (filter (fun c => a <= card_value c < a + Z.of_nat n) d).
Proof.
  induction d as [|c d IH].
  - rewrite filter_nil. apply sum_list_fmap_zero.
  - rewrite filter_cons.
    rewrite (list_fmap_ext _
      (fun i => (if decide (card_value c = i) then 1 else 0)
                + length (filter (fun c0 => card_value c0 = i) d))%nat).
    + rewrite sum_list_fmap_add, IH, indicator_sum.
      destruct (decide (a <= card_value c < a + Z.of_nat n)); simpl; lia.
    + intros j i _. rewrite filter_cons.
      destruct (decide (card_value c = i)); simpl; lia.
Qed.

(** What the code counts: the cards whose face value lies between
    [22 - hand.value()] and 10, Aces never. *)
Lemma bust_cards_count (d : list Card) (h : Hand) :
  bust_cards d h = length (filter (fun c => 22 - hand_value h <= card_value c <= 10) d).
Proof.
  unfold bust_cards, range.
  rewrite (list_fmap_ext _ (fun i => length (filter (fun c => card_value c = i) d)))
    by (intros; apply remaining_cards_lookup).
  destruct (decide (11 <= hand_value h)) as [Hv|Hv].
  - replace (11 - (22 - hand_value h)) with (Z.of_nat (Z.to_nat (hand_value h - 11))) by lia.
    rewrite range_count_sum. f_equal. apply list_filter_iff. intros c. lia.
  - rewrite seqZ_nil by lia. cbn [fmap list_fmap sum_list_with].
    symmetry. apply length_zero_iff_nil.
    induction d as [|c d IH]; [apply filter_nil|].
    rewrite filter_cons. pose proof (card_value_bounds c).
    destruct (decide _); [lia|exact IH].
Qed.

Lemma sum_values_snoc (h : Hand) (c : Card) :
  sum_values (h ++ [c]) = sum_values h + card_value c.
Proof.
  unfold sum_values. induction h as [|x h IH]; simpl; [lia|].
  rewrite IH. lia.
Qed.

Lemma count_aces_snoc (h : Hand) (c : Card) :
  count_aces (h ++ [c]) = (count_aces h + if bool_decide (rank c = RA) then 1 else 0)%nat.
Proof.
  unfold count_aces. rewrite filter_app, length_app. f_equal.
  rewrite filter_cons, filter_nil. destruct (decide (rank c = RA)) as [E|E].
  - rewrite (bool_decide_eq_true_2 _ E). reflexivity.
  - rewrite (bool_decide_eq_false_2 _ E). reflexivity.
Qed.

Lemma card_value_ace (c : Card) : rank c = RA <-> card_value c = 11.
Proof. destruct c as [[] ?]; cbn; split; intros; congruence. Qed.

(** On a hard hand worth at most 20, a card busts the hand exactly when
    its face value is in the range the code counts. *)
Lemma busts_with_hard (h : Hand) (c : Card) :
  hard h -> hand_value h <= 20 ->
  busts_with h c <-> 22 - hand_value h <= card_value c <= 10.
Proof.
  unfold hard, busts_with. intros Hhard Hle.
  destruct (demote_spec (count_aces h) (sum_values h)) as (k & Hk & Hv & Hbefore & _).
  fold (hand_value h) in Hv.
  assert (k = count_aces h) by lia. subst k.
  destruct (demote_spec (count_aces (h ++ [c])) (sum_values (h ++ [c])))
    as (k' & Hk' & Hv' & Hbefore' & Hafter').
  fold (hand_value (h ++ [c])) in Hv'.
  rewrite sum_values_snoc in *. rewrite count_aces_snoc in *.
  pose proof (card_value_bounds c) as Hb.
  assert (count_aces h <= k')%nat as Hge.
  { destruct (decide (count_aces h <= k')%nat) as [|Hlt]; [assumption|].
    specialize (Hbefore k' ltac:(lia)). specialize (Hafter' ltac:(lia)). lia. }
  destruct (decide (rank c = RA)) as [E|E].
  - rewrite (bool_decide_eq_true_2 _ E) in *.
    apply card_value_ace in E.
    destruct (decide (k' = count_aces h)) as [->|Hne].
    + specialize (Hafter' ltac:(lia)). lia.
    + assert (k' = S (count_aces h)) by lia. subst k'. lia.
  - rewrite (bool_decide_eq_false_2 _ E) in *.
    assert (card_value c <> 11) by (rewrite <- card_value_ace; exact E).
    assert (k' = count_aces h) by lia. subst k'. lia.
Qed.

(** On hard hands worth at most 20 the code's figure is the exact bust
    fraction. *)
Lemma calculate_bust_probability_hard_hand (d : list Card) (h : Hand) :
  hard h -> hand_value h <= 20 ->
  calculate_bust_probability d h = exact_bust_fraction d h.
Proof.
  intros Hhard Hle. unfold calculate_bust_probability, exact_bust_fraction.
  rewrite total_cards_length, bust_cards_count.
  destruct (0 <? length d)%nat; [|reflexivity].
  do 3 f_equal. apply list_filter_iff. intros c. symmetry. apply busts_with_hard; assumption.
Qed.

(** * Further properties *)

(** ** The shoe *)

Lemma one_deck_count (c : Card) : length (filter (fun x => x = c) one_deck) = 1%nat.
Proof. destruct c as [[] []]; vm_compute; reflexivity. Qed.

Lemma fresh_cards_filter (P : Card -> Prop) `{forall c, Decision (P c)} (n : nat) :
  length (filter P (fresh_cards n)) = (n * length (filter P one_deck))%nat.
Proof.
  unfold fresh_cards. induction n as [|n IH]; [reflexivity|].
  cbn [replicate concat]. rewrite filter_app, length_app, IH. lia.
Qed.

(** X1. A shoe built from [n] decks and shuffled holds [52 n] cards: [n]
    copies of every card, [16 n] ten-valued cards and [4 n] Aces. *)
Theorem new_Deck_composition (n : nat) (r : Sim.Rng) :
  (forall k l, Sim.shuffled r k l ≡ₚ l) ->
  length (fst (Sim.new_Deck n r)) = (n * 52)%nat
  /\ (forall c, length (filter (fun x => x = c) (fst (Sim.new_Deck n r))) = n)
  /\ length (filter ten_valued (fst (Sim.new_Deck n r))) = (n * 16)%nat
  /\ length (filter (fun c => rank c = RA) (fst (Sim.new_Deck n r))) = (n * 4)%nat.
Proof.
  intros Hperm. unfold Sim.new_Deck. cbn [fst].
  pose proof (Hperm (Sim.pos r) (fresh_cards n)) as HP.
  split; [rewrite HP; apply length_fresh_cards|].
  split; [intros c; rewrite HP, fresh_cards_filter, one_deck_count; lia|].
  split; rewrite HP, fresh_cards_filter; reflexivity.
Qed.

Lemma new_Deck_composition_witness :
  length (fst (Sim.new_Deck 6 (script (1 # 2) 0))) = (6 * 52)%nat
  /\ (forall c, length (filter (fun x => x = c) (fst (Sim.new_Deck 6 (script (1 # 2) 0)))) = 6%nat).
Proof.
  destruct (new_Deck_composition 6 (script (1 # 2) 0)) as (H1 & H2 & _).
  - intros k l. symmetry. apply Permutation_rev.
  - split; assumption.
Defined.

(** X2. [Deck.draw] raises [ValueError] exactly on the empty deck, and
    otherwise hands out the last card of the list and keeps the others in
    their order; it has no other outcome. *)
Theorem draw_last_card (d : list Card) :
  (draw d = Raise ValueError <-> d = [])
  /\ (forall c d1, draw d = Ok (c, d1) <-> d = d1 ++ [c])
  /\ (forall c d1, draw d = Ok (c, d1) -> length d = S (length d1))
  /\ (forall c, draw (d ++ [c]) = Ok (c, d))
  /\ (forall e, draw d = Raise e -> e = ValueError)
  /\ draw d <> Timeout.
Proof.
  unfold draw. split; [|split; [|split; [|split; [|split]]]].
  - destruct (pop d) as [[d1 c]|] eqn:E.
    + split; [discriminate|]. intros ->. discriminate.
    + apply pop_None in E. tauto.
  - intros c d1. destruct (pop d) as [[d2 c2]|] eqn:E.
    + apply pop_Some in E. subst d. split.
      * intros [= -> ->]. reflexivity.
      * intros H. apply app_inj_tail in H. destruct H as [-> ->]. reflexivity.
    + apply pop_None in E. subst d. split; [discriminate|].
      intros H. destruct d1; discriminate.
  - intros c d1. destruct (pop d) as [[d2 c2]|] eqn:E; [|discriminate].
    apply pop_Some in E. subst d. intros [= -> ->]. rewrite length_app. simpl. lia.
  - intros c. rewrite pop_snoc. reflexivity.
  - intros e. destruct (pop d) as [[d2 c2]|]; [discriminate|]. congruence.
  - destruct (pop d) as [[d2 c2]|]; discriminate.
Qed.

(** ** Hands *)



(** X4. A blackjack is exactly an Ace with a ten-valued card, in either
    order. *)
Theorem is_blackjack_ace_and_ten (h : Hand) :
  is_blackjack h = true <->
  exists c1 c2, h = [c1; c2]
    /\ ((rank c1 = RA /\ ten_valued c2) \/ (ten_valued c1 /\ rank c2 = RA)).
Proof.
  unfold ten_valued. split.
  - intros H. apply is_blackjack_iff in H. destruct H as [Hlen Hv].
    destruct h as [|c1 [|c2 [|? ?]]]; try discriminate.
    exists c1, c2. split; [reflexivity|].
    destruct c1 as [r1 s1], c2 as [r2 s2].
    destruct r1, r2; vm_compute in Hv; try discriminate Hv;
      cbn; first [left; split; reflexivity | right; split; reflexivity].
  - intros (c1 & c2 & -> & H). apply is_blackjack_iff. split; [reflexivity|].
    destruct c1 as [r1 s1], c2 as [r2 s2]. cbn in H.
    destruct H as [[-> H]|[H ->]].
    + destruct r2; cbn in H; try discriminate H; reflexivity.
    + destruct r1; cbn in H; try discriminate H; reflexivity.
Qed.

(** ** Card counting *)









Lemma max1_ge (x : Q) : (1 <= Sim.max1 x)%Q.
Proof.
  unfold Sim.max1. destruct (Qltb 1 x) eqn:E; reflect_bools; lra.
Qed.

Lemma max1_le (x d : Q) : (1 <= d)%Q -> (x <= d)%Q -> (Sim.max1 x <= d)%Q.
Proof.
  intros H1 H2. unfold Sim.max1. destruct (Qltb 1 x) eqn:E; reflect_bools; lra.
Qed.

Lemma update_decks_bounds (cc : Sim.CardCounter) (c : Card) :
  (1 <= Sim.decks_remaining (Sim.update cc c))%Q
  /\ ((1 <= Sim.decks_remaining cc)%Q ->
      (Sim.decks_remaining (Sim.update cc c) <= Sim.decks_remaining cc)%Q).
Proof.
  cbn [Sim.update Sim.decks_remaining]. split; [apply max1_ge|].
  intros H. apply max1_le; lra.
Qed.

Lemma run_counter_decks_bounds (cc : Sim.CardCounter) (cards : list Card) :
  (1 <= Sim.decks_remaining cc)%Q ->
  (1 <= Sim.decks_remaining (run_counter cc cards))%Q
  /\ (Sim.decks_remaining (run_counter cc cards) <= Sim.decks_remaining cc)%Q.
Proof.
  unfold run_counter. revert cc. induction cards as [|c cards IH]; intros cc Hge.
  - cbn [foldl]. lra.
  - cbn [foldl]. destruct (update_decks_bounds cc c) as [H1 H2].
    specialize (H2 Hge). destruct (IH _ H1) as [H3 H4]. lra.
Qed.

Lemma quotient_bounds (n d : Q) :
  (1 <= d)%Q ->
  ((0 <= n)%Q -> (0 <= n / d)%Q /\ (n / d <= n)%Q)
  /\ ((n <= 0)%Q -> (n <= n / d)%Q /\ (n / d <= 0)%Q).
Proof.
  intros Hd. assert (Hpos : (0 < d)%Q) by lra.
  split; intros Hn; split.
  - apply Qle_shift_div_l; [exact Hpos|]. lra.
  - apply Qle_shift_div_r; [exact Hpos|]. nra.
  - apply Qle_shift_div_l; [exact Hpos|]. nra.
  - apply Qle_shift_div_r; [exact Hpos|]. lra.
Qed.

(** X6. After any [CardCounter.update] the estimate [decks_remaining] is 1
    or more, and the true count lies between 0 and the running count: it has
    the sign of the running count and is no larger in magnitude, so a true
    count above 2 needs a running count of 3 or more. Over any run of
    updates from an estimate of one deck or more, the estimate never rises
    and never drops below one deck; at one deck it stays there. These are
    order facts: they do not depend on how [1/52] is rounded. *)
Theorem decks_remaining_floor (cc : Sim.CardCounter) (cards : list Card) (c : Card) :
  let cc1 := Sim.update (run_counter cc cards) c in
  (1 <= Sim.decks_remaining cc1)%Q
  /\ (0 <= Sim.count cc1 ->
      (0 <= Sim.true_count cc1)%Q /\ (Sim.true_count cc1 <= inject_Z (Sim.count cc1))%Q)
  /\ (Sim.count cc1 <= 0 ->
      (inject_Z (Sim.count cc1) <= Sim.true_count cc1)%Q /\ (Sim.true_count cc1 <= 0)%Q)
  /\ (Qltb 2 (Sim.true_count cc1) = true -> 3 <= Sim.count cc1)
  /\ ((1 <= Sim.decks_remaining cc)%Q ->
      (Sim.decks_remaining cc1 <= Sim.decks_remaining cc)%Q
      /\ (1 <= Sim.decks_remaining (run_counter cc cards))%Q
      /\ (Sim.decks_remaining (run_counter cc cards) <= Sim.decks_remaining cc)%Q
      /\ ((Sim.decks_remaining cc == 1)%Q -> (Sim.decks_remaining cc1 == 1)%Q)).
Proof.
  intros cc1.
  destruct (update_decks_bounds (run_counter cc cards) c) as [Hge Hle].
  fold cc1 in Hge, Hle.
  assert (Htc : Sim.true_count cc1
                = (inject_Z (Sim.count cc1) / Sim.decks_remaining cc1)%Q) by reflexivity.
  destruct (quotient_bounds (inject_Z (Sim.count cc1)) _ Hge) as [Hp Hn].
  split; [exact Hge|]. split; [|split; [|split]].
  - intros H. rewrite Htc. apply Hp.
    change 0%Q with (inject_Z 0). rewrite <- Zle_Qle. exact H.
  - intros H. rewrite Htc. apply Hn.
    change 0%Q with (inject_Z 0). rewrite <- Zle_Qle. exact H.
  - intros H. reflect_bools.
    destruct (Z.le_gt_cases 0 (Sim.count cc1)) as [E|E].
    + rewrite Htc in H. destruct Hp as [_ Hp].
      { change 0%Q with (inject_Z 0). rewrite <- Zle_Qle. exact E. }
      assert (H2 : (inject_Z 2 < inject_Z (Sim.count cc1))%Q)
        by (change (inject_Z 2) with 2%Q; lra).
      rewrite <- Zlt_Qlt in H2. lia.
    + rewrite Htc in H. destruct Hn as [_ Hn]; [|lra].
      change 0%Q with (inject_Z 0). rewrite <- Zle_Qle. lia.
  - intros H1. destruct (run_counter_decks_bounds cc cards H1) as [H2 H3].
    specialize (Hle H2). split; [lra|]. split; [exact H2|]. split; [exact H3|].
    intros H4. lra.
Qed.

Lemma decks_remaining_floor_witness :
  3 <= Sim.count (Sim.update (run_counter hot_counter [c5S; c6H]) c5D)
  /\ (Sim.decks_remaining (Sim.update (run_counter hot_counter [c5S; c6H]) c5D)
      <= Sim.decks_remaining hot_counter)%Q.
Proof.
  destruct (decks_remaining_floor hot_counter [c5S; c6H] c5D) as (_ & _ & _ & H1 & H2).
  split; [apply H1; vm_compute; reflexivity|].
  apply H2. vm_compute. discriminate.
Defined.

(** ** Strategy tables *)

Lemma AI_basic_strategy_hit_or_stand (h : Hand) (up : Card) :
  AI.basic_strategy h up = Hit \/ AI.basic_strategy h up = Stand.
Proof.
  unfold AI.basic_strategy.
  repeat match goal with |- context [if ?b then _ else _] => destruct b end; tauto.
Qed.

(** The simulator's table is the split rows, then the double-down rows,
    then the totals table of [advanced-blackjack-ai.py]. *)
Lemma Sim_basic_strategy_layers (h : Hand) (up : Card) :
  Sim.basic_strategy h up =
  let player_value := hand_value h in
  let dealer_value := card_value up in
  let doubles_and_totals :=
    if (length h =? 2)%nat then
      if player_value =? 11 then (if negb (dealer_value =? 11) then Double else Hit)
      else if player_value =? 10 then (if dealer_value <? 10 then Double else Hit)
      else if player_value =? 9 then
        (if (3 <=? dealer_value) && (dealer_value <=? 6) then Double else Hit)
      else AI.basic_strategy h up
    else AI.basic_strategy h up in
  if can_split h then
    if Sim.in_list player_value [16; 18] then Split
    else if player_value =? 20 then Stand
    else if Sim.in_list player_value [4; 6] then
      (if Sim.in_list dealer_value [2; 3; 4; 5; 6] then Split else Hit)
    else if player_value =? 12 then
      (if Sim.in_list dealer_value [2; 3; 4; 5; 6] then Split else Hit)
    else if player_value =? 14 then
      (if Sim.in_list dealer_value [2; 3; 4; 5; 6; 7] then Split else Hit)
    else doubles_and_totals
  else doubles_and_totals.
Proof. reflexivity. Qed.

Lemma can_split_length (h : Hand) : can_split h = true -> length h = 2%nat.
Proof. destruct h as [|? [|? [|? ?]]]; simpl; congruence. Qed.

Lemma Sim_basic_strategy_legal (h : Hand) (up : Card) :
  (Sim.basic_strategy h up = Split -> can_split h = true)
  /\ (Sim.basic_strategy h up = Double -> length h = 2%nat).
Proof.
  rewrite Sim_basic_strategy_layers. cbv zeta.
  destruct (AI_basic_strategy_hit_or_stand h up) as [E|E]; rewrite E; clear E;
  (destruct (can_split h) eqn:Hs; [apply can_split_length in Hs|]);
  (destruct (length h =? 2)%nat eqn:Hl; [apply Nat.eqb_eq in Hl|]);
  repeat match goal with |- context [if ?b then _ else _] => destruct b end;
  split; intros; congruence.
Qed.

Lemma Sim_recommend_basic_or_stand (x : Sim.BlackjackAI) (h : Hand) (up : Card) :
  Sim.recommend_action x h up = Sim.basic_strategy h up
  \/ Sim.recommend_action x h up = Stand.
Proof.
  unfold Sim.recommend_action.
  repeat match goal with |- context [if ?b then _ else _] => destruct b end; tauto.
Qed.

(** X7. The simulator's strategy never asks for more than the hand allows:
    [basic_strategy] and [recommend_action] answer [Split] only on two cards
    of equal rank and [Double] only on a hand of exactly two cards. *)
Theorem recommendation_is_legal (x : Sim.BlackjackAI) (h : Hand) (up : Card) :
  (Sim.basic_strategy h up = Split -> can_split h = true)
  /\ (Sim.basic_strategy h up = Double -> length h = 2%nat)
  /\ (Sim.recommend_action x h up = Split -> can_split h = true)
  /\ (Sim.recommend_action x h up = Double -> length h = 2%nat).
Proof.
  destruct (Sim_basic_strategy_legal h up) as [Hs Hd].
  split; [exact Hs|]. split; [exact Hd|].
  destruct (Sim_recommend_basic_or_stand x h up) as [E|E]; rewrite E;
    split; first [assumption | discriminate].
Qed.

Lemma recommendation_is_legal_witness :
  can_split pair_of_eights = true.
Proof.
  apply (proj1 (recommendation_is_legal sim_ai_tens pair_of_eights c5S)). reflexivity.
Defined.

(** X8. The totals table: [basic_strategy] of [advanced-blackjack-ai.py]
    answers [Stand] exactly on 17 or more (a bust hand included), on 12
    against a dealer 4 to 6 and on 13 to 16 against a dealer 2 to 6, and
    [Hit] otherwise; on every hand that does not hold exactly two cards the
    simulator's [basic_strategy] gives the same answer. *)
Theorem basic_strategy_totals (h : Hand) (up : Card) :
  (AI.basic_strategy h up = Stand <->
     17 <= hand_value h
     \/ (hand_value h = 12 /\ 4 <= card_value up <= 6)
     \/ (13 <= hand_value h <= 16 /\ 2 <= card_value up <= 6))
  /\ (AI.basic_strategy h up <> Stand -> AI.basic_strategy h up = Hit)
  /\ (length h <> 2%nat -> Sim.basic_strategy h up = AI.basic_strategy h up).
Proof.
  split; [|split].
  - unfold AI.basic_strategy.
    destruct (17 <=? hand_value h) eqn:E1; destruct (hand_value h <=? 11) eqn:E2;
    destruct (hand_value h =? 12) eqn:E3; destruct (4 <=? card_value up) eqn:E4;
    destruct (card_value up <=? 6) eqn:E5; destruct (13 <=? hand_value h) eqn:E6;
    destruct (hand_value h <=? 16) eqn:E7; destruct (2 <=? card_value up) eqn:E8;
    reflect_bools; cbn [andb]; split; intros; try discriminate; try lia; reflexivity.
  - destruct (AI_basic_strategy_hit_or_stand h up) as [E|E]; rewrite E; congruence.
  - intros Hlen. rewrite Sim_basic_strategy_layers. cbv zeta.
    destruct (can_split h) eqn:Hs; [apply can_split_length in Hs; contradiction|].
    apply Nat.eqb_neq in Hlen. rewrite Hlen. reflexivity.
Qed.

Lemma basic_strategy_totals_witness :
  Sim.basic_strategy three_fives c10H = AI.basic_strategy three_fives c10H.
Proof.
  apply (proj2 (proj2 (basic_strategy_totals three_fives c10H))). discriminate.
Defined.

(** ** Probabilities *)

Lemma Z_pos_of_nat (n : nat) : (0 < n)%nat -> Z.pos (Pos.of_nat n) = Z.of_nat n.
Proof.
  intros H. rewrite <- positive_nat_Z, Nat2Pos.id by lia. reflexivity.
Qed.

Lemma filter_all_false {A : Type} (P : A -> Prop) `{forall x, Decision (P x)} (l : list A) :
  (forall x, ~ P x) -> filter P l = [].
Proof.
  intros Hn. induction l as [|x l IH]; [reflexivity|].
  rewrite filter_cons. destruct (decide (P x)); [exfalso; eapply Hn; eassumption|exact IH].
Qed.

(** X9. [calculate_bust_probability] is a probability: it lies between 0
    and 1. It is 0 on an empty shoe (no division by zero) and 0 for every
    hand worth 11 or less. *)
Theorem calculate_bust_probability_range (d : list Card) (h : Hand) :
  (0 <= calculate_bust_probability d h <= 1)%Q
  /\ calculate_bust_probability [] h = 0%Q
  /\ (hand_value h <= 11 -> (calculate_bust_probability d h == 0)%Q).
Proof.
  unfold calculate_bust_probability. rewrite !total_cards_length, bust_cards_count.
  split; [|split; [reflexivity|]].
  - destruct (0 <? length d)%nat eqn:E; [|split; discriminate].
    apply Nat.ltb_lt in E.
    pose proof (length_filter (fun c => 22 - hand_value h <= card_value c <= 10) d) as Hle.
    unfold Qle. cbn [Qnum Qden]. rewrite Z_pos_of_nat by exact E. split; lia.
  - intros Hv. destruct (0 <? length d)%nat; [|reflexivity].
    rewrite filter_all_false; [reflexivity|].
    intros c. lia.
Qed.

Lemma calculate_bust_probability_range_witness :
  (calculate_bust_probability (fresh_cards 1) [c5S; c6H] == 0)%Q.
Proof.
  apply (proj2 (proj2 (calculate_bust_probability_range (fresh_cards 1) [c5S; c6H]))).
  vm_compute. discriminate.
Defined.

(** ** The analyser of [advanced-blackjack-ai.py] *)

(** X10. [update_count] moves the running count as Hi-Lo does in the
    simulator and leaves the shoe and [hands_played] alone. With a whole
    deck or more in the shoe it returns and sets the true count to the
    running count over the number of whole decks; with fewer than 52 cards
    it raises [ZeroDivisionError] after the running count was already
    changed, leaving the old true count in place. *)
Theorem update_count_whole_decks (self : AI.BlackjackAI) (card : Card) :
  AI.card_count (snd (AI.update_count self card))
  = AI.card_count self + Sim.count_delta Sim.HiLo (card_value card)
  /\ AI.deck (snd (AI.update_count self card)) = AI.deck self
  /\ AI.hands_played (snd (AI.update_count self card)) = AI.hands_played self
  /\ ((length (AI.deck self) < 52)%nat ->
      fst (AI.update_count self card) = Raise ZeroDivisionError
      /\ AI.true_count (snd (AI.update_count self card)) = AI.true_count self)
  /\ ((52 <= length (AI.deck self))%nat ->
      fst (AI.update_count self card) = Ok tt
      /\ AI.true_count (snd (AI.update_count self card))
         = (AI.card_count (snd (AI.update_count self card))
            # Pos.of_nat (length (AI.deck self) `div` 52))%Q).
Proof.
  assert (Hdelta :
    (if bool_decide (card_value card ∈ [10; 11]) then AI.card_count self - 1
     else if (2 <=? card_value card) && (card_value card <=? 6)
          then AI.card_count self + 1 else AI.card_count self)
    = AI.card_count self + Sim.count_delta Sim.HiLo (card_value card)).
  { unfold Sim.count_delta, Sim.in_list.
    destruct (bool_decide _); [lia|]. destruct (_ && _); lia. }
  unfold AI.update_count.
  destruct (length (AI.deck self) `div` 52 =? 0)%nat eqn:E; cbn [fst snd AI.card_count
    AI.deck AI.hands_played AI.true_count]; rewrite ?Hdelta.
  - apply Nat.eqb_eq in E. apply Nat.div_small_iff in E; [|lia].
    repeat split; try reflexivity; intros; lia.
  - apply Nat.eqb_neq in E.
    assert (52 <= length (AI.deck self))%nat.
    { destruct (decide (52 <= length (AI.deck self))%nat) as [|Hn]; [assumption|].
      exfalso. apply E. apply Nat.div_small. lia. }
    repeat split; try reflexivity; intros; lia.
Qed.

Lemma update_count_whole_decks_witness :
  fst (AI.update_count ai_tens c5S) = Raise ZeroDivisionError
  /\ AI.true_count (snd (AI.update_count ai_tens c5S)) = AI.true_count ai_tens.
Proof.
  apply (update_count_whole_decks ai_tens c5S). vm_compute. lia.
Defined.

(** X11. On a non-empty shoe [play_hand] returns the action of
    [recommend_action] with the bust probability and the dealer-bust
    estimate that action was computed from, counts one more hand played and
    leaves the shoe and both counts as they were; the dealer-bust estimate
    it reports is 0 or 1. *)
Theorem play_hand_reports_its_inputs (fuel : nat) (self : AI.BlackjackAI) (h : Hand)
  (up : Card) :
  (17 <= fuel)%nat -> AI.deck self <> [] ->
  exists act dbp,
    AI.recommend_action fuel self h up = Ok (act, self)
    /\ simulate_dealer_hand fuel up 10000 (AI.deck self) = Ok (dbp, AI.deck self)
    /\ (dbp = (0 # 10000)%Q \/ dbp = (10000 # 10000)%Q)
    /\ act = AI.overlay (AI.true_count self) (hand_value h) (card_value up)
               (calculate_bust_probability (AI.deck self) h) dbp (AI.basic_strategy h up)
    /\ AI.play_hand fuel self h up
       = Ok (act,
             AI.mkProbabilities (calculate_bust_probability (AI.deck self) h) dbp,
             AI.mkAI (AI.deck self) (AI.card_count self) (AI.true_count self)
                     (AI.hands_played self + 1)).
Proof.
  intros Hf Hd.
  destruct (simulate_dealer_hand_nonempty fuel up 10000 (AI.deck self) Hf Hd)
    as (dbp & Hdbp); [discriminate|].
  assert (Hrec : AI.recommend_action fuel self h up
                 = Ok (AI.overlay (AI.true_count self) (hand_value h) (card_value up)
                         (calculate_bust_probability (AI.deck self) h) dbp
                         (AI.basic_strategy h up), self)).
  { unfold AI.recommend_action. rewrite Hdbp. destruct self; reflexivity. }
  eexists _, dbp. split; [exact Hrec|]. split; [exact Hdbp|]. split; [|split; [reflexivity|]].
  - apply simulate_dealer_hand_all_or_nothing in Hdbp. exact Hdbp.
  - unfold AI.play_hand. rewrite Hrec, Hdbp. reflexivity.
Qed.

Lemma play_hand_reports_its_inputs_witness :
  exists act dbp,
    AI.play_hand 17 ai_tens hard16 c10H
    = Ok (act, AI.mkProbabilities (calculate_bust_probability (AI.deck ai_tens) hard16) dbp,
          AI.mkAI (AI.deck ai_tens) 0 0%Q (0 + 1)).
Proof.
  destruct (play_hand_reports_its_inputs 17 ai_tens hard16 c10H) as (act & dbp & H);
    [lia | discriminate |].
  exists act, dbp. apply H.
Defined.

(** ** What a seat's turn changes *)

Lemma play_frame_refl (i : nat) (w : Sim.World) : play_frame i w w.
Proof.
  do 4 (split; [reflexivity|]). split; [|split; [reflexivity|split; [reflexivity|]]].
  - intros p Hp. exists p, 0%nat. repeat split; try assumption.
    change (inject_Z (2 ^ Z.of_nat 0)) with 1%Q. ring.
  - exists []. rewrite app_nil_r. split; [reflexivity|constructor].
Qed.

Lemma play_frame_trans (i : nat) (w w1 w2 : Sim.World) :
  play_frame i w w1 -> play_frame i w1 w2 -> play_frame i w w2.
Proof.
  intros (R1 & L1 & A1 & O1 & S1 & C1 & G1 & t1 & T1 & D1)
         (R2 & L2 & A2 & O2 & S2 & C2 & G2 & t2 & T2 & D2).
  split; [congruence|]. split; [congruence|]. split; [congruence|].
  split; [intros j Hj; rewrite O2, O1 by assumption; reflexivity|].
  split; [|split; [intros a; rewrite C2, C1; reflexivity
                  |split; [intros a; rewrite G2, G1; reflexivity|]]].
  2:{ exists (t1 ++ t2). split; [rewrite T2, T1, <- app_assoc; reflexivity|].
      apply Forall_app. split; assumption. }
  intros p Hp. destruct (S1 p Hp) as (p1 & k1 & Hp1 & (Ha1 & Hs1 & Hm1) & Hb1 & Hbet1).
  destruct (S2 p1 Hp1) as (p2 & k2 & Hp2 & (Ha2 & Hs2 & Hm2) & Hb2 & Hbet2).
  exists p2, (k1 + k2)%nat. split; [exact Hp2|].
  split; [repeat split; congruence|]. split; [congruence|].
  rewrite Hbet2, Hbet1, Nat2Z.inj_add, Z.pow_add_r by lia.
  rewrite inject_Z_mult. ring.
Qed.

Lemma drawn_by_snoc (a : nat) (t : list Sim.Event) (e : Sim.Event) :
  drawn_by a (t ++ [e]) =
  drawn_by a t ++ match e with
                  | Sim.EDraw a' c => if decide (a' = a) then [c] else []
                  | _ => []
                  end.
Proof.
  unfold drawn_by. rewrite omap_app. f_equal.
  destruct e as [a' c| |]; cbn; try reflexivity. destruct (decide (a' = a)); reflexivity.
Qed.

(** A world that differs in the oracle only. *)
Lemma play_frame_same (i : nat) (w w1 : Sim.World) :
  Sim.ais w1 = Sim.ais w -> Sim.players w1 = Sim.players w ->
  Sim.trace w1 = Sim.trace w -> Sim.results w1 = Sim.results w ->
  play_frame i w w1.
Proof.
  intros Ha Hp Ht Hr. unfold play_frame, shoe_ledger. rewrite Ha, Hp, Ht, Hr.
  apply play_frame_refl.
Qed.

Lemma draw_from_Ok (a : nat) (w w1 : Sim.World) (c : Card) :
  Sim.draw_from a w = Ok (c, w1) ->
  exists x d1, Sim.ais w !! a = Some x /\ Sim.deck x = d1 ++ [c]
    /\ w1 = Sim.mkWorld (<[a := Sim.mkAI d1 (Sim.card_counter x)]> (Sim.ais w))
              (Sim.players w) (Sim.rng w) (Sim.results w) (Sim.trace w ++ [Sim.EDraw a c]).
Proof.
  unfold Sim.draw_from. intros H.
  apply bind_Ok in H. destruct H as (x & w0 & Hx & H).
  apply get_ai_Ok in Hx. destruct Hx as [-> Hx].
  unfold draw in H. destruct (pop (Sim.deck x)) as [[d1 c']|] eqn:Hpop; [|discriminate].
  apply pop_Some in Hpop.
  apply bind_Ok in H. destruct H as (u1 & wa & H1 & H).
  apply bind_Ok in H. destruct H as (u2 & wb & H2 & H).
  apply ret_Ok in H. injection H as -> ->.
  injection H1 as _ <-. injection H2 as _ <-.
  exists x, d1. repeat split; assumption.
Qed.

Lemma player_draw_Ok (i : nat) (w w1 : Sim.World) (c : Card) :
  Sim.player_draw i w = Ok (c, w1) ->
  exists p x d1, Sim.players w !! i = Some p /\ Sim.ais w !! Sim.ai p = Some x
    /\ Sim.deck x = d1 ++ [c]
    /\ w1 = Sim.mkWorld (<[Sim.ai p := Sim.mkAI d1 (Sim.card_counter x)]> (Sim.ais w))
              (Sim.players w) (Sim.rng w) (Sim.results w)
              (Sim.trace w ++ [Sim.EDraw (Sim.ai p) c]).
Proof.
  unfold Sim.player_draw. intros H.
  apply bind_Ok in H. destruct H as (p & w0 & Hp & H).
  apply get_player_Ok in Hp. destruct Hp as [-> Hp].
  apply draw_from_Ok in H. destruct H as (x & d1 & Hx & Hd & ->).
  exists p, x, d1. repeat split; assumption.
Qed.

Lemma draw_play_frame (i a : nat) (w : Sim.World) (x : Sim.BlackjackAI)
  (d1 : list Card) (c : Card) :
  Sim.ais w !! a = Some x -> Sim.deck x = d1 ++ [c] ->
  play_frame i w
    (Sim.mkWorld (<[a := Sim.mkAI d1 (Sim.card_counter x)]> (Sim.ais w))
       (Sim.players w) (Sim.rng w) (Sim.results w) (Sim.trace w ++ [Sim.EDraw a c])).
Proof.
  intros Hx Hd.
  assert (a < length (Sim.ais w))%nat as Hlt by (eapply lookup_lt_Some; eassumption).
  unfold play_frame. cbn [Sim.results Sim.players Sim.ais Sim.trace].
  split; [reflexivity|]. split; [reflexivity|]. split; [apply length_insert|].
  split; [reflexivity|]. split; [|split; [|split]].
  4:{ exists [Sim.EDraw a c]. split; [reflexivity|repeat constructor]. }
  - intros p Hp. exists p, 0%nat. repeat split; try assumption.
    change (inject_Z (2 ^ Z.of_nat 0)) with 1%Q. ring.
  - intros a'. destruct (decide (a = a')) as [<-|Hne].
    + rewrite list_lookup_insert_eq by assumption. rewrite Hx. reflexivity.
    + rewrite list_lookup_insert_ne by assumption. reflexivity.
  - intros a'. unfold shoe_ledger. cbn [Sim.ais Sim.trace]. rewrite drawn_by_snoc.
    destruct (decide (a = a')) as [<-|Hne].
    + rewrite list_lookup_insert_eq by assumption. rewrite Hx.
      cbn [fmap option_fmap option_map Sim.deck].
      rewrite Hd, rev_app_distr. cbn [rev app].
      rewrite <- app_assoc. reflexivity.
    + rewrite list_lookup_insert_ne by assumption.
      rewrite app_nil_r. reflexivity.
Qed.

Lemma player_draw_play_frame (i j : nat) (w w1 : Sim.World) (c : Card) :
  Sim.player_draw j w = Ok (c, w1) -> play_frame i w w1.
Proof.
  intros H. apply player_draw_Ok in H. destruct H as (p & x & d1 & _ & Hx & Hd & ->).
  apply draw_play_frame; assumption.
Qed.

Lemma decide_m_play_frame (i j : nat) (hand dealer : Hand) (w w1 : Sim.World) (d : Action) :
  Sim.decide_m j hand dealer w = Ok (d, w1) -> play_frame i w w1.
Proof.
  intros H. apply decide_m_frame in H. destruct H as (Ha & Hp & Ht & Hr).
  apply play_frame_same; assumption.
Qed.

Lemma double_bet_play_frame (i : nat) (w w1 : Sim.World) (u : unit) :
  Sim.double_bet i w = Ok (u, w1) -> play_frame i w w1.
Proof.
  unfold Sim.double_bet. intros H.
  apply bind_Ok in H. destruct H as (p & w0 & Hp & H).
  apply get_player_Ok in Hp. destruct Hp as [-> Hp]. injection H as _ <-.
  assert (i < length (Sim.players w))%nat as Hlt by (eapply lookup_lt_Some; eassumption).
  unfold play_frame, shoe_ledger. cbn [Sim.results Sim.players Sim.ais Sim.trace].
  split; [reflexivity|]. split; [apply length_insert|]. split; [reflexivity|].
  split; [intros j Hj; apply list_lookup_insert_ne; congruence|].
  split; [|split; [reflexivity|split; [reflexivity|]]].
  2:{ exists []. rewrite app_nil_r. split; [reflexivity|constructor]. }
  intros p' Hp'. rewrite Hp in Hp'. injection Hp' as <-.
  eexists _, 1%nat. split; [apply list_lookup_insert_eq; assumption|].
  cbn [Sim.ai Sim.skill_level Sim.ml_model Sim.bankroll Sim.bet_size].
  split; [repeat split|]. split; [reflexivity|].
  change (inject_Z (2 ^ Z.of_nat 1)) with 2%Q. reflexivity.
Qed.

Lemma turn_loop_play_frame (fuel i k : nat) (dealer : Hand) (hands hands1 : list Hand)
  (w w1 : Sim.World) :
  Sim.turn_loop fuel i k dealer hands w = Ok (hands1, w1) -> play_frame i w w1.
Proof.
  revert hands w. induction fuel as [|fuel IH]; intros hands w; [discriminate|].
  cbn [Sim.turn_loop]. destruct (hands !! k) as [hand|]; [|discriminate].
  intros H. apply bind_Ok in H. destruct H as (d & w0 & Hd & H).
  apply (decide_m_play_frame i) in Hd.
  apply (play_frame_trans i w w0 w1 Hd). clear Hd.
  destruct d.
  - apply bind_Ok in H. destruct H as (c & w2 & Hc & H).
    apply (player_draw_play_frame i) in Hc.
    apply (play_frame_trans i w0 w2 w1 Hc).
    destruct (21 <? hand_value (hand ++ [c])).
    + apply ret_Ok in H. injection H as _ ->. apply play_frame_refl.
    + eapply IH. exact H.
  - apply ret_Ok in H. injection H as _ ->. apply play_frame_refl.
  - destruct (length hand =? 2)%nat.
    + apply bind_Ok in H. destruct H as (u & w2 & Hb & H).
      apply bind_Ok in H. destruct H as (c & w3 & Hc & H).
      apply ret_Ok in H. injection H as _ ->.
      apply double_bet_play_frame in Hb. apply (player_draw_play_frame i) in Hc.
      exact (play_frame_trans i w0 w2 w3 Hb Hc).
    + eapply IH. exact H.
  - destruct (can_split hand && (length hands <? 4)%nat).
    + destruct (pop hand) as [[hand1 moved]|]; [|discriminate].
      apply bind_Ok in H. destruct H as (c1 & w2 & Hc1 & H).
      apply bind_Ok in H. destruct H as (c2 & w3 & Hc2 & H).
      apply (player_draw_play_frame i) in Hc1. apply (player_draw_play_frame i) in Hc2.
      apply (play_frame_trans i w0 w2 w1 Hc1). apply (play_frame_trans i w2 w3 w1 Hc2).
      eapply IH. exact H.
    + eapply IH. exact H.
Qed.

Lemma hands_loop_play_frame (fuel n i k : nat) (dealer : Hand) (hands hands1 : list Hand)
  (w w1 : Sim.World) :
  Sim.hands_loop fuel n i k dealer hands w = Ok (hands1, w1) -> play_frame i w w1.
Proof.
  revert k hands w. induction n as [|n IH]; intros k hands w; [discriminate|].
  cbn [Sim.hands_loop]. destruct (k <? length hands)%nat.
  - intros H. apply bind_Ok in H. destruct H as (hands0 & w0 & H0 & H).
    apply turn_loop_play_frame in H0. apply IH in H.
    exact (play_frame_trans i w w0 w1 H0 H).
  - intros H. apply ret_Ok in H. injection H as _ ->. apply play_frame_refl.
Qed.

Lemma dealer_loop_play_frame (fuel i : nat) (dealer dealer1 : Hand) (w w1 : Sim.World) :
  Sim.dealer_loop fuel i dealer w = Ok (dealer1, w1) -> play_frame i w w1.
Proof.
  revert dealer w. induction fuel as [|fuel IH]; intros dealer w; [discriminate|].
  cbn [Sim.dealer_loop]. destruct (hand_value dealer <? 17).
  - intros H. apply bind_Ok in H. destruct H as (c & w0 & Hc & H).
    apply (player_draw_play_frame i) in Hc. apply IH in H.
    exact (play_frame_trans i w w0 w1 Hc H).
  - intros H. apply ret_Ok in H. injection H as _ ->. apply play_frame_refl.
Qed.

(** ** Hands of a seat *)

Lemma can_split_two (h : Hand) :
  can_split h = true -> exists c0 c1, h = [c0; c1] /\ pop h = Some ([c0], c1).
Proof.
  destruct h as [|c0 [|c1 [|? ?]]]; simpl; try discriminate. intros _. eauto.
Qed.

Lemma turn_loop_cap (fuel i k : nat) (dealer : Hand) (hands hands1 : list Hand)
  (w w1 : Sim.World) :
  Sim.turn_loop fuel i k dealer hands w = Ok (hands1, w1) ->
  (length hands <= 4)%nat -> Forall (fun h => 2 <= length h)%nat hands ->
  (length hands <= length hands1 <= 4)%nat /\ Forall (fun h => 2 <= length h)%nat hands1.
Proof.
  revert hands w. induction fuel as [|fuel IH]; intros hands w; [discriminate|].
  cbn [Sim.turn_loop]. destruct (hands !! k) as [hand|] eqn:Hk; [|discriminate].
  intros H Hcap Hall. apply bind_Ok in H. destruct H as (d & w0 & _ & H).
  assert (2 <= length hand)%nat as Hhand.
  { rewrite Forall_forall in Hall. apply Hall. eapply list_elem_of_lookup_2. exact Hk. }
  assert (forall c, Forall (fun h => 2 <= length h)%nat (<[k := hand ++ [c]]> hands)) as Hins.
  { intros c. apply Forall_insert; [exact Hall|]. rewrite length_app. simpl. lia. }
  destruct d.
  - apply bind_Ok in H. destruct H as (c & w2 & _ & H).
    destruct (21 <? hand_value (hand ++ [c])).
    + apply ret_Ok in H. injection H as -> _. rewrite length_insert. split; [lia|apply Hins].
    + apply IH in H; [|rewrite length_insert; exact Hcap|apply Hins].
      rewrite length_insert in H. exact H.
  - apply ret_Ok in H. injection H as -> _. split; [lia|exact Hall].
  - destruct (length hand =? 2)%nat.
    + apply bind_Ok in H. destruct H as (u & w2 & _ & H).
      apply bind_Ok in H. destruct H as (c & w3 & _ & H).
      apply ret_Ok in H. injection H as -> _. rewrite length_insert. split; [lia|apply Hins].
    + apply IH in H; assumption.
  - destruct (can_split hand && (length hands <? 4)%nat) eqn:Hs.
    + apply andb_true_iff in Hs. destruct Hs as [Hs Hlt]. apply Nat.ltb_lt in Hlt.
      destruct (can_split_two hand Hs) as (c0 & c1 & -> & Hpop). rewrite Hpop in H.
      apply bind_Ok in H. destruct H as (d1 & w2 & _ & H).
      apply bind_Ok in H. destruct H as (d2 & w3 & _ & H).
      apply IH in H.
      * rewrite length_app, length_insert in H. simpl in H. split; [lia|tauto].
      * rewrite length_app, length_insert. simpl. lia.
      * apply Forall_app. split; [apply Forall_insert; [exact Hall|simpl; lia]|].
        repeat constructor.
    + apply IH in H; assumption.
Qed.

Lemma hands_loop_cap (fuel n i k : nat) (dealer : Hand) (hands hands1 : list Hand)
  (w w1 : Sim.World) :
  Sim.hands_loop fuel n i k dealer hands w = Ok (hands1, w1) ->
  (length hands <= 4)%nat -> Forall (fun h => 2 <= length h)%nat hands ->
  (length hands <= length hands1 <= 4)%nat /\ Forall (fun h => 2 <= length h)%nat hands1.
Proof.
  revert k hands w. induction n as [|n IH]; intros k hands w; [discriminate|].
  cbn [Sim.hands_loop]. destruct (k <? length hands)%nat.
  - intros H Hcap Hall. apply bind_Ok in H. destruct H as (hands0 & w0 & H0 & H).
    apply turn_loop_cap in H0; [|assumption..]. destruct H0 as [Hl0 Ha0].
    apply IH in H; [|lia|assumption]. split; [lia|tauto].
  - intros H Hcap Hall. apply ret_Ok in H. injection H as -> _. split; [lia|exact Hall].
Qed.

(** ** The dealer *)

Lemma dealer_loop_stands (fuel i : nat) (dealer dealer1 : Hand) (w w1 : Sim.World) :
  Sim.dealer_loop fuel i dealer w = Ok (dealer1, w1) ->
  17 <= hand_value dealer1
  /\ exists extra, dealer1 = dealer ++ extra
       /\ (17 <= hand_value dealer -> extra = [] /\ w1 = w)
       /\ (forall n, (n < length extra)%nat -> hand_value (dealer ++ take n extra) < 17).
Proof.
  revert dealer w. induction fuel as [|fuel IH]; intros dealer w; [discriminate|].
  cbn [Sim.dealer_loop]. destruct (hand_value dealer <? 17) eqn:E.
  - apply Z.ltb_lt in E. intros H. apply bind_Ok in H. destruct H as (c & w0 & _ & H).
    apply IH in H. destruct H as (Hv & extra & -> & _ & Hpre).
    split; [exact Hv|]. exists (c :: extra). split; [rewrite <- app_assoc; reflexivity|].
    split; [lia|].
    intros [|n] Hn; [cbn [take]; rewrite app_nil_r; exact E|].
    cbn [take]. specialize (Hpre n ltac:(simpl in Hn; lia)).
    rewrite <- app_assoc in Hpre. exact Hpre.
  - apply Z.ltb_ge in E. intros H. apply ret_Ok in H. injection H as -> ->.
    split; [exact E|]. exists []. rewrite app_nil_r. split; [reflexivity|].
    split; [tauto|]. intros n Hn. simpl in Hn. lia.
Qed.





(** ** Settlement *)

Lemma outcome_range (dealer hand : Hand) : -1 <= outcome dealer hand <= 1.
Proof.
  unfold outcome. destruct (21 <? hand_value hand); [lia|].
  destruct (21 <? hand_value dealer); [lia|].
  pose proof (Z.sgn_spec (hand_value hand - hand_value dealer)). lia.
Qed.

Lemma settle_bankroll_outcome (p : Sim.PlayerSimulator) (dealer hand : Hand) :
  (Sim.settle_bankroll p dealer hand
   == Sim.bankroll p + Sim.bet_size p * inject_Z (outcome dealer hand))%Q.
Proof.
  unfold Sim.settle_bankroll, outcome.
  destruct (21 <? hand_value hand) eqn:E1; [change (inject_Z (-1)) with (-1)%Q; ring|].
  destruct (21 <? hand_value dealer) eqn:E2; cbn [orb];
    [change (inject_Z 1) with 1%Q; ring|].
  destruct (hand_value dealer <? hand_value hand) eqn:E3; reflect_bools.
  - rewrite Z.sgn_pos by lia. change (inject_Z 1) with 1%Q. ring.
  - destruct (hand_value hand <? hand_value dealer) eqn:E4; reflect_bools.
    + rewrite Z.sgn_neg by lia. change (inject_Z (-1)) with (-1)%Q. ring.
    + rewrite Z.sgn_null by lia. change (inject_Z 0) with 0%Q. ring.
Qed.

Lemma settle_all_Ok (i : nat) (dealer : Hand) (hands : list Hand) (w w1 : Sim.World)
  (u : unit) (p : Sim.PlayerSimulator) :
  Sim.players w !! i = Some p ->
  Sim.settle_all i dealer hands w = Ok (u, w1) ->
  exists B,
    (B == Sim.bankroll p + Sim.bet_size p * inject_Z (net_outcome dealer hands))%Q
    /\ w1 = Sim.mkWorld (Sim.ais w)
              (<[i := Sim.mkPlayer (Sim.ai p) (Sim.skill_level p) B (Sim.bet_size p)
                        (Sim.ml_model p)]> (Sim.players w))
              (Sim.rng w) (Sim.results w) (Sim.trace w ++ map (Sim.ESettle i) hands).
Proof.
  revert w p. induction hands as [|hand hands IH]; intros w p Hp; cbn [Sim.settle_all map].
  - intros H. apply ret_Ok in H. injection H as _ ->.
    exists (Sim.bankroll p). split.
    + change (inject_Z (net_outcome dealer [])) with 0%Q. ring.
    + rewrite app_nil_r. destruct p. cbn. rewrite list_insert_id by exact Hp.
      destruct w; reflexivity.
  - intros H. apply bind_Ok in H. destruct H as (u0 & w0 & H0 & H).
    unfold Sim.settle_hand in H0.
    apply bind_Ok in H0. destruct H0 as (p' & wa & Hp' & H0).
    apply get_player_Ok in Hp'. destruct Hp' as [-> Hp']. rewrite Hp in Hp'.
    injection Hp' as <-.
    apply bind_Ok in H0. destruct H0 as (u1 & wb & Hs & He).
    injection Hs as _ <-. injection He as _ <-.
    assert (i < length (Sim.players w))%nat as Hlt by (eapply lookup_lt_Some; eassumption).
    apply (IH _ (Sim.mkPlayer (Sim.ai p) (Sim.skill_level p)
                   (Sim.settle_bankroll p dealer hand) (Sim.bet_size p) (Sim.ml_model p)))
      in H; [|cbn; apply list_lookup_insert_eq; assumption].
    destruct H as (B & HB & ->). exists B. split.
    + rewrite HB. cbn [Sim.bankroll Sim.bet_size]. rewrite settle_bankroll_outcome.
      cbn [net_outcome foldr]. fold (net_outcome dealer hands).
      rewrite inject_Z_plus. ring.
    + cbn. rewrite list_insert_insert_eq, <- app_assoc. reflexivity.
Qed.

(** X13. Every hand of a seat is settled at the bet the seat holds at that
    moment: settling changes the seat's bankroll by that bet times the sum
    of the hands' results, where a result is -1, 0 or 1, a hand over 21
    loses even against a bust dealer, otherwise a bust dealer pays, and
    otherwise the higher total wins with equal totals a push. The bet, the
    other players and the shoes are not touched. *)
Theorem settlement_is_bet_times_net (i : nat) (dealer : Hand) (hands : list Hand)
  (w w1 : Sim.World) (p : Sim.PlayerSimulator) :
  Sim.players w !! i = Some p ->
  Sim.settle_all i dealer hands w = Ok (tt, w1) ->
  (exists p1,
     Sim.players w1 !! i = Some p1
     /\ (Sim.bankroll p1
         == Sim.bankroll p + Sim.bet_size p * inject_Z (net_outcome dealer hands))%Q
     /\ Sim.bet_size p1 = Sim.bet_size p /\ same_seat p p1)
  /\ (forall j, j <> i -> Sim.players w1 !! j = Sim.players w !! j)
  /\ Sim.ais w1 = Sim.ais w
  /\ (forall h, -1 <= outcome dealer h <= 1)
  /\ (forall h, 21 < hand_value h -> outcome dealer h = -1)
  /\ (forall h, hand_value h <= 21 -> 21 < hand_value dealer -> outcome dealer h = 1)
  /\ (forall h, hand_value h <= 21 -> hand_value dealer <= 21 ->
        outcome dealer h = Z.sgn (hand_value h - hand_value dealer)).
Proof.
  intros Hp H.
  assert (i < length (Sim.players w))%nat as Hlt by (eapply lookup_lt_Some; eassumption).
  apply (settle_all_Ok _ _ _ _ _ _ p Hp) in H. destruct H as (B & HB & ->).
  cbn [Sim.players Sim.ais].
  split; [|split; [|split; [reflexivity|split; [intros h; apply outcome_range|]]]].
  - eexists. split; [apply list_lookup_insert_eq; assumption|].
    cbn. split; [exact HB|]. repeat split.
  - intros j Hj. apply list_lookup_insert_ne. congruence.
  - unfold outcome. repeat split; intros h.
    + intros Hb. apply Z.ltb_lt in Hb. rewrite Hb. reflexivity.
    + intros Hh Hd. apply Z.ltb_ge in Hh. apply Z.ltb_lt in Hd. rewrite Hh, Hd. reflexivity.
    + intros Hh Hd. apply Z.ltb_ge in Hh. apply Z.ltb_ge in Hd. rewrite Hh, Hd. reflexivity.
Qed.

(** ** A seat's turn, end to end *)

Lemma reset_bet_Ok (i : nat) (w w1 : Sim.World) (u : unit) (p : Sim.PlayerSimulator) :
  Sim.players w !! i = Some p ->
  Sim.reset_bet i w = Ok (u, w1) ->
  w1 = Sim.mkWorld (Sim.ais w)
         (<[i := Sim.mkPlayer (Sim.ai p) (Sim.skill_level p) (Sim.bankroll p) 10%Q
                   (Sim.ml_model p)]> (Sim.players w))
         (Sim.rng w) (Sim.results w) (Sim.trace w).
Proof.
  intros Hp H. unfold Sim.reset_bet in H.
  apply bind_Ok in H. destruct H as (p' & wa & Hp' & H).
  apply get_player_Ok in Hp'. destruct Hp' as [-> Hp']. rewrite Hp in Hp'.
  injection Hp' as <-. injection H as _ <-. reflexivity.
Qed.

Lemma update_all_Ok (i : nat) (cards : list Card) (w w1 : Sim.World) (u : unit)
  (p : Sim.PlayerSimulator) (x : Sim.BlackjackAI) :
  Sim.players w !! i = Some p -> Sim.ais w !! Sim.ai p = Some x ->
  Sim.update_all i cards w = Ok (u, w1) ->
  w1 = Sim.mkWorld
         (<[Sim.ai p := Sim.mkAI (Sim.deck x) (run_counter (Sim.card_counter x) cards)]>
            (Sim.ais w))
         (Sim.players w) (Sim.rng w) (Sim.results w)
         (Sim.trace w ++ map (Sim.EUpdate (Sim.ai p)) cards).
Proof.
  revert w x. induction cards as [|card cards IH]; intros w x Hp Hx; cbn [Sim.update_all map].
  - intros H. apply ret_Ok in H. injection H as _ ->.
    rewrite app_nil_r. cbn [run_counter foldl]. destruct x. cbn.
    rewrite list_insert_id by exact Hx. destruct w; reflexivity.
  - intros H. apply bind_Ok in H. destruct H as (u0 & w0 & H0 & H).
    unfold Sim.update_m in H0.
    apply bind_Ok in H0. destruct H0 as (p' & wa & Hp' & H0).
    apply get_player_Ok in Hp'. destruct Hp' as [-> Hp']. rewrite Hp in Hp'.
    injection Hp' as <-.
    apply bind_Ok in H0. destruct H0 as (x' & wb & Hx' & H0).
    apply get_ai_Ok in Hx'. destruct Hx' as [-> Hx']. rewrite Hx in Hx'.
    injection Hx' as <-.
    apply bind_Ok in H0. destruct H0 as (u1 & wc & Hs & He).
    injection Hs as _ <-. injection He as _ <-.
    assert (Sim.ai p < length (Sim.ais w))%nat as Hlt by (eapply lookup_lt_Some; eassumption).
    apply (IH _ (Sim.mkAI (Sim.deck x) (Sim.update (Sim.card_counter x) card))) in H;
      [|exact Hp|cbn; apply list_lookup_insert_eq; assumption].
    subst w1. cbn. rewrite list_insert_insert_eq, <- app_assoc. reflexivity.
Qed.

Lemma drawn_by_app (a : nat) (t1 t2 : list Sim.Event) :
  drawn_by a (t1 ++ t2) = drawn_by a t1 ++ drawn_by a t2.
Proof. apply omap_app. Qed.

Lemma drawn_by_settles (a i : nat) (hs : list Hand) : drawn_by a (map (Sim.ESettle i) hs) = [].
Proof. induction hs; [reflexivity|assumption]. Qed.

Lemma drawn_by_updates (a b : nat) (cs : list Card) : drawn_by a (map (Sim.EUpdate b) cs) = [].
Proof. induction cs; [reflexivity|assumption]. Qed.

(** The stages of a seat's turn: the play (two cards, the hands, the
    dealer), then the settlement, the bet reset and the counter updates. *)
Lemma play_seat_anatomy (fuel : nat) (european : bool) (i : nat) (dealer dealer1 : Hand)
  (w w1 : Sim.World) :
  Sim.play_seat fuel european i dealer w = Ok (dealer1, w1) ->
  exists hands we wf wg,
    play_frame i w we
    /\ (1 <= length hands <= 4)%nat /\ Forall (fun h => 2 <= length h)%nat hands
    /\ 17 <= hand_value dealer1
    /\ (exists extra, dealer1 = dealer ++ extra
          /\ (european = true -> extra <> [])
          /\ (european = false -> 17 <= hand_value dealer -> extra = []))
    /\ Sim.settle_all i dealer1 hands we = Ok (tt, wf)
    /\ Sim.reset_bet i wf = Ok (tt, wg)
    /\ Sim.update_all i (dealer1 ++ concat hands) wg = Ok (tt, w1).
Proof.
  unfold Sim.play_seat. intros H.
  apply bind_Ok in H. destruct H as (c1 & wa & Hc1 & H).
  apply bind_Ok in H. destruct H as (c2 & wb & Hc2 & H).
  apply bind_Ok in H. destruct H as (hands & wc & Hh & H).
  apply bind_Ok in H. destruct H as (dealerE & wd & He & H).
  apply bind_Ok in H. destruct H as (dealer2 & we & Hd & H).
  apply bind_Ok in H. destruct H as ([] & wf & Hs & H).
  apply bind_Ok in H. destruct H as ([] & wg & Hr & H).
  apply bind_Ok in H. destruct H as ([] & wh & Hu & H).
  apply ret_Ok in H. injection H as -> ->.
  exists hands, we, wf, wg.
  assert (play_frame i wc wd
          /\ exists e0, dealerE = dealer ++ e0 /\ (european = true -> e0 <> [])
                        /\ (european = false -> e0 = [] /\ wd = wc)) as (Hfe & e0 & -> & He1 & He2).
  { destruct european.
    - apply bind_Ok in He. destruct He as (c & wx & Hc & He).
      apply ret_Ok in He. injection He as -> ->.
      split; [eapply player_draw_play_frame; exact Hc|].
      exists [c]. split; [reflexivity|]. split; [discriminate|discriminate].
    - apply ret_Ok in He. injection He as -> ->.
      split; [apply play_frame_refl|]. exists []. rewrite app_nil_r.
      split; [reflexivity|]. split; [discriminate|]. intros _. split; reflexivity. }
  pose proof (dealer_loop_stands _ _ _ _ _ _ Hd) as (Hv & extra & -> & Hst & _).
  split; [|split; [|split; [|split; [exact Hv|split; [|tauto]]]]].
  - eapply play_frame_trans; [eapply player_draw_play_frame; exact Hc1|].
    eapply play_frame_trans; [eapply player_draw_play_frame; exact Hc2|].
    eapply play_frame_trans; [eapply hands_loop_play_frame; exact Hh|].
    eapply play_frame_trans; [exact Hfe|].
    eapply dealer_loop_play_frame; exact Hd.
  - apply hands_loop_cap in Hh; [simpl in Hh; lia|simpl; lia|repeat constructor].
  - apply hands_loop_cap in Hh; [tauto|simpl; lia|repeat constructor].
  - exists (e0 ++ extra). split; [rewrite app_assoc; reflexivity|]. split.
    + intros Heu. specialize (He1 Heu). destruct e0; [contradiction|discriminate].
    + intros Heu Hd17. destruct (He2 Heu) as [-> _]. rewrite app_nil_r in Hst.
      destruct (Hst Hd17) as [-> _]. reflexivity.
Qed.

Lemma play_seat_seated (fuel : nat) (european : bool) (i : nat) (dealer dealer1 : Hand)
  (w w1 : Sim.World) :
  Sim.play_seat fuel european i dealer w = Ok (dealer1, w1) ->
  exists p x, Sim.players w !! i = Some p /\ Sim.ais w !! Sim.ai p = Some x.
Proof.
  unfold Sim.play_seat. intros H.
  apply bind_Ok in H. destruct H as (c1 & wa & Hc1 & _).
  apply player_draw_Ok in Hc1. destruct Hc1 as (p & x & d1 & Hp & Hx & _).
  eauto.
Qed.

(** The world a seat's turn leaves behind, written out. *)
Lemma play_seat_final_world (fuel : nat) (european : bool) (i : nat)
  (dealer dealer1 : Hand) (w w1 : Sim.World) (p : Sim.PlayerSimulator)
  (x : Sim.BlackjackAI) :
  Sim.players w !! i = Some p -> Sim.ais w !! Sim.ai p = Some x ->
  Sim.play_seat fuel european i dealer w = Ok (dealer1, w1) ->
  exists hands we xe k B,
    play_frame i w we
    /\ (1 <= length hands <= 4)%nat /\ Forall (fun h => 2 <= length h)%nat hands
    /\ Sim.ais we !! Sim.ai p = Some xe /\ Sim.card_counter xe = Sim.card_counter x
    /\ (B == Sim.bankroll p
             + (Sim.bet_size p * inject_Z (2 ^ Z.of_nat k))
               * inject_Z (net_outcome dealer1 hands))%Q
    /\ w1 = Sim.mkWorld
              (<[Sim.ai p := Sim.mkAI (Sim.deck xe)
                               (run_counter (Sim.card_counter x) (dealer1 ++ concat hands))]>
                 (Sim.ais we))
              (<[i := Sim.mkPlayer (Sim.ai p) (Sim.skill_level p) B 10%Q (Sim.ml_model p)]>
                 (Sim.players we))
              (Sim.rng we) (Sim.results we)
              (Sim.trace we ++ map (Sim.ESettle i) hands
                 ++ map (Sim.EUpdate (Sim.ai p)) (dealer1 ++ concat hands)).
Proof.
  intros Hp Hx H.
  apply play_seat_anatomy in H.
  destruct H as (hands & we & wf & wg & Hpf & Hlen & Hall & _ & _ & Hs & Hr & Hu).
  pose proof Hpf as (_ & _ & _ & _ & S & C & _ & _).
  destruct (S p Hp) as (pe & k & Hpe & (Ha & Hsk & Hml) & Hbank & Hbet).
  specialize (C (Sim.ai p)). rewrite Hx in C.
  destruct (Sim.ais we !! Sim.ai p) as [xe|] eqn:Hxe; [|discriminate].
  cbn in C. injection C as Hcc.
  assert (i < length (Sim.players we))%nat as Hlt by (eapply lookup_lt_Some; eassumption).
  apply (settle_all_Ok _ _ _ _ _ _ pe Hpe) in Hs. destruct Hs as (B & HB & ->).
  eapply reset_bet_Ok in Hr; [|cbn [Sim.players]; apply list_lookup_insert_eq; exact Hlt].
  subst wg. cbn [Sim.players Sim.ais Sim.rng Sim.results Sim.trace Sim.ai Sim.skill_level
                 Sim.bankroll Sim.ml_model] in Hu.
  rewrite list_insert_insert_eq in Hu.
  eapply (update_all_Ok _ _ _ _ _ _ xe) in Hu;
    [|cbn [Sim.players]; apply list_lookup_insert_eq; exact Hlt
     |cbn [Sim.ais Sim.ai]; rewrite Ha; exact Hxe].
  cbn [Sim.players Sim.ais Sim.rng Sim.results Sim.trace Sim.ai] in Hu.
  exists hands, we, xe, k, B.
  split; [exact Hpf|]. split; [exact Hlen|]. split; [exact Hall|].
  split; [exact Hxe|]. split; [exact Hcc|]. split.
  - rewrite HB, Hbank, Hbet. reflexivity.
  - rewrite Hu, Ha, Hsk, Hml, Hcc, <- app_assoc. reflexivity.
Qed.

Lemma updated_updates (a : nat) (cs : list Card) : updated (map (Sim.EUpdate a) cs) = cs.
Proof. induction cs as [|c cs IH]; [reflexivity|]. cbn. f_equal. exact IH. Qed.

Lemma ledger_decks (a : nat) (w w1 : Sim.World) (t : list Sim.Event) (x : Sim.BlackjackAI) :
  shoe_ledger a w1 = shoe_ledger a w -> Sim.trace w1 = Sim.trace w ++ t ->
  Sim.ais w !! a = Some x ->
  exists x1, Sim.ais w1 !! a = Some x1 /\ Sim.deck x = Sim.deck x1 ++ rev (drawn_by a t).
Proof.
  unfold shoe_ledger. intros HL Ht Hx. rewrite Hx, Ht in HL.
  destruct (Sim.ais w1 !! a) as [x1|]; [|discriminate].
  exists x1. split; [reflexivity|]. cbn in HL. injection HL as HL.
  rewrite drawn_by_app, rev_app_distr, app_assoc in HL.
  apply app_inv_tail in HL. symmetry. exact HL.
Qed.

(** Everything a seat's turn does to the world, in one place. *)
Lemma play_seat_summary (fuel : nat) (european : bool) (i : nat)
  (dealer dealer1 : Hand) (w w1 : Sim.World) (p : Sim.PlayerSimulator)
  (x : Sim.BlackjackAI) :
  Sim.players w !! i = Some p -> Sim.ais w !! Sim.ai p = Some x ->
  Sim.play_seat fuel european i dealer w = Ok (dealer1, w1) ->
  exists hands k tn p1 x1,
    Sim.trace w1 = Sim.trace w ++ tn
    /\ updated tn = dealer1 ++ concat hands
    /\ (1 <= length hands <= 4)%nat /\ Forall (fun h => 2 <= length h)%nat hands
    /\ Sim.players w1 !! i = Some p1 /\ same_seat p p1 /\ Sim.bet_size p1 = 10%Q
    /\ (Sim.bankroll p1
        == Sim.bankroll p
           + (Sim.bet_size p * inject_Z (2 ^ Z.of_nat k))
             * inject_Z (net_outcome dealer1 hands))%Q
    /\ (forall j, j <> i -> Sim.players w1 !! j = Sim.players w !! j)
    /\ Sim.results w1 = Sim.results w
    /\ length (Sim.players w1) = length (Sim.players w)
    /\ length (Sim.ais w1) = length (Sim.ais w)
    /\ Sim.ais w1 !! Sim.ai p = Some x1
    /\ Sim.card_counter x1 = run_counter (Sim.card_counter x) (updated tn)
    /\ (forall a, a <> Sim.ai p ->
          Sim.card_counter <$> (Sim.ais w1 !! a) = Sim.card_counter <$> (Sim.ais w !! a))
    /\ (forall a, shoe_ledger a w1 = shoe_ledger a w).
Proof.
  intros Hp Hx H.
  destruct (play_seat_final_world _ _ _ _ _ _ _ p x Hp Hx H)
    as (hands & we & xe & k & B & Hpf & Hlen & Hall & Hxe & Hcc & HB & ->).
  destruct Hpf as (R & L & A & O & S & C & G & t & T & D).
  destruct (S p Hp) as (pe & k' & Hpe & _).
  assert (i < length (Sim.players we))%nat as Hlt by (eapply lookup_lt_Some; eassumption).
  assert (Sim.ai p < length (Sim.ais we))%nat as Hlta by (eapply lookup_lt_Some; eassumption).
  set (cards := dealer1 ++ concat hands) in *.
  exists hands, k,
    (t ++ map (Sim.ESettle i) hands ++ map (Sim.EUpdate (Sim.ai p)) cards).
  eexists _, _.
  cbn [Sim.trace Sim.players Sim.ais Sim.results].
  assert (Hupd : updated (t ++ map (Sim.ESettle i) hands
                            ++ map (Sim.EUpdate (Sim.ai p)) cards) = cards).
  { rewrite !updated_app, (updated_draws t D), updated_settles, updated_updates.
    reflexivity. }
  split; [rewrite T, <- !app_assoc; reflexivity|].
  split; [exact Hupd|]. split; [exact Hlen|]. split; [exact Hall|].
  split; [apply list_lookup_insert_eq; exact Hlt|].
  cbn [Sim.ai Sim.skill_level Sim.ml_model Sim.bet_size Sim.bankroll].
  split; [repeat split|]. split; [reflexivity|]. split; [exact HB|].
  split; [intros j Hj; rewrite list_lookup_insert_ne by congruence; apply O; exact Hj|].
  split; [exact R|]. split; [rewrite length_insert; exact L|].
  split; [rewrite length_insert; exact A|].
  split; [apply list_lookup_insert_eq; exact Hlta|].
  cbn [Sim.card_counter]. split; [rewrite Hupd; reflexivity|].
  split; [intros a Ha; rewrite list_lookup_insert_ne by congruence; apply C|].
  intros a. rewrite <- G. unfold shoe_ledger. cbn [Sim.ais Sim.trace].
  rewrite !drawn_by_app, drawn_by_settles, drawn_by_updates, !app_nil_r.
  destruct (decide (Sim.ai p = a)) as [<-|Hne].
  - rewrite list_lookup_insert_eq by exact Hlta. rewrite Hxe. reflexivity.
  - rewrite list_lookup_insert_ne by exact Hne. reflexivity.
Qed.

Lemma settlement_is_bet_times_net_witness :
  exists p1, Sim.players after_settle !! 0%nat = Some p1
    /\ (Sim.bankroll p1 == 1000 + 10 * inject_Z (net_outcome [c10S; c10H] [hard16]))%Q.
Proof.
  destruct (settlement_is_bet_times_net 0 [c10S; c10H] [hard16] one_seat_world
              after_settle expert) as ((p1 & H1 & H2 & _) & _).
  - reflexivity.
  - vm_compute. reflexivity.
  - exists p1. split; [exact H1|exact H2].
Defined.





(** X16. A seat's turn leaves the dealer's hand at 17 or more, as the hand
    it was given with cards appended. Under European rules it appends at
    least one card at every seat's turn, also to a hand that already stands;
    under American rules a hand that already stands at 17 or more is left as
    it is. *)
Theorem seat_turn_dealer (fuel : nat) (european : bool) (i : nat)
  (dealer dealer1 : Hand) (w w1 : Sim.World) :
  Sim.play_seat fuel european i dealer w = Ok (dealer1, w1) ->
  17 <= hand_value dealer1
  /\ exists extra, dealer1 = dealer ++ extra
       /\ (european = true -> extra <> [])
       /\ (european = false -> 17 <= hand_value dealer -> extra = []).
Proof.
  intros H. apply play_seat_anatomy in H.
  destruct H as (hands & we & wf & wg & _ & _ & _ & Hv & Hext & _).
  split; assumption.
Qed.

Lemma seat_turn_dealer_witness : 17 <= hand_value (fst after_seat).
Proof.
  apply (seat_turn_dealer 30 false 0 [c5S; c10H] (fst after_seat) one_seat_world
           (snd after_seat)).
  vm_compute. reflexivity.
Defined.

(** X17. A seat never holds more than four hands, and every hand it holds
    has at least two cards: the loop over a seat's hands, started on one
    two-card hand, ends with between one and four hands of two cards or
    more. *)
Theorem seat_holds_at_most_four_hands (fuel n i : nat) (dealer : Hand) (c1 c2 : Card)
  (hands1 : list Hand) (w w1 : Sim.World) :
  Sim.hands_loop fuel n i 0 dealer [[c1; c2]] w = Ok (hands1, w1) ->
  (1 <= length hands1 <= 4)%nat /\ Forall (fun h => 2 <= length h)%nat hands1.
Proof.
  intros H. apply hands_loop_cap in H; [|simpl; lia|repeat constructor].
  simpl in H. split; [lia|tauto].
Qed.

Lemma seat_holds_at_most_four_hands_witness :
  (1 <= length (fst after_hands) <= 4)%nat
  /\ Forall (fun h => 2 <= length h)%nat (fst after_hands).
Proof.
  apply (seat_holds_at_most_four_hands 30 30 0 [c5S; c10H] c10S c10H (fst after_hands)
           one_seat_world (snd after_hands)).
  vm_compute. reflexivity.
Defined.

(** X18. A seat's turn neither loses nor makes up a card: for every shoe,
    the cards it held before the turn are the cards it holds afterwards
    followed by the cards drawn from it during the turn, last drawn first. *)
Theorem seat_turn_conserves_cards (fuel : nat) (european : bool) (i : nat)
  (dealer dealer1 : Hand) (w w1 : Sim.World) (a : nat) (xa : Sim.BlackjackAI) :
  Sim.ais w !! a = Some xa ->
  Sim.play_seat fuel european i dealer w = Ok (dealer1, w1) ->
  exists tn xa1,
    Sim.trace w1 = Sim.trace w ++ tn
    /\ Sim.ais w1 !! a = Some xa1
    /\ Sim.deck xa = Sim.deck xa1 ++ rev (drawn_by a tn).
Proof.
  intros Ha H.
  destruct (play_seat_seated _ _ _ _ _ _ _ H) as (p & x & Hp & Hx).
  destruct (play_seat_summary _ _ _ _ _ _ _ p x Hp Hx H)
    as (hands & k & tn & p1 & x1 & Ht & _ & _ & _ & _ & _ & _ & _ & _ & _ & _ & _
        & _ & _ & _ & HL).
  destruct (ledger_decks a w w1 tn xa (HL a) Ht Ha) as (xa1 & H1 & H2).
  exists tn, xa1. repeat split; assumption.
Qed.

Lemma seat_turn_conserves_cards_witness :
  exists tn xa1,
    Sim.trace (snd after_seat) = Sim.trace one_seat_world ++ tn
    /\ Sim.ais (snd after_seat) !! 0%nat = Some xa1
    /\ fresh_cards 6 = Sim.deck xa1 ++ rev (drawn_by 0 tn).
Proof.
  apply (seat_turn_conserves_cards 30 false 0 [c5S; c10H] (fst after_seat) one_seat_world
           (snd after_seat) 0 (Sim.mkAI (fresh_cards 6) counter0)).
  - reflexivity.
  - vm_compute. reflexivity.
Defined.

(** ** Rounds and their results *)

Lemma reshuffle_check_results (w w1 : Sim.World) (u : unit) :
  Sim.reshuffle_check w = Ok (u, w1) -> Sim.results w1 = Sim.results w.
Proof.
  unfold Sim.reshuffle_check. intros H.
  apply bind_Ok in H. destruct H as (p0 & wa & Hp & H).
  apply get_player_Ok in Hp. destruct Hp as [-> _].
  apply bind_Ok in H. destruct H as (x & wb & Hx & H).
  apply get_ai_Ok in Hx. destruct Hx as [-> _].
  destruct (length (Sim.deck x) <? 52)%nat.
  - apply bind_Ok in H. destruct H as (d & wc & Hd & H).
    apply bind_Ok in H. destruct H as (u1 & wd & Hs & H).
    apply bind_Ok in H. destruct H as (x1 & we & Hx1 & H).
    apply get_ai_Ok in Hx1. destruct Hx1 as [-> _].
    unfold Sim.new_Deck_m, Sim.new_Deck in Hd. injection Hd as _ <-.
    injection Hs as _ <-. injection H as _ <-. reflexivity.
  - apply ret_Ok in H. injection H as _ ->. reflexivity.
Qed.

Lemma deal_dealer_results (european : bool) (w w1 : Sim.World) (dealer : Hand) :
  Sim.deal_dealer european w = Ok (dealer, w1) -> Sim.results w1 = Sim.results w.
Proof.
  unfold Sim.deal_dealer. intros H.
  apply bind_Ok in H. destruct H as (p0 & wa & Hp & H).
  apply get_player_Ok in Hp. destruct Hp as [-> _].
  apply bind_Ok in H. destruct H as (c & wb & Hc & H).
  apply draw_from_Ok in Hc. destruct Hc as (x & d1 & _ & _ & ->).
  destruct european.
  - apply ret_Ok in H. injection H as _ ->. reflexivity.
  - apply bind_Ok in H. destruct H as (c2 & wc & Hc2 & H).
    apply draw_from_Ok in Hc2. destruct Hc2 as (x2 & d2 & _ & _ & ->).
    apply ret_Ok in H. injection H as _ ->. reflexivity.
Qed.

Lemma play_seats_table (fuel : nat) (european : bool) (seats : list nat)
  (dealer dealer1 : Hand) (w w1 : Sim.World) :
  Sim.play_seats fuel european seats dealer w = Ok (dealer1, w1) ->
  Sim.results w1 = Sim.results w
  /\ length (Sim.players w1) = length (Sim.players w)
  /\ (forall a, shoe_ledger a w1 = shoe_ledger a w).
Proof.
  revert dealer w. induction seats as [|i seats IH]; intros dealer w; cbn [Sim.play_seats].
  - intros H. apply ret_Ok in H. injection H as _ ->. repeat split.
  - intros H. apply bind_Ok in H. destruct H as (d0 & w0 & H0 & H).
    apply IH in H. destruct H as (R & L & G).
    destruct (play_seat_seated _ _ _ _ _ _ _ H0) as (p & x & Hp & Hx).
    destruct (play_seat_summary _ _ _ _ _ _ _ p x Hp Hx H0)
      as (hands & k & tn & p1 & x1 & _ & _ & _ & _ & _ & _ & _ & _ & _ & R0 & L0 & _
          & _ & _ & _ & G0).
    split; [congruence|]. split; [congruence|]. intros a. rewrite G, G0. reflexivity.
Qed.

Lemma play_round_row (fuel : nat) (european : bool) (w w1 : Sim.World) (u : unit) :
  Sim.play_round fuel european w = Ok (u, w1) ->
  Sim.results w1 = Sim.results w ++ [Sim.bankroll <$> Sim.players w1]
  /\ length (Sim.players w1) = length (Sim.players w).
Proof.
  unfold Sim.play_round. intros H.
  apply bind_Ok in H. destruct H as (u0 & wa & Hre & H).
  pose proof (reshuffle_check_results _ _ _ Hre) as Hr1.
  apply reshuffle_check_frame in Hre. destruct Hre as (_ & Hp1).
  apply bind_Ok in H. destruct H as (dealer & wb & Hdeal & H).
  pose proof (deal_dealer_results _ _ _ _ Hdeal) as Hr2.
  apply deal_dealer_trace in Hdeal. destruct Hdeal as (Hp2 & _).
  apply bind_Ok in H. destruct H as (n & wc & Hn & H).
  unfold Sim.num_players in Hn. injection Hn as <- <-.
  apply bind_Ok in H. destruct H as (dealer1 & wd & Hseats & H).
  apply play_seats_table in Hseats. destruct Hseats as (Hr3 & Hl3 & _).
  injection H as _ <-. cbn [Sim.results Sim.players].
  split; congruence.
Qed.

Lemma rounds_rows (fuel n : nat) (european : bool) (w w1 : Sim.World) (u : unit) :
  Sim.rounds fuel n european w = Ok (u, w1) ->
  length (Sim.players w1) = length (Sim.players w)
  /\ (n = 0%nat -> w1 = w)
  /\ exists rows, Sim.results w1 = Sim.results w ++ rows
       /\ length rows = n
       /\ Forall (fun row => length row = length (Sim.players w)) rows
       /\ (n <> 0%nat -> last rows = Some (Sim.bankroll <$> Sim.players w1)).
Proof.
  revert w. induction n as [|n IH]; intros w; cbn [Sim.rounds].
  - intros H. apply ret_Ok in H. injection H as _ ->.
    split; [reflexivity|]. split; [reflexivity|].
    exists []. rewrite app_nil_r. repeat split; [constructor|congruence].
  - intros H. apply bind_Ok in H. destruct H as (u0 & w0 & H0 & H).
    apply play_round_row in H0. destruct H0 as (Hrow & Hl0).
    apply IH in H. destruct H as (Hl & Hsame & rows & Hres & Hn & Hall & Hlast).
    split; [congruence|]. split; [discriminate|].
    exists ((Sim.bankroll <$> Sim.players w0) :: rows).
    split; [rewrite Hres, Hrow, <- app_assoc; reflexivity|].
    split; [simpl; lia|]. split.
    + constructor; [rewrite length_fmap; exact Hl0|].
      eapply Forall_impl; [exact Hall|]. intros row Hr. cbn in Hr. congruence.
    + intros _. destruct n as [|n].
      * destruct rows; [|discriminate]. rewrite (Hsame eq_refl). reflexivity.
      * destruct rows as [|row rows]; [discriminate|].
        cbn [last]. apply Hlast. discriminate.
Qed.

(** ** The whole game *)

(** X19. A game that returns gives one row per round, each row holding one
    bankroll per seat in seat order; the last row is the seats' final
    bankrolls. Rows recorded before the call are not part of the result, and
    the number of seats is unchanged. *)
Theorem simulate_game_results_shape (fuel n : nat) (european : bool)
  (w w1 : Sim.World) (res : list (list Q)) :
  Sim.simulate_game fuel n european w = Ok (res, w1) ->
  length res = n
  /\ Forall (fun row => length row = length (Sim.players w)) res
  /\ (n <> 0%nat -> last res = Some (Sim.bankroll <$> Sim.players w1))
  /\ Sim.results w1 = res
  /\ length (Sim.players w1) = length (Sim.players w).
Proof.
  unfold Sim.simulate_game. intros H.
  apply bind_Ok in H. destruct H as (u0 & w0 & H0 & H).
  apply bind_Ok in H. destruct H as (u1 & w2 & H1 & H).
  unfold Sim.clear_results in H0. injection H0 as _ <-.
  unfold Sim.get_results in H. injection H as <- <-.
  apply rounds_rows in H1. cbn [Sim.results Sim.players app] in H1.
  destruct H1 as (Hl & _ & rows & -> & Hn & Hall & Hlast).
  repeat split; assumption.
Qed.

Lemma simulate_game_results_shape_witness :
  exists res w1,
    Sim.simulate_game 30 3 false two_seat_world = Ok (res, w1)
    /\ length res = 3%nat
    /\ Forall (fun row => length row = 2%nat) res.
Proof.
  destruct (Sim.simulate_game 30 3 false two_seat_world) as [[res w1]| |] eqn:E;
    [|vm_compute in E; discriminate E..].
  exists res, w1. split; [reflexivity|].
  destruct (simulate_game_results_shape 30 3 false two_seat_world w1 res E)
    as (H1 & H2 & _).
  split; [exact H1|exact H2].
Defined.

(** X20. The edges of [simulate_game]: with no rounds it returns the empty
    list and touches neither players, shoes nor the random source; with at
    least one round and no players it raises [IndexError] at [players[0]]. *)
Theorem simulate_game_edges (fuel n : nat) (european : bool) (w : Sim.World) :
  (exists w1, Sim.simulate_game fuel 0 european w = Ok ([], w1)
              /\ Sim.players w1 = Sim.players w /\ Sim.ais w1 = Sim.ais w
              /\ Sim.rng w1 = Sim.rng w /\ Sim.trace w1 = Sim.trace w)
  /\ (Sim.players w = [] -> n <> 0%nat ->
      Sim.simulate_game fuel n european w = Raise IndexError).
Proof.
  split.
  - eexists. split; [reflexivity|]. repeat split.
  - intros Hp Hn. destruct n as [|n]; [congruence|].
    unfold Sim.simulate_game, Sim.clear_results. cbn [Sim.rounds].
    unfold Sim.play_round, Sim.reshuffle_check, Sim.get_player, mbind, Sim.M_bind.
    cbn [Sim.players]. rewrite Hp. reflexivity.
Qed.

Lemma simulate_game_edges_witness :
  Sim.simulate_game 30 2 true (Sim.mkWorld [] [] (script (1 # 2) 0) [] [])
  = Raise IndexError.
Proof.
  destruct (simulate_game_edges 30 2 true (Sim.mkWorld [] [] (script (1 # 2) 0) [] []))
    as [_ H].
  apply H; [reflexivity | discriminate].
Defined.

(** ** The two decision policies *)

Lemma AI_overlay_hit_or_stand (tc : Q) (v dv : Z) (bp dbp : Q) (basic : Action) :
  basic = Hit \/ basic = Stand ->
  AI.overlay tc v dv bp dbp basic = Hit \/ AI.overlay tc v dv bp dbp basic = Stand.
Proof.
  intros H. unfold AI.overlay.
  repeat match goal with |- context [if ?b then _ else _] => destruct b end; tauto.
Qed.

Lemma simulate_dealer_hand_empty (fuel : nat) (up : Card) (n : nat) :
  simulate_dealer_hand (S fuel) up (S n) [] = Raise ValueError.
Proof.
  unfold simulate_dealer_hand. cbn [dealer_trials dealer_trial].
  pose proof (hand_value_single up) as H.
  assert (E : (hand_value [up] <? 17) = true) by (apply Z.ltb_lt; lia).
  rewrite E. reflexivity.
Qed.

(** X21. A simulator player without a classifier whose first random draw
    falls below its skill level answers with the recommendation, so the
    action it returns is one the hand allows: [Split] only on a pair and
    [Double] only on two cards. One random number is consumed. *)
Theorem skilled_decision_is_legal (p : Sim.PlayerSimulator) (x : Sim.BlackjackAI)
  (h : Hand) (up : Card) (r : Sim.Rng) :
  Sim.ml_model p = None ->
  (Sim.uniform r (Sim.pos r) < Sim.skill_level p)%Q ->
  exists a,
    Sim.make_decision p x h up r = (Some a, Sim.advance r)
    /\ a = Sim.recommend_action x h up
    /\ (a = Split -> can_split h = true)
    /\ (a = Double -> length h = 2%nat).
Proof.
  intros Hm Hu. exists (Sim.recommend_action x h up).
  split; [|split; [reflexivity|]].
  - unfold Sim.make_decision, Sim.skill_or_random, Sim.random_random. rewrite Hm.
    apply Qltb_lt in Hu. rewrite Hu. reflexivity.
  - destruct (Sim_basic_strategy_legal h up) as [Hs Hd].
    destruct (Sim_recommend_basic_or_stand x h up) as [E|E]; rewrite E;
      split; first [assumption | discriminate].
Qed.

Lemma skilled_decision_is_legal_witness :
  exists a,
    Sim.make_decision expert sim_ai_tens pair_of_eights c5S (script (1 # 2) 0)
    = (Some a, Sim.advance (script (1 # 2) 0))
    /\ (a = Split -> can_split pair_of_eights = true).
Proof.
  destruct (skilled_decision_is_legal expert sim_ai_tens pair_of_eights c5S
              (script (1 # 2) 0)) as (a & H1 & _ & H2 & _).
  - reflexivity.
  - vm_compute. reflexivity.
  - exists a. split; assumption.
Defined.

(** X22. The player of [blackjack-player-simulation.py] only ever hits or
    stands: on a non-empty shoe its [make_decision] returns [Hit] or [Stand],
    whatever the random source gives, and leaves the player and its shoe as
    they were; on an empty shoe the dealer simulation inside
    [recommend_action] raises [ValueError] (the deck is empty), and so does
    [make_decision]. *)
Theorem simple_player_hits_or_stands (fuel : nat) (ps : PlayerSim.PlayerSimulator)
  (h : Hand) (up : Card) (r : Sim.Rng) :
  ((17 <= fuel)%nat -> AI.deck (PlayerSim.ai ps) <> [] ->
   exists a r1,
     PlayerSim.make_decision fuel ps h up r = Ok (Some a, ps, r1)
     /\ (a = Hit \/ a = Stand))
  /\ (fuel <> 0%nat -> AI.deck (PlayerSim.ai ps) = [] ->
      AI.recommend_action fuel (PlayerSim.ai ps) h up = Raise ValueError
      /\ PlayerSim.make_decision fuel ps h up r = Raise ValueError).
Proof.
  split.
  - intros Hf Hd.
    destruct (simulate_dealer_hand_nonempty fuel up 10000 _ Hf Hd) as (dbp & Hdbp);
      [discriminate|].
    unfold PlayerSim.make_decision, AI.recommend_action. rewrite Hdbp.
    pose proof (AI_overlay_hit_or_stand (AI.true_count (PlayerSim.ai ps)) (hand_value h)
                  (card_value up) (calculate_bust_probability (AI.deck (PlayerSim.ai ps)) h)
                  dbp _ (AI_basic_strategy_hit_or_stand h up)) as Hact.
    unfold Sim.random_random, PlayerSim.random_choice, Sim.random_choice.
    assert (Hps : PlayerSim.mkPlayer
                    (AI.mkAI (AI.deck (PlayerSim.ai ps)) (AI.card_count (PlayerSim.ai ps))
                       (AI.true_count (PlayerSim.ai ps)) (AI.hands_played (PlayerSim.ai ps)))
                    (PlayerSim.skill_level ps) (PlayerSim.bankroll ps) (PlayerSim.bet_size ps)
                  = ps) by (destruct ps as [[] ? ? ?]; reflexivity).
    rewrite Hps.
    destruct (Qltb _ _).
    + eexists _, _. split; [reflexivity|exact Hact].
    + cbn [length].
      pose proof (Nat.mod_upper_bound (Sim.pick (Sim.advance r) (Sim.pos (Sim.advance r))) 2
                    ltac:(lia)) as Hb.
      destruct (Sim.pick (Sim.advance r) (Sim.pos (Sim.advance r)) `mod` 2)%nat
        as [|[|k]] eqn:Ek; [| |lia].
      * eexists _, _. split; [reflexivity|]. left. reflexivity.
      * eexists _, _. split; [reflexivity|]. right. reflexivity.
  - intros Hf Hd. destruct fuel as [|fuel]; [congruence|].
    assert (Hrec : AI.recommend_action (S fuel) (PlayerSim.ai ps) h up = Raise ValueError).
    { unfold AI.recommend_action. rewrite Hd.
      change 10000%nat with (S 9999). rewrite simulate_dealer_hand_empty. reflexivity. }
    split; [exact Hrec|]. unfold PlayerSim.make_decision. rewrite Hrec. reflexivity.
Qed.

Lemma simple_player_hits_or_stands_witness :
  exists a r1,
    PlayerSim.make_decision 17 (PlayerSim.mkPlayer ai_tens 0 1000 10) hard16 c10D
      (script (1 # 2) 1) = Ok (Some a, PlayerSim.mkPlayer ai_tens 0 1000 10, r1)
    /\ (a = Hit \/ a = Stand).
Proof.
  apply (simple_player_hits_or_stands 17 (PlayerSim.mkPlayer ai_tens 0 1000 10) hard16 c10D
           (script (1 # 2) 1)).
  - lia.
  - discriminate.
Defined.
